(** * Google Maps Reviews Analyzer: the data pipeline of [main.py]

    A shallow embedding of the table construction ([process_reviews_data]),
    of the summary block, of the two charts of [create_graphs] and of the
    projection and serialisation that feed the AI analysis, together with
    the pandas, [random], [csv] and file primitives these lines call.

    Conventions.
    - A cell of a frame is a [value].  pandas treats [None] and [NaN] alike as
      missing in every operation the script uses ([to_numeric], [dropna],
      [value_counts], [mean], [to_csv]); both are [VNull].
    - A finite float64 is modelled by the rational it denotes; [float64]
      rounds a rational to the nearest float64, ties to even, and the sum
      and the quotient of the mean are rounded with it.  The infinities are
      left out: no overflow is modelled.
    - A [datetime] is the number of microseconds since 1970-01-01T00:00:00
      on the naive local clock.
    - Python exceptions are values of [py_error]; a computation that may
      raise returns a [result]. *)

From Stdlib Require Import ZArith QArith Qround Qabs Qpower List String Ascii Bool Lia Arith.
From Stdlib Require Import DecimalString DecimalZ Sorted Permutation Lqa.
Import ListNotations.

Local Open Scope string_scope.
Local Open Scope list_scope.
Local Open Scope Z_scope.
#[local] Set Warnings "-register-all".

(** ** Exceptions and the error monad *)

Inductive py_error : Type :=
| KeyError (key : string)
    (* df[key]: no such column *)
| IndexError
    (* iloc[0]: single positional indexer is out-of-bounds *)
| ValueError (s : string) (pos : nat)
    (* to_numeric: Unable to parse string "s" at position pos *)
| TypeError (pos : nat)
    (* to_numeric: Invalid object type at position pos *)
| DtypeError (col : string).
    (* an aggregation or resample applied to a column of the wrong dtype *)

Inductive result (A : Type) : Type :=
| Ok (a : A)
| Raise (e : py_error).

Arguments Ok {A} a.
Arguments Raise {A} e.

Definition bind {A B : Type} (m : result A) (k : A -> result B) : result B :=
  match m with
  | Ok a => k a
  | Raise e => Raise e
  end.

Notation "x <- m ;; k" := (bind m (fun x => k))
  (at level 61, m at next level, right associativity).

Definition is_ok {A : Type} (m : result A) : bool :=
  match m with Ok _ => true | Raise _ => false end.

(** ** Values, raw records and frames *)

(** What a JSON item of the scraper's dataset can hold, plus the timestamps
    the script itself puts into the frame. *)
Inductive value : Type :=
| VNull
| VBool (b : bool)
| VInt (z : Z)
| VFloat (q : Q)
| VStr (s : string)
| VList (l : list value)
| VDict (l : list (string * value))
| VTime (t : Z).

(** A raw review record is a Python dict: keys in insertion order. *)
Definition record : Type := list (string * value).

Fixpoint dict_get (k : string) (r : record) : option value :=
  match r with
  | [] => None
  | (k', v) :: rest => if String.eqb k k' then Some v else dict_get k rest
  end.

Definition dict_keys (r : record) : list string := map fst r.

(** A frame: the length of its index and its columns in order.  A frame
    built from a list of empty dicts has rows but no column, so the length
    is kept apart from the columns. *)
Record DataFrame : Type := mkDF {
  index_len : nat;
  columns : list (string * list value)
}.

Definition column_labels (df : DataFrame) : list string :=
  map fst (columns df).

Fixpoint find_column (k : string) (cols : list (string * list value))
  : option (list value) :=
  match cols with
  | [] => None
  | (k', c) :: rest => if String.eqb k k' then Some c else find_column k rest
  end.

(** [df[k]] *)
Definition getitem (df : DataFrame) (k : string) : result (list value) :=
  match find_column k (columns df) with
  | Some c => Ok c
  | None => Raise (KeyError k)
  end.

Fixpoint replace_column (k : string) (c : list value)
  (cols : list (string * list value)) : list (string * list value) :=
  match cols with
  | [] => [(k, c)]
  | (k', c') :: rest =>
      if String.eqb k k' then (k', c) :: rest
      else (k', c') :: replace_column k c rest
  end.

(** [df[k] = c]: an existing column keeps its place, a new one goes last. *)
Definition setitem (df : DataFrame) (k : string) (c : list value) : DataFrame :=
  mkDF (index_len df) (replace_column k c (columns df)).

(** [len(df)] *)
Definition len (df : DataFrame) : nat := index_len df.

(** Every column is as long as the index. *)
Definition well_formed (df : DataFrame) : Prop :=
  Forall (fun kc => List.length (snd kc) = index_len df) (columns df).

(** ** [pd.DataFrame(reviews_data)] *)

Definition add_key (acc : list string) (k : string) : list string :=
  if existsb (String.eqb k) acc then acc else acc ++ [k].

(** Column labels: the keys of the records in order of first appearance. *)
Definition column_names (rs : list record) : list string :=
  fold_left (fun acc r => fold_left add_key (dict_keys r) acc) rs [].

(** A key a record lacks gives a missing cell. *)
Definition cell_of (k : string) (r : record) : value :=
  match dict_get k r with
  | Some v => v
  | None => VNull
  end.

Definition is_int (v : value) : bool :=
  match v with VInt _ => true | _ => false end.

Definition is_float_or_null (v : value) : bool :=
  match v with VFloat _ | VNull => true | _ => false end.

Definition is_floatish (v : value) : bool :=
  match v with VInt _ | VFloat _ | VNull => true | _ => false end.

Definition to_float (v : value) : value :=
  match v with
  | VInt z => VFloat (inject_Z z)
  | VBool b => VFloat (if b then 1%Q else 0%Q)
  | _ => v
  end.

Definition to_int (v : value) : value :=
  match v with
  | VBool b => VInt (if b then 1 else 0)
  | _ => v
  end.

(** Dtype inference of the constructor: a column of integers stays int64, a
    column of integers, floats and missing cells becomes float64, anything
    else stays an object column. *)
Definition infer_dtype (col : list value) : list value :=
  if forallb is_int col then col
  else if forallb is_floatish col then map to_float col
  else col.

Definition DataFrame_of_records (rs : list record) : DataFrame :=
  mkDF (List.length rs)
       (map (fun k => (k, infer_dtype (map (cell_of k) rs))) (column_names rs)).

(** ** [pd.to_numeric] *)

(** What the string-to-number routine of pandas yields for a string it
    accepts. *)
Inductive scalar : Type :=
| SInt (z : Z)
| SFloat (q : Q)
| SNaN.

Definition value_of_scalar (x : scalar) : value :=
  match x with
  | SInt z => VInt z
  | SFloat q => VFloat q
  | SNaN => VNull
  end.

(** The source of random numbers behind [random.randint]: the generator
    state is threaded through the draws. *)
Class RandomSource (G : Type) : Type := {
  randbelow : Z -> G -> Z * G;
  randbelow_range : forall n g, 0 < n -> 0 <= fst (randbelow n g) < n
}.

Section Pipeline.

Context {G : Type} `{RandomSource G}.

(** [floatify] of pandas: the number a string denotes, or [None] where
    pandas raises "Unable to parse string". *)
Variable floatify : string -> option scalar.

(** One step of [lib.maybe_convert_numeric] on the cell at position [pos]. *)
Definition convert_numeric (pos : nat) (v : value) : result value :=
  match v with
  | VNull => Ok VNull
  | VFloat q => Ok (VFloat q)
  | VInt z => Ok (VInt z)
  | VBool b => Ok (VBool b)
  | VStr EmptyString => Ok VNull
  | VList [] => Ok VNull
  | VDict [] => Ok VNull
  | VStr s =>
      match floatify s with
      | Some x => Ok (value_of_scalar x)
      | None => Raise (ValueError s pos)
      end
  | VList _ | VDict _ | VTime _ => Raise (TypeError pos)
  end.

Fixpoint maybe_convert_numeric (pos : nat) (col : list value)
  : result (list value) :=
  match col with
  | [] => Ok []
  | v :: rest =>
      x <- convert_numeric pos v ;;
      xs <- maybe_convert_numeric (S pos) rest ;;
      Ok (x :: xs)
  end.

(** The dtype of the converted column: float64 as soon as a float or a
    missing cell was seen, else int64 if an integer was seen, else bool. *)
Definition unify_numeric (col : list value) : list value :=
  if existsb is_float_or_null col then map to_float col
  else if existsb is_int col then map to_int col
  else col.

Definition to_numeric (col : list value) : result (list value) :=
  xs <- maybe_convert_numeric 0 col ;;
  Ok (unify_numeric xs).

(** ** [process_reviews_data] *)

Definition microseconds_per_day : Z := 86400000000.

(** [timedelta(days=d)] *)
Definition timedelta_days (d : Z) : Z := d * microseconds_per_day.

(** [random.randint(a, b)] is [a + _randbelow(b - a + 1)]. *)
Definition randint (a b : Z) (g : G) : Z * G :=
  let (k, g') := randbelow (b - a + 1) g in (a + k, g').

(** The list comprehension of line 54: one draw per row. *)
Fixpoint random_dates (n : nat) (start_date : Z) (g : G) : list Z * G :=
  match n with
  | O => ([], g)
  | S n' =>
      let (d, g1) := randint 0 730 g in
      let (rest, g2) := random_dates n' start_date g1 in
      (start_date + timedelta_days d :: rest, g2)
  end.

(** [now] is what [datetime.now()] returns at the call; [pd.to_datetime]
    leaves a column of datetimes as it is. *)
Definition process_reviews_data (now : Z) (g : G) (reviews_data : list record)
  : result (DataFrame * G) :=
  let df := DataFrame_of_records reviews_data in
  stars <- getitem df "stars" ;;
  stars' <- to_numeric stars ;;
  let df := setitem df "stars" stars' in
  let end_date := now in
  let start_date := end_date - timedelta_days 730 in
  let (dates, g') := random_dates (len df) start_date g in
  let df := setitem df "review_date" (map VTime dates) in
  Ok (df, g').

End Pipeline.

(** ** The summary block (lines 117-120) *)

(** [series.iloc[0]] *)
Definition iloc0 (c : list value) : result value :=
  match c with
  | [] => Raise IndexError
  | v :: _ => Ok v
  end.

(** The number in a cell of a numeric column; [None] is NaN. *)
Definition numeric_cell (col : string) (v : value) : result (option Q) :=
  match v with
  | VNull => Ok None
  | VInt z => Ok (Some (inject_Z z))
  | VFloat q => Ok (Some q)
  | VBool b => Ok (Some (if b then 1%Q else 0%Q))
  | _ => Raise (DtypeError col)
  end.

Fixpoint numeric_view (col : string) (c : list value)
  : result (list (option Q)) :=
  match c with
  | [] => Ok []
  | v :: rest =>
      x <- numeric_cell col v ;;
      xs <- numeric_view col rest ;;
      Ok (x :: xs)
  end.

Definition Qsum (l : list Q) : Q := fold_right Qplus 0%Q l.

Definition fillna0 (xs : list (option Q)) : list Q :=
  map (fun x => match x with Some q => q | None => 0%Q end) xs.

Definition isna (x : option Q) : bool :=
  match x with Some _ => false | None => true end.

Definition count_notna (xs : list (option Q)) : nat :=
  List.length (filter (fun x => negb (isna x)) xs).

(** Rounding to the nearest integer, ties to even. *)
Definition round_half_even (q : Q) : Z :=
  let f := Qfloor q in
  match Qcompare (q - inject_Z f) (1 # 2) with
  | Lt => f
  | Gt => f + 1
  | Eq => if Z.even f then f else f + 1
  end.

Definition pow2 (e : Z) : Q := (2 ^ e)%Q.

(** The exponent of the leading bit of a positive rational. *)
Definition floor_log2 (q : Q) : Z :=
  let k := Z.log2 (Qnum q) - Z.log2 (Zpos (Qden q)) in
  if Qle_bool (pow2 k) q then k else k - 1.

(** The float64 nearest to a rational, ties to even (IEEE 754 binary64):
    53 bits of precision, the last bit worth [2^(e - 52)] for a number
    from [2^e] up to [2^(e+1)], and never less than [2^-1074]. *)
Definition float64 (x : Q) : Q :=
  let q := Qred x in
  if Qnum q =? 0 then 0%Q
  else
    let e := Z.max (floor_log2 (Qabs q) - 52) (-1074) in
    (inject_Z (round_half_even (q / pow2 e)) * pow2 e)%Q.

(** The sum of a float64 array, each addition rounded, from the left.
    numpy adds long arrays pairwise; the order makes no difference where
    the partial sums are float64 values themselves, as with star ratings. *)
Definition float_add (a b : Q) : Q := float64 (a + b).

Definition float_sum (l : list Q) : Q := fold_left float_add l 0%Q.

(** [Series.mean()] with its default [skipna=True], as [nanops.nanmean]
    computes it: the entries are taken as float64, missing entries are
    masked to zero for the sum and left out of the count, and the quotient
    is a float64 division; no entry left gives NaN. *)
Definition nanmean (xs : list (option Q)) : option Q :=
  let count := count_notna xs in
  let the_sum := float_sum (map float64 (fillna0 xs)) in
  if (0 <? count)%nat
  then Some (float64 (the_sum / inject_Z (Z.of_nat count)))
  else None.

(** The value in hundredths that [:.2f] prints: Python rounds the exact
    binary value of the float64, ties to even. *)
Definition hundredths (q : Q) : Z := round_half_even (q * 100).

Definition decimal (z : Z) : string := NilZero.string_of_int (Z.to_int z).

Definition two_digits (z : Z) : string :=
  (decimal (z / 10) ++ decimal (z mod 10))%string.

(** [f"{x:.2f}"] *)
Definition format_2f (x : option Q) : string :=
  match x with
  | None => "nan"
  | Some q =>
      let h := Z.abs (hundredths q) in
      let sign := if Qnum q <? 0 then "-" else "" in
      let int_part := decimal (h / 100) in
      let frac_part := two_digits (h mod 100) in
      (sign ++ int_part ++ "." ++ frac_part)%string
  end.

Record SummaryStatistics : Type := mkSummary {
  title : value;
  category : value;
  reviews_count : value;
  mean_rating : option Q;
  mean_text : string
}.

(** The four [st.write] lines, in their order of evaluation. *)
Definition summary (df : DataFrame) : result SummaryStatistics :=
  c_title <- getitem df "title" ;;
  v_title <- iloc0 c_title ;;
  c_cat <- getitem df "categoryName" ;;
  v_cat <- iloc0 c_cat ;;
  c_cnt <- getitem df "reviewsCount" ;;
  v_cnt <- iloc0 c_cnt ;;
  c_stars <- getitem df "stars" ;;
  xs <- numeric_view "stars" c_stars ;;
  let m := nanmean xs in
  Ok (mkSummary v_title v_cat v_cnt m (format_2f m)).

(** ** [create_graphs]: the rating histogram (line 66) *)

Fixpoint insert_by {A : Type} (le : A -> A -> bool) (x : A) (l : list A)
  : list A :=
  match l with
  | [] => [x]
  | y :: rest => if le x y then x :: l else y :: insert_by le x rest
  end.

Definition sort_by {A : Type} (le : A -> A -> bool) (l : list A) : list A :=
  fold_right (insert_by le) [] l.

(** The entries that are not missing. *)
Definition dropna_values (xs : list (option Q)) : list Q :=
  flat_map (fun x => match x with Some q => [q] | None => [] end) xs.

(** The distinct values of a list, each at its first occurrence. *)
Fixpoint unique (vals : list Q) : list Q :=
  match vals with
  | [] => []
  | x :: rest => x :: filter (fun y => negb (Qeq_bool x y)) (unique rest)
  end.

(** How many entries are equal to [k]. *)
Definition occurrences (k : Q) (vals : list Q) : nat :=
  List.length (filter (Qeq_bool k) vals).

(** [Series.value_counts()]: one entry per distinct value that occurs, with
    the number of its occurrences, missing values dropped ([dropna=True]),
    most frequent first. *)
Definition value_counts (xs : list (option Q)) : list (Q * nat) :=
  let vals := dropna_values xs in
  sort_by (fun a b => Nat.leb (snd b) (snd a))
          (map (fun k => (k, occurrences k vals)) (unique vals)).

(** [Series.sort_index()] *)
Definition sort_index (h : list (Q * nat)) : list (Q * nat) :=
  sort_by (fun a b => Qle_bool (fst a) (fst b)) h.

Definition rating_histogram (df : DataFrame) : result (list (Q * nat)) :=
  c_stars <- getitem df "stars" ;;
  xs <- numeric_view "stars" c_stars ;;
  Ok (sort_index (value_counts xs)).

(** ** [create_graphs]: reviews per month (line 72) *)

(** Days since 1970-01-01 to the civil date (year, month, day). *)
Definition civil_from_days (days : Z) : Z * Z * Z :=
  let z := days + 719468 in
  let era := z / 146097 in
  let doe := z - era * 146097 in
  let yoe := (doe - doe / 1460 + doe / 36524 - doe / 146096) / 365 in
  let y := yoe + era * 400 in
  let doy := doe - (365 * yoe + yoe / 4 - yoe / 100) in
  let mp := (5 * doy + 2) / 153 in
  let d := doy - (153 * mp + 2) / 5 + 1 in
  let m := if mp <? 10 then mp + 3 else mp - 9 in
  (if m <=? 2 then y + 1 else y, m, d).

(** The civil date to days since 1970-01-01. *)
Definition days_from_civil (y m d : Z) : Z :=
  let y' := if m <=? 2 then y - 1 else y in
  let era := y' / 400 in
  let yoe := y' - era * 400 in
  let mp := if 2 <? m then m - 3 else m + 9 in
  let doy := (153 * mp + 2) / 5 + d - 1 in
  let doe := yoe * 365 + yoe / 4 - yoe / 100 + doy in
  era * 146097 + doe - 719468.

(** The calendar month of a timestamp, as months since year 0:
    [12 * year + (month - 1)]. *)
Definition month_index (t : Z) : Z :=
  let '(y, m, _) := civil_from_days (t / microseconds_per_day) in
  12 * y + (m - 1).

(** The label of a monthly bin: midnight of the last day of the month. *)
Definition month_end (mi : Z) : Z :=
  let next := mi + 1 in
  timedelta_days (days_from_civil (next / 12) (next mod 12 + 1) 1 - 1).

Fixpoint datetime_view (col : string) (c : list value) : result (list Z) :=
  match c with
  | [] => Ok []
  | VTime t :: rest => ts <- datetime_view col rest ;; Ok (t :: ts)
  | _ :: _ => Raise (DtypeError col)
  end.

Definition month_range (lo hi : Z) : list Z :=
  map (fun i => lo + Z.of_nat i) (seq 0 (Z.to_nat (hi - lo + 1))).

Definition count_month (m : Z) (ms : list Z) : nat :=
  List.length (filter (Z.eqb m) ms).

(** [resample('M').size()]: one bin per calendar month from the month of
    the earliest timestamp to the month of the latest one, empty months
    included, each with the number of rows that fall in it. *)
Definition resample_M_size (ts : list Z) : list (Z * nat) :=
  match map month_index ts with
  | [] => []
  | m0 :: rest =>
      let lo := fold_left Z.min rest m0 in
      let hi := fold_left Z.max rest m0 in
      map (fun m => (m, count_month m (m0 :: rest))) (month_range lo hi)
  end.

(** [df.set_index('review_date').resample('M').size()]; the buckets are
    keyed by [month_index], and [month_end] gives the timestamp label that
    [reset_index] puts into the [review_date] column. *)
Definition monthly_counts (df : DataFrame) : result (list (Z * nat)) :=
  c_date <- getitem df "review_date" ;;
  ts <- datetime_view "review_date" c_date ;;
  Ok (resample_M_size ts).

(** ** The projection for the AI analysis (line 144) *)

Fixpoint select_columns_aux (df : DataFrame) (ks : list string)
  : result (list (string * list value)) :=
  match ks with
  | [] => Ok []
  | k :: rest =>
      c <- getitem df k ;;
      cs <- select_columns_aux df rest ;;
      Ok ((k, c) :: cs)
  end.

(** [df[[k1, ..., kn]]] *)
Definition select_columns (df : DataFrame) (ks : list string)
  : result DataFrame :=
  cs <- select_columns_aux df ks ;;
  Ok (mkDF (index_len df) cs).

Definition notna (v : value) : bool :=
  match v with VNull => false | _ => true end.

Fixpoint filter_mask {A : Type} (mask : list bool) (l : list A) : list A :=
  match mask, l with
  | true :: mask', x :: l' => x :: filter_mask mask' l'
  | false :: mask', _ :: l' => filter_mask mask' l'
  | _, _ => []
  end.

(** [df.dropna(subset=[k])] *)
Definition dropna_subset (df : DataFrame) (k : string) : result DataFrame :=
  c <- getitem df k ;;
  let mask := map notna c in
  Ok (mkDF (List.length (filter (fun b => b) mask))
           (map (fun kc => (fst kc, filter_mask mask (snd kc))) (columns df))).

Definition project_for_ai (df : DataFrame) : result DataFrame :=
  p <- select_columns df ["stars"; "text"] ;;
  dropna_subset p "text".

(** The rows of a two-column frame as pairs. *)
Definition pairs_of (df : DataFrame) : result (list (value * value)) :=
  c_stars <- getitem df "stars" ;;
  c_text <- getitem df "text" ;;
  Ok (combine c_stars c_text).

(** ** Serialisation for the AI analysis (lines 145-148) *)

Definition delimiter : ascii := ","%char.
Definition quotechar : ascii := "034"%char.
Definition CR : ascii := "013"%char.
Definition LF : ascii := "010"%char.

(** [os.linesep] on POSIX, the line terminator [to_csv] writes. *)
Definition lineterminator : string := String LF EmptyString.

Fixpoint string_exists (p : ascii -> bool) (s : string) : bool :=
  match s with
  | EmptyString => false
  | String c r => p c || string_exists p r
  end.

(** A character that makes the [csv] writer quote the field under
    [QUOTE_MINIMAL]: the delimiter, the quote character and the characters
    of the line terminator.  (Python 3.13 quotes a field with a carriage
    return as well; the difference shows only on a field that holds a
    carriage return and no other special character.) *)
Definition special (c : ascii) : bool :=
  Ascii.eqb c delimiter || Ascii.eqb c quotechar
  || string_exists (Ascii.eqb c) lineterminator.

Fixpoint double_quotes (s : string) : string :=
  match s with
  | EmptyString => EmptyString
  | String c r =>
      if Ascii.eqb c quotechar then String c (String c (double_quotes r))
      else String c (double_quotes r)
  end.

Definition csv_field (s : string) : string :=
  if string_exists special s
  then String quotechar (double_quotes s ++ String quotechar EmptyString)
  else s.

Fixpoint join_fields (fs : list string) : string :=
  match fs with
  | [] => EmptyString
  | [f] => f
  | f :: rest => (f ++ String delimiter (join_fields rest))%string
  end.

(** [csv.writer.writerow]: a row made of one empty field is written as a
    pair of quotes. *)
Definition csv_row (fields : list string) : string :=
  match fields with
  | [EmptyString] =>
      (String quotechar (String quotechar EmptyString) ++ lineterminator)%string
  | _ => (join_fields (map csv_field fields) ++ lineterminator)%string
  end.

(** Row [i] of the frame, for [i] below [n]. *)
Fixpoint rows_of (n : nat) (cols : list (list value)) : list (list value) :=
  match n with
  | O => []
  | S n' => map (hd VNull) cols :: rows_of n' (map (@tl value) cols)
  end.

Definition csv_file (rows : list (list string)) : string :=
  fold_right String.append EmptyString (map csv_row rows).

Section Transfer.

(** The text numpy gives for a float64 (its shortest repr). *)
Variable repr_float : Q -> string.

(** Python's [str()] of an object that is neither a string nor a number. *)
Variable str_object : value -> string.

(** The text of a cell in the file; a missing cell is the empty [na_rep]. *)
Definition csv_cell (v : value) : string :=
  match v with
  | VNull => EmptyString
  | VInt z => decimal z
  | VFloat q => repr_float q
  | VStr s => s
  | VBool true => "True"
  | VBool false => "False"
  | VList _ | VDict _ | VTime _ => str_object v
  end.

(** [df.to_csv(path, index=False)]: the header, then one line per row. *)
Definition to_csv (df : DataFrame) : string :=
  csv_file (column_labels df
            :: map (map csv_cell)
                   (rows_of (index_len df) (map snd (columns df)))).

(** [open(path, 'r').read()]: text mode turns every CR LF and every lone CR
    into LF. *)
Fixpoint universal_newlines (s : string) : string :=
  match s with
  | EmptyString => EmptyString
  | String c r =>
      if Ascii.eqb c CR then
        String LF
          match r with
          | String c' r' =>
              if Ascii.eqb c' LF then universal_newlines r'
              else universal_newlines r
          | EmptyString => EmptyString
          end
      else String c (universal_newlines r)
  end.

(** The text embedded in the user message: the projection written to the
    file and read back. *)
Definition csv_data (df : DataFrame) : result string :=
  df_ai <- project_for_ai df ;;
  Ok (universal_newlines (to_csv df_ai)).

End Transfer.

(** ** Reading the transfer format back *)

Inductive reader_state : Type :=
| StartRow
| StartField
| InField
| InQuoted
| QuoteInQuoted.

Definition snoc (s : string) (c : ascii) : string :=
  (s ++ String c EmptyString)%string.

(** Modelled from the spec: the parser of the round-trip property, which the
    repository does not contain (the script only reads the file back as
    text).  It is the reader of the delimited format the writer produces:
    fields separated by the delimiter, records ended by a line feed, a
    quoted field ended by a quote that is not doubled. *)
Fixpoint read_csv (st : reader_state) (field : string) (row : list string)
  (s : string) : list (list string) :=
  match s with
  | EmptyString =>
      match st with
      | StartRow => []
      | _ => [row ++ [field]]
      end
  | String c r =>
      match st with
      | StartRow | StartField =>
          if Ascii.eqb c quotechar then read_csv InQuoted EmptyString row r
          else if Ascii.eqb c delimiter
          then read_csv StartField EmptyString (row ++ [EmptyString]) r
          else if Ascii.eqb c LF
          then match st with
               | StartRow => []
               | _ => row ++ [EmptyString]
               end :: read_csv StartRow EmptyString [] r
          else read_csv InField (String c EmptyString) row r
      | InField =>
          if Ascii.eqb c delimiter
          then read_csv StartField EmptyString (row ++ [field]) r
          else if Ascii.eqb c LF
          then (row ++ [field]) :: read_csv StartRow EmptyString [] r
          else read_csv InField (snoc field c) row r
      | InQuoted =>
          if Ascii.eqb c quotechar then read_csv QuoteInQuoted field row r
          else read_csv InQuoted (snoc field c) row r
      | QuoteInQuoted =>
          if Ascii.eqb c quotechar then read_csv InQuoted (snoc field c) row r
          else if Ascii.eqb c delimiter
          then read_csv StartField EmptyString (row ++ [field]) r
          else if Ascii.eqb c LF
          then (row ++ [field]) :: read_csv StartRow EmptyString [] r
          else read_csv InField (snoc field c) row r
      end
  end.

Definition parse_csv (s : string) : list (list string) :=
  read_csv StartRow EmptyString [] s.

Section ParsePairs.

(** Modelled from the spec: the reader of a rating that is not missing; the
    inverse of the way numbers are printed. *)
Variable parse_number : string -> option value.

Definition parse_rating (s : string) : option value :=
  match s with
  | EmptyString => Some VNull
  | _ => parse_number s
  end.

Fixpoint parse_rows (rows : list (list string))
  : option (list (value * value)) :=
  match rows with
  | [] => Some []
  | [r; t] :: rest =>
      match parse_rating r, parse_rows rest with
      | Some v, Some ps => Some ((v, VStr t) :: ps)
      | _, _ => None
      end
  | _ :: _ => None
  end.

(** Modelled from the spec: parsing the transfer text back into the
    (rating, text) pairs; the first record is the header. *)
Definition parse_pairs (s : string) : option (list (value * value)) :=
  match parse_csv s with
  | [] => None
  | _ :: rows => parse_rows rows
  end.

End ParsePairs.

(** * The rest of the script *)

(** ** Failures of a run of the page *)

(** An exception that ends a run of the script: one of the Python errors
    above, or an error of a backend client (Apify, Anthropic). *)
Inductive failure : Type :=
| PythonError (e : py_error)
| BackendError (what : string).

Inductive attempt (A : Type) : Type :=
| Done (a : A)
| Failed (f : failure).

Arguments Done {A} a.
Arguments Failed {A} f.

Definition and_then {A B : Type} (m : attempt A) (k : A -> attempt B)
  : attempt B :=
  match m with
  | Done a => k a
  | Failed f => Failed f
  end.

Notation "x <~ m ;; k" := (and_then m (fun x => k))
  (at level 61, m at next level, right associativity).

Definition lift {A : Type} (m : result A) : attempt A :=
  match m with
  | Ok a => Done a
  | Raise e => Failed (PythonError e)
  end.

(** ** [scrape_google_maps_reviews] (lines 30-44) *)

Definition GOOGLE_MAPS_SCRAPER_ID : string :=
  "compass/Google-Maps-Reviews-Scraper".

Definition run_input (url : string) (max_reviews : Z) : value :=
  VDict [("language", VStr "ja");
         ("maxReviews", VInt max_reviews);
         ("personalData", VBool true);
         ("startUrls", VList [VDict [("url", VStr url)]])].

(** [d[k]] on a dict *)
Definition dict_getitem (k : string) (d : record) : result value :=
  match dict_get k d with
  | Some v => Ok v
  | None => Raise (KeyError k)
  end.

Section Scraper.

(** [client.actor(id).call(run_input=...)]: the run, a dict. *)
Variable actor_call : string -> value -> attempt record.

(** [client.dataset(id).iterate_items()]: the items it yields. *)
Variable iterate_items : value -> attempt (list record).

Definition scrape_google_maps_reviews (url : string) (max_reviews : Z)
  : attempt (list record) :=
  run <~ actor_call GOOGLE_MAPS_SCRAPER_ID (run_input url max_reviews) ;;
  dataset_id <~ lift (dict_getitem "defaultDatasetId" run) ;;
  items <~ iterate_items dataset_id ;;
  Done (fold_left (fun reviews_data item => reviews_data ++ [item]) items []).

End Scraper.

(** ** [create_graphs] (lines 60-73) *)

(** The data of the two charts, the histogram first. *)
Definition create_graphs (df : DataFrame)
  : result (list (Q * nat) * list (Z * nat)) :=
  star_counts <- rating_histogram df ;;
  df_time <- monthly_counts df ;;
  Ok (star_counts, df_time).

(** ** [get_ai_analysis] (lines 76-87) *)

Record message_request : Type := mkRequest {
  req_model : string;
  req_max_tokens : Z;
  req_temperature : Q;
  req_system : string;
  req_messages : list (string * string)
}.

Section Insight.

(** [anthropic.Anthropic(api_key=...).messages.create(...)]: the texts of
    the content blocks of the reply. *)
Variable messages_create : string -> message_request -> attempt (list string).

Definition get_ai_analysis (api_key prompt user_message : string)
  : attempt string :=
  content <~ messages_create api_key
               (mkRequest "claude-3-opus-20240229" 3000 (7 # 10) prompt
                          [("user", user_message)]) ;;
  match content with
  | [] => Failed (PythonError IndexError)
  | text :: _ => Done text
  end.

End Insight.

(** ** The page (lines 92-156) *)

(** The two keys the script keeps in [st.session_state]. *)
Record session_state : Type := mkSession {
  ss_df : option DataFrame;
  ss_data_loaded : option bool
}.

Definition fresh_session : session_state := mkSession None None.

(** A click on the fetch button: the inputs of the form, the clock, and
    how the scraper behaves at that time. *)
Record click : Type := mkClick {
  click_url : string;
  click_max_reviews : Z;
  click_now : Z;
  click_scrape : string -> Z -> attempt (list record)
}.

(** The analysis request of lines 150-153. *)
Definition user_message_template : string :=
  ("以下はGoogleマップのレビューデータです。このデータを分析してください。データには評価（stars）とレビューテキスト（text）が含まれています。"
   ++ String LF (String LF EmptyString))%string.

(** What a run of the data part of the page shows and writes. *)
Record page : Type := mkPage {
  page_summary : SummaryStatistics;
  page_saved_csv : string;
  page_table : DataFrame;
  page_charts : list (Q * nat) * list (Z * nat);
  page_download : string;
  page_analysis : option string
}.

Section Page.

Context {G : Type} `{RandomSource G}.
Variable floatify : string -> option scalar.
Variable repr_float : Q -> string.
Variable str_object : value -> string.
Variable messages_create : string -> message_request -> attempt (list string).
Variable ANTHROPIC_API_KEY : string.
Variable system_prompt_insight_analysis : string.

(** Lines 101-109.  The session is written after the table is built: a
    run that fails leaves it as it was. *)
Definition on_fetch (c : click) (g : G) (ss : session_state)
  : session_state * G * option failure :=
  match click_url c with
  | EmptyString => (ss, g, None)
  | google_maps_url =>
      match click_scrape c google_maps_url (click_max_reviews c) with
      | Failed f => (ss, g, Some f)
      | Done reviews_data =>
          match process_reviews_data floatify (click_now c) g reviews_data with
          | Raise e => (ss, g, Some (PythonError e))
          | Ok (df, g') => (mkSession (Some df) (Some true), g', None)
          end
      end
  end.

(** ['data_loaded' in st.session_state and st.session_state['data_loaded']] *)
Definition data_loaded (ss : session_state) : bool :=
  match ss_data_loaded ss with
  | Some true => true
  | _ => false
  end.

(** Lines 113-154 on the stored table. *)
Definition show_data (df : DataFrame) (ai_clicked : bool) : attempt page :=
  s <~ lift (summary df) ;;
  let saved := to_csv repr_float str_object df in
  shown <~ lift (select_columns df ["review_date"; "stars"; "text"]) ;;
  charts <~ lift (create_graphs df) ;;
  let download := to_csv repr_float str_object df in
  if ai_clicked then
    csv_text <~ lift (csv_data repr_float str_object df) ;;
    let user_message := (user_message_template ++ csv_text)%string in
    analysis_result <~ get_ai_analysis messages_create ANTHROPIC_API_KEY
                         system_prompt_insight_analysis user_message ;;
    Done (mkPage s saved shown charts download (Some analysis_result))
  else Done (mkPage s saved shown charts download None).

(** Lines 112-156: [None] is the hint shown while no data is loaded. *)
Definition show_page (ss : session_state) (ai_clicked : bool)
  : attempt (option page) :=
  if data_loaded ss then
    df <~ lift (match ss_df ss with
                | Some df => Ok df
                | None => Raise (KeyError "df")
                end) ;;
    p <~ show_data df ai_clicked ;;
    Done (Some p)
  else Done None.

(** A session: the clicks on the fetch button, in order. *)
Fixpoint run_session (clicks : list click) (g : G) (ss : session_state)
  : session_state * G :=
  match clicks with
  | [] => (ss, g)
  | c :: rest =>
      let '(ss', g', _) := on_fetch c g ss in
      run_session rest g' ss'
  end.

End Page.

(** ** Saving the prompt and loading it again (lines 163-166 and line 8) *)

Definition squote : ascii := "'"%char.
Definition backslash : ascii := "\"%char.

Definition triple_quote : string :=
  String squote (String squote (String squote EmptyString)).

(** The text written to [prompt.py]. *)
Definition prompt_file (edited_prompt : string) : string :=
  ("system_prompt_insight_analysis = " ++ triple_quote
   ++ edited_prompt ++ triple_quote)%string.

(** The source after two more quotes, if it goes on with two quotes. *)
Definition after_two_quotes (s : string) : option string :=
  match s with
  | String a (String b rest) =>
      if Ascii.eqb a squote && Ascii.eqb b squote then Some rest else None
  | _ => None
  end.

(** The tokenizer of Python inside a triple-quoted string: the token ends
    at the first three quotes in a row, a backslash takes the next
    character with it, and the end of the file inside the string is an
    error.  The result is the raw body and the source after the token. *)
Fixpoint string_token (s : string) (body : string) : option (string * string) :=
  match s with
  | EmptyString => None
  | String a r =>
      if Ascii.eqb a squote then
        match after_two_quotes r with
        | Some rest => Some (body, rest)
        | None => string_token r (snoc body a)
        end
      else if Ascii.eqb a backslash then
        match r with
        | String b r' => string_token r' (snoc (snoc body a) b)
        | EmptyString => None
        end
      else string_token r (snoc body a)
  end.

Definition has_nul (s : string) : bool :=
  string_exists (fun c => Ascii.eqb c "000"%char) s.

Fixpoint strip_prefix (prefix s : string) : option string :=
  match prefix, s with
  | EmptyString, _ => Some s
  | String a p, String b r => if Ascii.eqb a b then strip_prefix p r else None
  | String _ _, EmptyString => None
  end.

(** Where the string literals of Python source end.  The tokenizer is
    in code, in a comment, or in a string literal: after one or two
    opening quotes, inside a one-line string, inside a triple-quoted
    string with the number of closing quotes read so far, or after a
    backslash in either; a line end inside a one-line string breaks it.
    String prefixes make no difference to where a literal ends. *)
Inductive lexer_state : Type :=
| InCode
| InComment
| OneQuote (q : ascii)
| TwoQuotes (q : ascii)
| InString (q : ascii)
| InStringEscape (q : ascii)
| InLongString (q : ascii) (closing : nat)
| InLongEscape (q : ascii)
| Broken.

Definition dquote : ascii := "034"%char.
Definition hash : ascii := "#"%char.

Definition is_quote (c : ascii) : bool :=
  Ascii.eqb c squote || Ascii.eqb c dquote.

Definition code_step (c : ascii) : lexer_state :=
  if is_quote c then OneQuote c
  else if Ascii.eqb c hash then InComment
  else InCode.

Definition lexer_step (st : lexer_state) (c : ascii) : lexer_state :=
  match st with
  | InCode => code_step c
  | InComment => if Ascii.eqb c LF then InCode else InComment
  | OneQuote q =>
      if Ascii.eqb c q then TwoQuotes q
      else if Ascii.eqb c backslash then InStringEscape q
      else if Ascii.eqb c LF then Broken
      else InString q
  | TwoQuotes q => if Ascii.eqb c q then InLongString q 0 else code_step c
  | InString q =>
      if Ascii.eqb c q then InCode
      else if Ascii.eqb c backslash then InStringEscape q
      else if Ascii.eqb c LF then Broken
      else InString q
  | InStringEscape q => InString q
  | InLongString q closing =>
      if Ascii.eqb c q then
        match closing with
        | S (S _) => InCode
        | _ => InLongString q (S closing)
        end
      else if Ascii.eqb c backslash then InLongEscape q
      else InLongString q 0
  | InLongEscape q => InLongString q 0
  | Broken => Broken
  end.

Fixpoint lexer_run (st : lexer_state) (s : string) : lexer_state :=
  match s with
  | EmptyString => st
  | String c r => lexer_run (lexer_step st c) r
  end.

(** The end of the file inside a string literal. *)
Definition unterminated (st : lexer_state) : bool :=
  match st with
  | InCode | InComment | TwoQuotes _ => false
  | _ => true
  end.

(** Replacement fields of f-strings, which may hold string literals of
    their own, are not modelled. *)
Definition has_brace (s : string) : bool :=
  string_exists (fun c => Ascii.eqb c "{"%char) s.

Inductive import_outcome : Type :=
| Imported (value : string)
| Rejected
| NotEvaluated.

Section LoadPrompt.

(** The value of a raw body that holds backslash escapes. *)
Variable decode_escapes : string -> option string.

(** The string a raw body denotes: itself when it holds no backslash. *)
Definition literal_value (raw : string) : option string :=
  if string_exists (fun c => Ascii.eqb c backslash) raw
  then decode_escapes raw
  else Some raw.

(** The scan of [prompt.py] up to the end of the string literal of its
    assignment: the value of the literal and the source text that follows
    it.  This is what the import binds only when nothing follows the
    literal; Python compiles the whole file, see [import_prompt].  A
    source file that holds a null byte is refused; otherwise the source
    is read with its line ends normalised.  Strings stand for the UTF-8
    bytes of the text. *)
Definition load_prompt (file : string) : option (string * string) :=
  if has_nul file then None else
  match strip_prefix ("system_prompt_insight_analysis = " ++ triple_quote)
                     (universal_newlines file) with
  | None => None
  | Some s =>
      match string_token s EmptyString with
      | None => None
      | Some (raw, rest) =>
          match literal_value raw with
          | Some v => Some (v, rest)
          | None => None
          end
      end
  end.

(** What [from prompt import system_prompt_insight_analysis] does with
    the file: it binds the value of the literal when the file is the
    assignment alone; it raises before any statement runs when a string
    literal of the file is not closed ([SyntaxError]; a null byte is a
    [ValueError] before Python 3.12); what follows a closed literal is
    Python source, which this model does not evaluate. *)
Definition import_prompt (file : string) : import_outcome :=
  if has_nul file then Rejected else
  match strip_prefix ("system_prompt_insight_analysis = " ++ triple_quote)
                     (universal_newlines file) with
  | None => NotEvaluated
  | Some s =>
      match string_token s EmptyString with
      | None => Rejected
      | Some (raw, rest) =>
          match literal_value raw with
          | None => Rejected
          | Some v =>
              match rest with
              | EmptyString => Imported v
              | _ =>
                  if has_brace rest then NotEvaluated
                  else if unterminated (lexer_run InCode rest) then Rejected
                  else NotEvaluated
              end
          end
      end
  end.

End LoadPrompt.

(** * Vocabulary of the properties *)

Section Vocabulary.

Context {G : Type} `{RandomSource G}.
Variable floatify : string -> option scalar.
Variable repr_float : Q -> string.
Variable str_object : value -> string.
Variable parse_number : string -> option value.

(** A cell that [to_numeric] accepts. *)
Definition coercible (v : value) : bool :=
  is_ok (convert_numeric floatify 0 v).

(** The record carries a rating that [to_numeric] accepts. *)
Definition rating_coercible (r : record) : Prop :=
  exists v, dict_get "stars" r = Some v /\ coercible v = true.

(** The position a conversion error reports. *)
Definition error_position (e : py_error) : option nat :=
  match e with
  | ValueError _ p | TypeError p => Some p
  | _ => None
  end.

(** A cell of a numeric column. *)
Definition is_numeric (v : value) : bool :=
  match v with
  | VNull | VBool _ | VInt _ | VFloat _ => true
  | _ => false
  end.

(** The offsets of [n] successive calls of [random.randint(0, 730)]. *)
Fixpoint randints (n : nat) (g : G) : list Z * G :=
  match n with
  | O => ([], g)
  | S n' =>
      let (d, g1) := randint 0 730 g in
      let (rest, g2) := randints n' g1 in
      (d :: rest, g2)
  end.

(** The rating column as the constructor builds it. *)
Definition rating_column (rs : list record) : list value :=
  infer_dtype (map (cell_of "stars") rs).

(** The frame a successful call returns, given the converted ratings. *)
Definition built_frame (now : Z) (g : G) (rs : list record)
  (stars : list value) : DataFrame :=
  setitem (setitem (DataFrame_of_records rs) "stars" stars) "review_date"
    (map VTime
       (map (fun d => now - timedelta_days 730 + timedelta_days d)
            (fst (randints (List.length rs) g)))).

(** Two results of a mean that denote the same number, or are both NaN. *)
Definition same_number (a b : option Q) : Prop :=
  match a, b with
  | Some x, Some y => (x == y)%Q
  | None, None => True
  | _, _ => False
  end.


(** Equality and order of histogram entries by their rating. *)
Definition key_eqb (a b : Q * nat) : bool := Qeq_bool (fst a) (fst b).

Definition key_leb (a b : Q * nat) : bool := Qle_bool (fst a) (fst b).

(** The frame [project_for_ai] returns. *)
Definition projected (cs ct : list value) : DataFrame :=
  mkDF (List.length (filter (fun b : bool => b) (map notna ct)))
       [("stars", filter_mask (map notna ct) cs);
        ("text", filter_mask (map notna ct) ct)].

(** The string holds a carriage return. *)
Definition has_cr (s : string) : bool :=
  string_exists (fun c => Ascii.eqb c CR) s.

(** A row that the transfer format carries faithfully: its text is a string
    without carriage return, and its rating prints without carriage return
    to a text that [parse_number] reads back. *)
Definition transferable (st : value * value) : Prop :=
  (exists s, snd st = VStr s /\ has_cr s = false)
  /\ has_cr (csv_cell repr_float str_object (fst st)) = false
  /\ parse_rating parse_number (csv_cell repr_float str_object (fst st))
     = Some (fst st).

(** The two fields of a line of the transfer file. *)
Definition cells_of_pair (st : value * value) : list string :=
  [csv_cell repr_float str_object (fst st);
   csv_cell repr_float str_object (snd st)].

End Vocabulary.

(** No two keys of the list are equal. *)
Fixpoint distinct {A : Type} (eqb : A -> A -> bool) (keys : list A) : Prop :=
  match keys with
  | [] => True
  | k :: rest =>
      (forall k', In k' rest -> eqb k k' = false) /\ distinct eqb rest
  end.

(** One if the key [k] is the key of [x], zero otherwise. *)
Definition indicator {A : Type} (eqb : A -> A -> bool) (x k : A) : nat :=
  if eqb k x then 1%nat else 0%nat.

(** A whole number. *)
Definition is_whole (q : Q) : bool := Qeq_bool q (inject_Z (Qfloor q)).

(** The sum of the magnitudes of the entries. *)
Definition magnitude (l : list Q) : Q := Qsum (map Qabs l).

(** Ratings that float64 adds without rounding: whole numbers whose
    magnitudes add up to less than [2^53], as star ratings are. *)
Definition whole_ratings (xs : list (option Q)) : bool :=
  forallb is_whole (dropna_values xs)
  && negb (Qle_bool (inject_Z (2 ^ 53)) (magnitude (dropna_values xs))).

(** An order of the additions of a float64 sum. *)
Inductive sum_tree : Type :=
| Leaf (q : Q)
| Node (l r : sum_tree).

Fixpoint tree_sum (t : sum_tree) : Q :=
  match t with
  | Leaf q => float64 q
  | Node l r => float_add (tree_sum l) (tree_sum r)
  end.

Fixpoint leaves (t : sum_tree) : list Q :=
  match t with
  | Leaf q => [q]
  | Node l r => leaves l ++ leaves r
  end.

(** The generator of the contract of [random.randint]: a tape of the
    values that the successive calls of [_randbelow] return. *)
Definition tape_randbelow (n : Z) (tape : list Z) : Z * list Z :=
  match tape with
  | [] => (0, [])
  | d :: rest => (d mod n, rest)
  end.

#[export] Instance TapeSource : RandomSource (list Z) := {
  randbelow := tape_randbelow;
  randbelow_range := fun n tape Hn =>
    match tape return 0 <= fst (tape_randbelow n tape) < n with
    | [] => conj (Z.le_refl 0) Hn
    | d :: _ => Z.mod_pos_bound d n Hn
    end
}.

(** Every tape of [n] draws below [m]: the outcomes of [n] calls, each
    as likely as any other when the calls are uniform and independent. *)
Fixpoint tapes (m n : nat) : list (list Z) :=
  match n with
  | O => [[]]
  | S n' =>
      flat_map (fun d => map (cons (Z.of_nat d)) (tapes m n')) (seq 0 m)
  end.

(** The probability of an event when every outcome is equally likely. *)
Definition probability (space : list (list Z)) (event : list Z -> bool) : Q :=
  (inject_Z (Z.of_nat (List.length (filter event space)))
   / inject_Z (Z.of_nat (List.length space)))%Q.

Fixpoint same_draws (a b : list Z) : bool :=
  match a, b with
  | [], [] => true
  | x :: a', y :: b' => (x =? y) && same_draws a' b'
  | _, _ => false
  end.

Definition draw_is (i : nat) (d : Z) (tape : list Z) : bool :=
  match nth_error tape i with
  | Some d' => d' =? d
  | None => false
  end.

(** The offset in days of a review date from the start of the window. *)
Definition offset_of (now : Z) (v : value) : Z :=
  match v with
  | VTime t => (t - (now - timedelta_days 730)) / microseconds_per_day
  | _ => -1
  end.

(** The offsets of the dates of the table that [process_reviews_data]
    builds when the calls of [random.randint] return the draws of the
    tape. *)
Definition offsets_drawn (floatify : string -> option scalar) (now : Z)
  (rs : list record) (tape : list Z) : option (list Z) :=
  match process_reviews_data floatify now tape rs with
  | Ok (df, _) =>
      match getitem df "review_date" with
      | Ok c => Some (map (offset_of now) c)
      | Raise _ => None
      end
  | Raise _ => None
  end.

(** Row [i] of the table gets the offset [d]. *)
Definition row_offset_is (floatify : string -> option scalar) (now : Z)
  (rs : list record) (i : nat) (d : Z) (tape : list Z) : bool :=
  match offsets_drawn floatify now rs tape with
  | Some offsets => draw_is i d offsets
  | None => false
  end.

(** The rows of the table get the offsets [v], in order. *)
Definition offsets_are (floatify : string -> option scalar) (now : Z)
  (rs : list record) (v : list Z) (tape : list Z) : bool :=
  match offsets_drawn floatify now rs tape with
  | Some offsets => same_draws offsets v
  | None => false
  end.

(** * Stand-ins and sample inputs *)

(** A deterministic source of random numbers: a counter. *)
Definition counter_randbelow (n : Z) (g : Z) : Z * Z := (g mod n, g + 1).

#[export] Instance CounterSource : RandomSource Z := {
  randbelow := counter_randbelow;
  randbelow_range := fun n g Hn => Z.mod_pos_bound g n Hn
}.

(** A string parser for [to_numeric]: it accepts decimal integer literals
    and nothing else. *)
Definition integer_literal (s : string) : option scalar :=
  match s with
  | EmptyString => None
  | String "-" EmptyString => None
  | _ =>
      match NilEmpty.int_of_string s with
      | Some d => Some (SInt (Z.of_int d))
      | None => None
      end
  end.

(** Integers print in decimal; a float prints as an exact fraction, another
    object as a fixed tag. *)
Definition fraction_repr (q : Q) : string :=
  (decimal (Qnum q) ++ "/" ++ decimal (Zpos (Qden q)))%string.

Definition tag_object (v : value) : string := "<object>".

Definition integer_number (s : string) : option value :=
  option_map value_of_scalar (integer_literal s).

(** The two records of the scenario of the specification. *)
Definition scenario_records : list record :=
  [ [("stars", VInt 5); ("text", VStr "Great"); ("title", VStr "Cafe X");
     ("categoryName", VStr "Cafe"); ("reviewsCount", VInt 2)];
    [("stars", VInt 3); ("text", VNull); ("title", VStr "Cafe X");
     ("categoryName", VStr "Cafe"); ("reviewsCount", VInt 2)] ].

(** The clock and the generator state of the sample runs. *)
Definition sample_now : Z := 1700000000000000.

Definition sample_seed : Z := 0.

Definition run_sample (rs : list record) : result (DataFrame * Z) :=
  process_reviews_data integer_literal sample_now sample_seed rs.

Definition table_of (rs : list record) : DataFrame :=
  match run_sample rs with
  | Ok (df, _) => df
  | Raise _ => mkDF 0 []
  end.

(** The table the scenario builds. *)
Definition scenario_table : DataFrame :=
  Eval vm_compute in table_of scenario_records.

(** The example of the specification: a rating "N/A" in the second record. *)
Definition records_with_unparsable_rating : list record :=
  [ [("stars", VStr "4"); ("text", VStr "fine")];
    [("stars", VStr "N/A"); ("text", VStr "closed")] ].

(** A rated record and a record whose rating is missing. *)
Definition records_with_missing_rating : list record :=
  [ [("stars", VInt 5); ("text", VStr "Great")];
    [("stars", VNull); ("text", VStr "no stars given")] ].

Definition table_with_missing_rating : DataFrame :=
  Eval vm_compute in table_of records_with_missing_rating.


Definition text_with_crlf : string :=
  String "a" (String CR (String LF (String "b" EmptyString))).

Definition text_with_lf : string :=
  String "a" (String LF (String "b" EmptyString)).

(** A review whose text holds a carriage return and a line feed, and the
    review that differs from it by holding a line feed alone. *)
Definition records_with_crlf : list record :=
  [ [("stars", VInt 5); ("text", VStr text_with_crlf)] ].

Definition records_with_lf : list record :=
  [ [("stars", VInt 5); ("text", VStr text_with_lf)] ].

Definition table_with_crlf : DataFrame :=
  Eval vm_compute in table_of records_with_crlf.

Definition table_with_lf : DataFrame :=
  Eval vm_compute in table_of records_with_lf.



(** The float64 that the literal [0.1] denotes. *)
Definition tenth : Q := 3602879701896397 # 36028797018963968.

Definition record_rated (stars : value) : record :=
  [("stars", stars); ("text", VStr "ok"); ("title", VStr "Cafe X");
   ("categoryName", VStr "Cafe"); ("reviewsCount", VInt 40)].



(** One row rated 5 and thirty-nine rows rated 4. *)
Definition records_with_forty_ratings : list record :=
  record_rated (VInt 5) :: repeat (record_rated (VInt 4)) 39.

Definition table_with_forty_ratings : DataFrame :=
  Eval vm_compute in table_of records_with_forty_ratings.

(** The mean of the ratings 5, missing and 3. *)
Definition sample_mean : Q :=
  Eval vm_compute in
    match nanmean [Some (inject_Z 5); None; Some (inject_Z 3)] with
    | Some m => m
    | None => 0%Q
    end.

(** * Vocabulary of the further properties *)

Definition is_bool (v : value) : bool :=
  match v with VBool _ => true | _ => false end.

(** A column of one numeric dtype: int64, float64 (with NaN) or bool. *)
Definition homogeneous (col : list value) : Prop :=
  Forall (fun v => is_int v = true) col
  \/ Forall (fun v => is_float_or_null v = true) col
  \/ Forall (fun v => is_bool v = true) col.

(** What every table returned by [process_reviews_data] satisfies. *)
Definition built_table (df : DataFrame) : Prop :=
  well_formed df
  /\ (0 < len df)%nat
  /\ (exists stars xs,
        getitem df "stars" = Ok stars
        /\ numeric_view "stars" stars = Ok xs)
  /\ (exists ts, getitem df "review_date" = Ok (map VTime ts)).

(** The session holds no data, or a built table with the flag set. *)
Definition session_ok (ss : session_state) : Prop :=
  match ss_data_loaded ss with
  | None => ss_df ss = None
  | Some b => b = true /\ exists df, ss_df ss = Some df /\ built_table df
  end.

(** The same ratings with the same counts, in the same order. *)
Definition same_histogram (h1 h2 : list (Q * nat)) : Prop :=
  Forall2 (fun a b => (fst a == fst b)%Q /\ snd a = snd b) h1 h2.

Definition has_backslash (s : string) : bool :=
  string_exists (fun c => Ascii.eqb c backslash) s.

(** Three quotes in a row somewhere in the string. *)
Fixpoint has_triple_quote (s : string) : bool :=
  match s with
  | EmptyString => false
  | String a r =>
      (Ascii.eqb a squote
       && match after_two_quotes r with Some _ => true | None => false end)
      || has_triple_quote r
  end.

Fixpoint last_char (s : string) : option ascii :=
  match s with
  | EmptyString => None
  | String a EmptyString => Some a
  | String _ r => last_char r
  end.

Definition ends_with_quote (s : string) : bool :=
  match last_char s with
  | Some c => Ascii.eqb c squote
  | None => false
  end.

(** A prompt that the string literal of [prompt.py] holds as it is. *)
Definition plain_prompt (p : string) : bool :=
  negb (has_backslash p) && negb (has_triple_quote p)
  && negb (ends_with_quote p).

(** A character that opens no string literal and no comment. *)
Definition plain_char (c : ascii) : bool :=
  negb (is_quote c || Ascii.eqb c hash || Ascii.eqb c backslash
        || Ascii.eqb c "{"%char || Ascii.eqb c CR || Ascii.eqb c "000"%char).

(** Text without quote, hash, backslash, brace, carriage return and null
    character. *)
Fixpoint plain_code (s : string) : bool :=
  match s with
  | EmptyString => true
  | String c r => plain_char c && plain_code r
  end.

(** Stand-ins for the backends: a scraper client that returns a run and
    the scenario records whatever is asked, one that returns more items
    than asked for, and a model that answers with one block. *)
Definition sample_actor_call (actor : string) (input : value)
  : attempt record :=
  Done [("id", VStr "run-1"); ("defaultDatasetId", VStr "dataset-1")].

Definition sample_iterate_items (dataset_id : value) : attempt (list record) :=
  Done scenario_records.


Definition sample_messages_create (api_key : string) (r : message_request)
  : attempt (list string) :=
  Done ["analysis"].


Definition sample_decode_escapes (raw : string) : option string := None.

(** * Properties *)

(** ** The error monad *)

Lemma bind_ok_inv :
  forall (A B : Type) (m : result A) (k : A -> result B) (b : B),
    bind m k = Ok b -> exists a, m = Ok a /\ k a = Ok b.
Proof.
  intros A B [a | e] k b Hb; simpl in Hb.
  - exists a. split; [reflexivity | exact Hb].
  - discriminate.
Qed.

Ltac bind_inv H :=
  let a := fresh "a" in
  let Ha := fresh "Ha" in
  apply bind_ok_inv in H; destruct H as [a [Ha H]].

(** ** Columns of a frame *)

Lemma string_eqb_refl : forall s : string, String.eqb s s = true.
Proof. intro s. apply String.eqb_eq. reflexivity. Qed.

Lemma string_eqb_neq : forall s t : string, s <> t -> String.eqb s t = false.
Proof. intros s t Hne. apply String.eqb_neq. exact Hne. Qed.

Lemma find_column_replace_same :
  forall k c cols, find_column k (replace_column k c cols) = Some c.
Proof.
  intros k c cols. induction cols as [| [k' c'] rest IH]; simpl.
  - rewrite string_eqb_refl. reflexivity.
  - destruct (String.eqb k k') eqn:E; simpl; rewrite E.
    + reflexivity.
    + exact IH.
Qed.

Lemma find_column_replace_other :
  forall k k' c cols,
    k' <> k ->
    find_column k' (replace_column k c cols) = find_column k' cols.
Proof.
  intros k k' c cols Hne. induction cols as [| [k0 c0] rest IH]; simpl.
  - rewrite (string_eqb_neq _ _ Hne). reflexivity.
  - destruct (String.eqb k k0) eqn:E; simpl.
    + apply String.eqb_eq in E. subst k0.
      rewrite (string_eqb_neq _ _ Hne). reflexivity.
    + destruct (String.eqb k' k0); [reflexivity | exact IH].
Qed.

Lemma replace_column_labels :
  forall k c cols x,
    In x (map fst cols) -> In x (map fst (replace_column k c cols)).
Proof.
  intros k c cols x. induction cols as [| [k0 c0] rest IH]; simpl.
  - intros [].
  - intros [Hx | Hx]; destruct (String.eqb k k0); simpl; auto.
Qed.

Lemma replace_column_forall :
  forall (P : string * list value -> Prop) k c cols,
    (forall k0, P (k0, c)) ->
    Forall P cols -> Forall P (replace_column k c cols).
Proof.
  intros P k c cols Hc Hall. induction Hall as [| [k0 c0] rest H0 Hrest IH];
    simpl.
  - constructor; [apply Hc | constructor].
  - destruct (String.eqb k k0).
    + constructor; [apply Hc | exact Hrest].
    + constructor; [exact H0 | exact IH].
Qed.

Lemma find_column_in_labels :
  forall k cols, In k (map fst cols) -> exists c, find_column k cols = Some c.
Proof.
  intros k cols. induction cols as [| [k0 c0] rest IH]; simpl.
  - intros [].
  - intros [Hk | Hk].
    + subst k0. rewrite string_eqb_refl. eauto.
    + destruct (String.eqb k k0); eauto.
Qed.

Lemma find_column_some_in :
  forall k cols c, find_column k cols = Some c -> In (k, c) cols.
Proof.
  intros k cols c. induction cols as [| [k0 c0] rest IH]; simpl.
  - discriminate.
  - destruct (String.eqb k k0) eqn:E.
    + intro Hc. injection Hc as ->. apply String.eqb_eq in E. subst k0.
      left. reflexivity.
    + intro Hc. right. apply IH. exact Hc.
Qed.

Lemma find_column_tabulate :
  forall (f : string -> list value) k names,
    In k names ->
    find_column k (map (fun x => (x, f x)) names) = Some (f k).
Proof.
  intros f k names. induction names as [| n rest IH]; simpl.
  - intros [].
  - intros Hin. destruct (String.eqb k n) eqn:E.
    + apply String.eqb_eq in E. subst n. reflexivity.
    + destruct Hin as [Hn | Hn].
      * subst n. rewrite string_eqb_refl in E. discriminate.
      * apply IH. exact Hn.
Qed.

Lemma find_column_tabulate_none :
  forall (f : string -> list value) k names,
    ~ In k names ->
    find_column k (map (fun x => (x, f x)) names) = None.
Proof.
  intros f k names. induction names as [| n rest IH]; simpl.
  - reflexivity.
  - intros Hnin. destruct (String.eqb k n) eqn:E.
    + apply String.eqb_eq in E. subst n. exfalso. apply Hnin. left. reflexivity.
    + apply IH. intro Hin. apply Hnin. right. exact Hin.
Qed.

(** ** Column labels of the constructor *)

Lemma existsb_eqb_in :
  forall k acc, existsb (String.eqb k) acc = true <-> In k acc.
Proof.
  intros k acc. rewrite existsb_exists. split.
  - intros [x [Hin Heq]]. apply String.eqb_eq in Heq. subst x. exact Hin.
  - intro Hin. exists k. split; [exact Hin | apply string_eqb_refl].
Qed.

Lemma add_key_in :
  forall acc k x, In x (add_key acc k) <-> In x acc \/ x = k.
Proof.
  intros acc k x. unfold add_key.
  destruct (existsb (String.eqb k) acc) eqn:E.
  - apply existsb_eqb_in in E. split.
    + intro Hx. left. exact Hx.
    + intros [Hx | Hx]; [exact Hx | subst x; exact E].
  - rewrite in_app_iff. simpl. split.
    + intros [Hx | [Hx | []]]; [left; exact Hx | right; symmetry; exact Hx].
    + intros [Hx | Hx]; [left; exact Hx | right; left; symmetry; exact Hx].
Qed.

Lemma fold_add_key_in :
  forall ks acc x, In x (fold_left add_key ks acc) <-> In x acc \/ In x ks.
Proof.
  induction ks as [| k rest IH]; intros acc x; simpl.
  - tauto.
  - rewrite IH. rewrite add_key_in. split.
    + intros [[Hx | Hx] | Hx]; auto.
    + intros [Hx | [Hx | Hx]]; auto.
Qed.

Lemma fold_records_in :
  forall rs acc x,
    In x (fold_left (fun a r => fold_left add_key (dict_keys r) a) rs acc)
    <-> In x acc \/ exists r, In r rs /\ In x (dict_keys r).
Proof.
  induction rs as [| r rest IH]; intros acc x; simpl.
  - split; [auto | intros [Hx | [r [[] _]]]; exact Hx].
  - rewrite IH. rewrite fold_add_key_in. split.
    + intros [[Hx | Hx] | [r' [Hr' Hx]]]; eauto.
    + intros [Hx | [r' [[Hr' | Hr'] Hx]]]; subst; eauto.
Qed.

Lemma column_names_in :
  forall rs x,
    In x (column_names rs) <-> exists r, In r rs /\ In x (dict_keys r).
Proof.
  intros rs x. unfold column_names. rewrite fold_records_in. simpl. tauto.
Qed.

Lemma dict_get_some_key :
  forall k r v, dict_get k r = Some v -> In k (dict_keys r).
Proof.
  intros k r v. induction r as [| [k0 v0] rest IH]; simpl.
  - discriminate.
  - destruct (String.eqb k k0) eqn:E.
    + intros _. apply String.eqb_eq in E. left. symmetry. exact E.
    + intro Hg. right. apply IH. exact Hg.
Qed.

Lemma dict_get_none_key :
  forall k r, dict_get k r = None -> ~ In k (dict_keys r).
Proof.
  intros k r. induction r as [| [k0 v0] rest IH]; simpl.
  - intros _ [].
  - destruct (String.eqb k k0) eqn:E.
    + discriminate.
    + intros Hg [Hk | Hk].
      * subst k0. rewrite string_eqb_refl in E. discriminate.
      * exact (IH Hg Hk).
Qed.

(** ** Dtype inference *)

Lemma infer_dtype_cases :
  forall col,
    infer_dtype col = col
    \/ (infer_dtype col = map to_float col /\ forallb is_floatish col = true).
Proof.
  intro col. unfold infer_dtype.
  destruct (forallb is_int col); [left; reflexivity |].
  destruct (forallb is_floatish col); [right; split; reflexivity |].
  left. reflexivity.
Qed.

Lemma infer_dtype_length :
  forall col, List.length (infer_dtype col) = List.length col.
Proof.
  intro col. destruct (infer_dtype_cases col) as [E | [E _]]; rewrite E.
  - reflexivity.
  - apply length_map.
Qed.

Lemma infer_dtype_nth :
  forall col i v,
    nth_error col i = Some v ->
    nth_error (infer_dtype col) i = Some v
    \/ nth_error (infer_dtype col) i = Some (to_float v).
Proof.
  intros col i v Hv. destruct (infer_dtype_cases col) as [E | [E _]]; rewrite E.
  - left. exact Hv.
  - right. rewrite nth_error_map, Hv. reflexivity.
Qed.

Section PipelineFacts.

Context {G : Type} `{RandomSource G}.
Variable floatify : string -> option scalar.

#[local] Abbreviation convert_numeric := (convert_numeric floatify).
#[local] Abbreviation maybe_convert_numeric := (maybe_convert_numeric floatify).
#[local] Abbreviation to_numeric := (to_numeric floatify).
#[local] Abbreviation process_reviews_data := (process_reviews_data floatify).

Lemma convert_numeric_ok_any_pos :
  forall p q v x, convert_numeric p v = Ok x -> convert_numeric q v = Ok x.
Proof.
  intros p q v x. destruct v as [| b | z | f | s | l | l | t]; simpl;
    try (intro Hx; exact Hx); try discriminate.
  - destruct s as [| c s']; [intro Hx; exact Hx |].
    destruct (floatify (String c s')); [intro Hx; exact Hx | discriminate].
  - destruct l; [intro Hx; exact Hx | discriminate].
  - destruct l; [intro Hx; exact Hx | discriminate].
Qed.

Lemma convert_numeric_raise_position :
  forall p v e, convert_numeric p v = Raise e -> error_position e = Some p.
Proof.
  intros p v e. destruct v as [| b | z | f | s | l | l | t]; simpl;
    try discriminate.
  - destruct s as [| c s']; [discriminate |].
    destruct (floatify (String c s')); [discriminate |].
    intro He. injection He as <-. reflexivity.
  - destruct l; [discriminate |]. intro He. injection He as <-. reflexivity.
  - destruct l; [discriminate |]. intro He. injection He as <-. reflexivity.
  - intro He. injection He as <-. reflexivity.
Qed.

Lemma coercible_any_pos :
  forall p v, coercible floatify v = true -> exists x, convert_numeric p v = Ok x.
Proof.
  intros p v Hv. unfold coercible in Hv.
  destruct (convert_numeric 0 v) as [x | e] eqn:E; [| discriminate].
  exists x. apply (convert_numeric_ok_any_pos 0). exact E.
Qed.

Lemma not_coercible_any_pos :
  forall p v, coercible floatify v = false -> exists e, convert_numeric p v = Raise e.
Proof.
  intros p v Hv. destruct (convert_numeric p v) as [x | e] eqn:E.
  - apply (convert_numeric_ok_any_pos p 0) in E. unfold coercible in Hv.
    rewrite E in Hv. discriminate.
  - exists e. reflexivity.
Qed.

Lemma floatish_coercible :
  forall v, is_floatish v = true -> coercible floatify v = true.
Proof. intros [| b | z | f | s | l | l | t]; simpl; auto; discriminate. Qed.

Lemma to_float_coercible :
  forall v, coercible floatify v = true -> coercible floatify (to_float v) = true.
Proof.
  intros [| b | z | f | s | l | l | t]; simpl; auto.
Qed.

Lemma infer_dtype_coercible :
  forall col,
    Forall (fun v => coercible floatify v = true) col ->
    Forall (fun v => coercible floatify v = true) (infer_dtype col).
Proof.
  intros col Hall. destruct (infer_dtype_cases col) as [E | [E _]]; rewrite E.
  - exact Hall.
  - apply Forall_map. eapply Forall_impl; [| exact Hall].
    intros v Hv. apply to_float_coercible. exact Hv.
Qed.

(** A column with a cell that is not coercible floatify is an object column: the
    constructor leaves it as it is. *)
Lemma infer_dtype_not_coercible :
  forall col,
    Exists (fun v => coercible floatify v = false) col -> infer_dtype col = col.
Proof.
  intros col Hex. destruct (infer_dtype_cases col) as [E | [_ Hf]];
    [exact E |].
  exfalso. apply Exists_exists in Hex. destruct Hex as [v [Hin Hv]].
  rewrite forallb_forall in Hf. specialize (Hf v Hin).
  apply floatish_coercible in Hf. rewrite Hf in Hv. discriminate.
Qed.

(** ** [to_numeric] *)

Lemma maybe_convert_numeric_ok :
  forall col pos,
    Forall (fun v => coercible floatify v = true) col ->
    exists xs,
      maybe_convert_numeric pos col = Ok xs
      /\ Forall2 (fun v x => convert_numeric 0 v = Ok x) col xs.
Proof.
  induction col as [| v rest IH]; intros pos Hall; simpl.
  - exists []. split; [reflexivity | constructor].
  - inversion Hall as [| v' rest' Hv Hrest]; subst.
    destruct (coercible_any_pos pos v Hv) as [x Hx].
    destruct (IH (S pos) Hrest) as [xs [Hxs Hrel]].
    exists (x :: xs). rewrite Hx, Hxs. simpl. split; [reflexivity |].
    constructor; [| exact Hrel].
    apply (convert_numeric_ok_any_pos pos). exact Hx.
Qed.

Lemma maybe_convert_numeric_ok_inv :
  forall col pos xs,
    maybe_convert_numeric pos col = Ok xs ->
    Forall2 (fun v x => convert_numeric 0 v = Ok x) col xs.
Proof.
  induction col as [| v rest IH]; intros pos xs Hxs; simpl in Hxs.
  - injection Hxs as <-. constructor.
  - bind_inv Hxs. bind_inv Hxs. injection Hxs as <-.
    constructor; [| eapply IH; eassumption].
    apply (convert_numeric_ok_any_pos pos). assumption.
Qed.

(** The error of [to_numeric] is the one of the first cell that does not
    convert, and it carries the position of that cell. *)
Lemma maybe_convert_numeric_raise :
  forall col pos i v,
    nth_error col i = Some v ->
    coercible floatify v = false ->
    exists p w e,
      (p <= i)%nat
      /\ nth_error col p = Some w
      /\ coercible floatify w = false
      /\ convert_numeric (pos + p) w = Raise e
      /\ maybe_convert_numeric pos col = Raise e
      /\ (forall j u, (j < p)%nat -> nth_error col j = Some u ->
                      coercible floatify u = true).
Proof.
  induction col as [| v0 rest IH]; intros pos i v Hnth Hv.
  - destruct i; discriminate.
  - simpl. destruct (coercible floatify v0) eqn:Hv0.
    + destruct i as [| i'].
      * simpl in Hnth. injection Hnth as ->. rewrite Hv in Hv0. discriminate.
      * simpl in Hnth.
        destruct (IH (S pos) i' v Hnth Hv)
          as [p [w [e [Hle [Hw [Hcw [Hconv [Hraise Hbefore]]]]]]]].
        exists (S p), w, e.
        destruct (coercible_any_pos pos v0 Hv0) as [x Hx].
        rewrite Hx, Hraise. simpl.
        replace (pos + S p)%nat with (S pos + p)%nat by lia.
        repeat split; try assumption; try lia.
        intros j u Hj Hu. destruct j as [| j'].
        -- simpl in Hu. injection Hu as <-. exact Hv0.
        -- simpl in Hu. apply (Hbefore j'); [lia | exact Hu].
    + destruct (not_coercible_any_pos pos v0 Hv0) as [e He].
      exists 0%nat, v0, e. rewrite He. simpl.
      replace (pos + 0)%nat with pos by lia.
      repeat split; try assumption; try reflexivity; try lia.
Qed.

Lemma unify_numeric_length :
  forall col, List.length (unify_numeric col) = List.length col.
Proof.
  intro col. unfold unify_numeric.
  destruct (existsb is_float_or_null col); [apply length_map |].
  destruct (existsb is_int col); [apply length_map | reflexivity].
Qed.

Lemma to_numeric_length :
  forall col xs, to_numeric col = Ok xs -> List.length xs = List.length col.
Proof.
  intros col xs Hxs. unfold to_numeric in Hxs. bind_inv Hxs.
  injection Hxs as <-. rewrite unify_numeric_length.
  apply maybe_convert_numeric_ok_inv in Ha.
  symmetry. eapply Forall2_length. exact Ha.
Qed.

Lemma to_numeric_ok :
  forall col,
    Forall (fun v => coercible floatify v = true) col ->
    exists xs, to_numeric col = Ok xs.
Proof.
  intros col Hall. destruct (maybe_convert_numeric_ok col 0 Hall) as [xs [Hxs _]].
  exists (unify_numeric xs). unfold to_numeric. rewrite Hxs. reflexivity.
Qed.

(** ** The random dates *)

Lemma randint_range :
  forall a b g, a <= b -> a <= fst (randint a b g) <= b.
Proof.
  intros a b g Hab. unfold randint.
  pose proof (randbelow_range (b - a + 1) g) as Hr.
  destruct (randbelow (b - a + 1) g) as [k g']. simpl in *. lia.
Qed.

Lemma random_dates_randints :
  forall n start g,
    random_dates n start g
    = (map (fun d => start + timedelta_days d) (fst (randints n g)),
       snd (randints n g)).
Proof.
  induction n as [| n' IH]; intros start g; simpl.
  - reflexivity.
  - destruct (randint 0 730 g) as [d g1]. rewrite IH.
    destruct (randints n' g1) as [rest g2]. reflexivity.
Qed.

Lemma randints_length :
  forall n g, List.length (fst (randints n g)) = n.
Proof.
  induction n as [| n' IH]; intro g; simpl.
  - reflexivity.
  - destruct (randint 0 730 g) as [d g1]. specialize (IH g1).
    destruct (randints n' g1) as [rest g2]. simpl in *. lia.
Qed.

Lemma randints_range :
  forall n g, Forall (fun d => 0 <= d <= 730) (fst (randints n g)).
Proof.
  induction n as [| n' IH]; intro g; simpl.
  - constructor.
  - pose proof (randint_range 0 730 g) as Hd.
    destruct (randint 0 730 g) as [d g1]. specialize (IH g1).
    destruct (randints n' g1) as [rest g2]. simpl in *.
    constructor; [lia | exact IH].
Qed.

(** ** The shape of a call of [process_reviews_data] *)

Lemma getitem_constructor :
  forall rs k,
    In k (column_names rs) ->
    getitem (DataFrame_of_records rs) k
    = Ok (infer_dtype (map (cell_of k) rs)).
Proof.
  intros rs k Hin. unfold getitem, DataFrame_of_records. simpl.
  rewrite (find_column_tabulate
             (fun k => infer_dtype (map (cell_of k) rs)) k _ Hin).
  reflexivity.
Qed.

Lemma getitem_constructor_missing :
  forall rs k,
    ~ In k (column_names rs) ->
    getitem (DataFrame_of_records rs) k = Raise (KeyError k).
Proof.
  intros rs k Hnin. unfold getitem, DataFrame_of_records. simpl.
  rewrite (find_column_tabulate_none
             (fun k => infer_dtype (map (cell_of k) rs)) k _ Hnin).
  reflexivity.
Qed.

Lemma process_reviews_data_ok :
  forall now g rs stars,
    In "stars" (column_names rs) ->
    to_numeric (rating_column rs) = Ok stars ->
    process_reviews_data now g rs
    = Ok (built_frame now g rs stars, snd (randints (List.length rs) g)).
Proof.
  intros now g rs stars Hin Hnum. unfold process_reviews_data.
  rewrite (getitem_constructor rs "stars" Hin). simpl.
  fold (rating_column rs). rewrite Hnum. simpl.
  unfold len. simpl. rewrite random_dates_randints. reflexivity.
Qed.

Lemma process_reviews_data_ok_inv :
  forall now g rs df g',
    process_reviews_data now g rs = Ok (df, g') ->
    exists stars,
      In "stars" (column_names rs)
      /\ to_numeric (rating_column rs) = Ok stars
      /\ df = built_frame now g rs stars
      /\ g' = snd (randints (List.length rs) g).
Proof.
  intros now g rs df g' Hrun.
  destruct (in_dec string_dec "stars" (column_names rs)) as [Hin | Hnin].
  - destruct (to_numeric (rating_column rs)) as [stars | e] eqn:Hnum.
    + rewrite (process_reviews_data_ok now g rs stars Hin Hnum) in Hrun.
      injection Hrun as <- <-. exists stars. repeat split; assumption.
    + unfold process_reviews_data in Hrun.
      rewrite (getitem_constructor rs "stars" Hin) in Hrun. simpl in Hrun.
      fold (rating_column rs) in Hrun. rewrite Hnum in Hrun. discriminate.
  - unfold process_reviews_data in Hrun.
    rewrite (getitem_constructor_missing rs "stars" Hnin) in Hrun.
    discriminate.
Qed.

End PipelineFacts.

(** ** The table builder *)

Section TableBuilder.

Context {G : Type} `{RandomSource G}.
Variable floatify : string -> option scalar.

Lemma cell_of_get :
  forall k r v, dict_get k r = Some v -> cell_of k r = v.
Proof. intros k r v Hg. unfold cell_of. rewrite Hg. reflexivity. Qed.

Lemma built_frame_well_formed :
  forall now (g : G) rs stars,
    List.length stars = List.length rs ->
    well_formed (built_frame now g rs stars).
Proof.
  intros now g rs stars Hlen. unfold well_formed, built_frame. simpl.
  apply replace_column_forall.
  - intros k0. simpl. rewrite !length_map. apply randints_length.
  - apply replace_column_forall.
    + intros k0. simpl. exact Hlen.
    + apply Forall_map. apply Forall_forall. intros k _. simpl.
      rewrite infer_dtype_length. apply length_map.
Qed.

Lemma built_frame_labels :
  forall now (g : G) rs stars k,
    In k (column_names rs) -> In k (column_labels (built_frame now g rs stars)).
Proof.
  intros now g rs stars k Hin. unfold column_labels, built_frame. simpl.
  apply replace_column_labels. apply replace_column_labels.
  rewrite map_map. simpl. rewrite map_id. exact Hin.
Qed.

Lemma built_frame_other_column :
  forall now (g : G) rs stars k,
    k <> "stars" -> k <> "review_date" ->
    getitem (built_frame now g rs stars) k
    = getitem (DataFrame_of_records rs) k.
Proof.
  intros now g rs stars k Hs Hd. unfold getitem, built_frame. simpl.
  rewrite find_column_replace_other by exact Hd.
  rewrite find_column_replace_other by exact Hs.
  reflexivity.
Qed.

Lemma built_frame_stars :
  forall now (g : G) rs stars,
    getitem (built_frame now g rs stars) "stars" = Ok stars.
Proof.
  intros now g rs stars. unfold getitem, built_frame. simpl.
  rewrite find_column_replace_other by discriminate.
  rewrite find_column_replace_same. reflexivity.
Qed.

Lemma built_frame_review_date :
  forall now (g : G) rs stars,
    getitem (built_frame now g rs stars) "review_date"
    = Ok (map VTime
            (map (fun d => now - timedelta_days 730 + timedelta_days d)
                 (fst (randints (List.length rs) g)))).
Proof.
  intros now g rs stars. unfold getitem, built_frame. simpl.
  rewrite find_column_replace_same. reflexivity.
Qed.

(** C1: for a non-empty sequence of records whose ratings are all coercible
    to numeric, [process_reviews_data] returns a table with one row per
    record, in which every field of every record is a column; outside the
    rating and the date column a cell holds the record's value, promoted to
    float64 where the constructor makes the column float64. *)
Theorem C1_row_count_and_fields_preserved :
  forall (now : Z) (g : G) (rs : list record),
    rs <> [] ->
    Forall (rating_coercible floatify) rs ->
    exists df g',
      process_reviews_data floatify now g rs = Ok (df, g')
      /\ len df = List.length rs
      /\ well_formed df
      /\ (forall r k, In r rs -> In k (dict_keys r) ->
                      In k (column_labels df))
      /\ (forall i r k v,
             nth_error rs i = Some r -> dict_get k r = Some v ->
             k <> "stars" -> k <> "review_date" ->
             exists c,
               getitem df k = Ok c
               /\ (nth_error c i = Some v
                   \/ nth_error c i = Some (to_float v))).
Proof.
  intros now g rs Hne Hall.
  assert (Hstars : In "stars" (column_names rs)).
  { destruct rs as [| r0 rest]; [contradiction |].
    inversion Hall as [| r0' rest' [v [Hv _]] _]; subst.
    apply column_names_in. exists r0. split; [left; reflexivity |].
    eapply dict_get_some_key. exact Hv. }
  assert (Hcol : Forall (fun v => coercible floatify v = true)
                        (rating_column rs)).
  { apply infer_dtype_coercible. apply Forall_map.
    eapply Forall_impl; [| exact Hall].
    intros r [v [Hv Hc]]. rewrite (cell_of_get _ _ _ Hv). exact Hc. }
  destruct (to_numeric_ok floatify _ Hcol) as [stars Hnum].
  exists (built_frame now g rs stars), (snd (randints (List.length rs) g)).
  assert (Hlen : List.length stars = List.length rs).
  { rewrite (to_numeric_length floatify _ _ Hnum). unfold rating_column.
    rewrite infer_dtype_length. apply length_map. }
  split; [apply process_reviews_data_ok; assumption |].
  split; [reflexivity |].
  split; [apply built_frame_well_formed; exact Hlen |].
  split.
  - intros r k Hr Hk. apply built_frame_labels. apply column_names_in.
    exists r. split; assumption.
  - intros i r k v Hi Hv Hs Hd.
    exists (infer_dtype (map (cell_of k) rs)). split.
    + rewrite built_frame_other_column by assumption.
      apply getitem_constructor. apply column_names_in. exists r.
      split; [eapply nth_error_In; exact Hi |].
      eapply dict_get_some_key. exact Hv.
    + apply infer_dtype_nth. rewrite nth_error_map, Hi. simpl.
      rewrite (cell_of_get _ _ _ Hv). reflexivity.
Qed.

(** C2: when some record has a rating that cannot be parsed as numeric,
    [process_reviews_data] raises the conversion error of the first such
    record, the error carries the index of that record, and no table is
    returned. *)
Theorem C2_unparsable_rating_raises_with_index :
  forall (now : Z) (g : G) (rs : list record) (i : nat) (r : record)
         (v : value),
    nth_error rs i = Some r ->
    dict_get "stars" r = Some v ->
    coercible floatify v = false ->
    exists p r' e,
      (p <= i)%nat
      /\ nth_error rs p = Some r'
      /\ coercible floatify (cell_of "stars" r') = false
      /\ convert_numeric floatify p (cell_of "stars" r') = Raise e
      /\ process_reviews_data floatify now g rs = Raise e
      /\ error_position e = Some p
      /\ (forall j r'', (j < p)%nat -> nth_error rs j = Some r'' ->
                        coercible floatify (cell_of "stars" r'') = true).
Proof.
  intros now g rs i r v Hi Hv Hbad.
  assert (Hstars : In "stars" (column_names rs)).
  { apply column_names_in. exists r. split.
    - eapply nth_error_In. exact Hi.
    - eapply dict_get_some_key. exact Hv. }
  assert (Hcell : nth_error (map (cell_of "stars") rs) i = Some v).
  { rewrite nth_error_map, Hi. simpl. rewrite (cell_of_get _ _ _ Hv).
    reflexivity. }
  assert (Hobj : rating_column rs = map (cell_of "stars") rs).
  { apply (infer_dtype_not_coercible floatify). apply Exists_exists.
    exists v. split; [eapply nth_error_In; exact Hcell | exact Hbad]. }
  destruct (maybe_convert_numeric_raise floatify _ 0 i v Hcell Hbad)
    as [p [w [e [Hle [Hw [Hcw [Hconv [Hraise Hbefore]]]]]]]].
  rewrite nth_error_map in Hw.
  destruct (nth_error rs p) as [r' |] eqn:Hp; [| discriminate].
  simpl in Hw. injection Hw as Hw. subst w.
  exists p, r', e. simpl in Hconv.
  split; [exact Hle |]. split; [exact Hp |]. split; [exact Hcw |].
  split; [exact Hconv |]. split.
  - unfold process_reviews_data.
    rewrite (getitem_constructor rs "stars" Hstars). simpl.
    fold (rating_column rs). rewrite Hobj. unfold to_numeric.
    rewrite Hraise. reflexivity.
  - split; [eapply convert_numeric_raise_position; exact Hconv |].
    intros j r'' Hj Hr''. apply (Hbefore j); [exact Hj |].
    rewrite nth_error_map, Hr''. reflexivity.
Qed.

(** C3: on the empty input sequence [process_reviews_data] does not return
    an empty table: the frame built from no record has no [stars] column
    and the lookup of line 49 raises [KeyError]. *)
Theorem C3_empty_input_raises_KeyError :
  forall (now : Z) (g : G),
    process_reviews_data floatify now g [] = Raise (KeyError "stars").
Proof. intros now g. reflexivity. Qed.

End TableBuilder.

Lemma C1_witness :
  exists df g',
    process_reviews_data integer_literal sample_now sample_seed scenario_records
    = Ok (df, g')
    /\ len df = List.length scenario_records
    /\ well_formed df
    /\ (forall r k, In r scenario_records -> In k (dict_keys r) ->
                    In k (column_labels df))
    /\ (forall i r k v,
           nth_error scenario_records i = Some r -> dict_get k r = Some v ->
           k <> "stars" -> k <> "review_date" ->
           exists c,
             getitem df k = Ok c
             /\ (nth_error c i = Some v
                 \/ nth_error c i = Some (to_float v))).
Proof.
  apply (C1_row_count_and_fields_preserved integer_literal
           sample_now sample_seed scenario_records).
  - discriminate.
  - repeat constructor; eexists; split; reflexivity.
Defined.

Lemma C2_witness :
  exists p r' e,
    (p <= 1)%nat
    /\ nth_error records_with_unparsable_rating p = Some r'
    /\ coercible integer_literal (cell_of "stars" r') = false
    /\ convert_numeric integer_literal p (cell_of "stars" r') = Raise e
    /\ process_reviews_data integer_literal sample_now sample_seed
         records_with_unparsable_rating = Raise e
    /\ error_position e = Some p
    /\ (forall j r'', (j < p)%nat ->
                      nth_error records_with_unparsable_rating j = Some r'' ->
                      coercible integer_literal (cell_of "stars" r'') = true).
Proof.
  apply (C2_unparsable_rating_raises_with_index integer_literal
           sample_now sample_seed records_with_unparsable_rating 1
           [("stars", VStr "N/A"); ("text", VStr "closed")] (VStr "N/A")).
  - reflexivity.
  - reflexivity.
  - reflexivity.
Defined.

Example unparsable_rating_run :
  process_reviews_data integer_literal sample_now sample_seed
    records_with_unparsable_rating
  = Raise (ValueError "N/A" 1).
Proof. reflexivity. Qed.

(** ** The synthetic dates *)

Section SyntheticDates.

Context {G : Type} `{RandomSource G}.
Variable floatify : string -> option scalar.

Lemma offset_in_window :
  forall now d,
    0 <= d <= 730 ->
    now - timedelta_days 730 <= now - timedelta_days 730 + timedelta_days d
    /\ now - timedelta_days 730 + timedelta_days d <= now.
Proof.
  intros now d Hd. unfold timedelta_days, microseconds_per_day. lia.
Qed.

End SyntheticDates.

(** *** Counting tapes *)

Lemma length_flat_map_const :
  forall (A B : Type) (f : A -> list B) (l : list A) (c : nat),
    (forall x, In x l -> List.length (f x) = c) ->
    List.length (flat_map f l) = (List.length l * c)%nat.
Proof.
  intros A B f l c Hc. induction l as [| x l IH]; simpl.
  - reflexivity.
  - rewrite length_app. rewrite (Hc x) by (left; reflexivity).
    rewrite IH by (intros y Hy; apply Hc; right; exact Hy). reflexivity.
Qed.

Lemma filter_flat_map :
  forall (A B : Type) (p : B -> bool) (f : A -> list B) (l : list A),
    filter p (flat_map f l) = flat_map (fun x => filter p (f x)) l.
Proof.
  intros A B p f l. induction l as [| x l IH]; simpl.
  - reflexivity.
  - rewrite filter_app. rewrite IH. reflexivity.
Qed.

Lemma filter_map_cons :
  forall (p : list Z -> bool) (d : Z) (l : list (list Z)),
    filter p (map (cons d) l) = map (cons d) (filter (fun t => p (d :: t)) l).
Proof.
  intros p d l. induction l as [| t l IH]; simpl.
  - reflexivity.
  - destruct (p (d :: t)); simpl; rewrite IH; reflexivity.
Qed.

Lemma tapes_length :
  forall m n, List.length (tapes m n) = (m ^ n)%nat.
Proof.
  intros m n. induction n as [| n IH]; simpl.
  - reflexivity.
  - rewrite (length_flat_map_const _ _ _ _ (m ^ n)%nat).
    + rewrite length_seq. reflexivity.
    + intros d _. rewrite length_map. exact IH.
Qed.

Lemma tapes_in :
  forall m n t,
    In t (tapes m n)
    <-> List.length t = n /\ Forall (fun d => 0 <= d < Z.of_nat m) t.
Proof.
  intros m n. induction n as [| n IH]; intro t; simpl.
  - split.
    + intros [<- | []]. split; [reflexivity | constructor].
    + intros [Hlen _]. left. destruct t; [reflexivity | discriminate].
  - rewrite in_flat_map. split.
    + intros [d [Hd Ht]]. apply in_map_iff in Ht.
      destruct Ht as [t' [<- Ht']]. apply IH in Ht'.
      destruct Ht' as [Hlen Hall]. apply in_seq in Hd. split.
      * simpl. rewrite Hlen. reflexivity.
      * constructor; [lia | exact Hall].
    + intros [Hlen Hall]. destruct t as [| d t']; [discriminate |].
      inversion Hall as [| ? ? Hd Hall']; subst.
      exists (Z.to_nat d). split.
      * apply in_seq. lia.
      * apply in_map_iff. exists t'. split.
        -- rewrite Z2Nat.id by lia. reflexivity.
        -- apply IH. split; [| exact Hall']. simpl in Hlen. lia.
Qed.

Lemma filter_none :
  forall (A : Type) (p : A -> bool) (l : list A),
    (forall x, p x = false) -> filter p l = [].
Proof.
  intros A p l Hp. induction l as [| x l IH]; simpl.
  - reflexivity.
  - rewrite Hp. exact IH.
Qed.

Lemma filter_all :
  forall (A : Type) (p : A -> bool) (l : list A),
    (forall x, p x = true) -> filter p l = l.
Proof.
  intros A p l Hp. induction l as [| x l IH]; simpl.
  - reflexivity.
  - rewrite Hp, IH. reflexivity.
Qed.

(** The number of draws of the alphabet that satisfy a test which one
    draw passes. *)
Lemma count_one_draw :
  forall (B : Type) (f : nat -> list B) (k : nat) (start len : nat) (c : nat),
    (start <= k < start + len)%nat ->
    List.length (f k) = c ->
    (forall d, d <> k -> f d = []) ->
    List.length (flat_map f (seq start len)) = c.
Proof.
  intros B f k start len c. revert start.
  induction len as [| len IH]; intros start Hk Hc Hother; [lia |].
  simpl. rewrite length_app.
  destruct (Nat.eq_dec start k) as [-> | Hne].
  - rewrite Hc.
    assert (Hrest : flat_map f (seq (S k) len) = []).
    { clear IH Hk. generalize (S k) (Nat.lt_succ_diag_r k).
      induction len as [| len IHl]; intros s Hs; simpl; [reflexivity |].
      rewrite (Hother s) by lia. simpl. apply IHl. lia. }
    rewrite Hrest. simpl. lia.
  - rewrite (Hother start Hne). simpl. apply IH; [lia | exact Hc | exact Hother].
Qed.

(** Exactly one tape is a given sequence of draws. *)
Lemma count_same_draws :
  forall m n v,
    In v (tapes m n) ->
    List.length (filter (fun t => same_draws t v) (tapes m n)) = 1%nat.
Proof.
  intros m n. induction n as [| n IH]; intros v Hv.
  - apply tapes_in in Hv. destruct Hv as [Hlen _].
    destruct v; [reflexivity | discriminate].
  - pose proof Hv as Hv'. apply tapes_in in Hv'. destruct Hv' as [Hlen Hall].
    destruct v as [| d v']; [discriminate |].
    inversion Hall as [| ? ? Hd Hall']; subst.
    assert (Hv'' : In v' (tapes m n)).
    { apply tapes_in. split; [simpl in Hlen; lia | exact Hall']. }
    simpl tapes. rewrite filter_flat_map.
    apply (count_one_draw _ _ (Z.to_nat d) 0 m 1%nat).
    + lia.
    + rewrite filter_map_cons. rewrite length_map.
      rewrite Z2Nat.id by lia.
      rewrite <- (IH v' Hv''). f_equal. apply filter_ext.
      intro t. simpl. rewrite Z.eqb_refl. reflexivity.
    + intros k Hk. rewrite filter_map_cons.
      rewrite filter_none; [reflexivity |].
      intro t. simpl.
      assert (Hneq : (Z.of_nat k =? d) = false).
      { apply Z.eqb_neq. intro Heq. apply Hk. lia. }
      rewrite Hneq. reflexivity.
Qed.

(** A given draw takes a given value on one tape in [m]. *)
Lemma count_draw_is :
  forall m n i d,
    (i < n)%nat -> 0 <= d < Z.of_nat m ->
    (List.length (filter (draw_is i d) (tapes m n)) * m)%nat
    = List.length (tapes m n).
Proof.
  intros m n. induction n as [| n IH]; intros i d Hi Hd; [lia |].
  simpl tapes. rewrite filter_flat_map.
  destruct i as [| i].
  - rewrite (count_one_draw _ _ (Z.to_nat d) 0 m (List.length (tapes m n))).
    + rewrite (length_flat_map_const _ _ _ _ (List.length (tapes m n))).
      * rewrite length_seq. lia.
      * intros k _. apply length_map.
    + lia.
    + rewrite filter_map_cons. rewrite length_map. f_equal.
      rewrite Z2Nat.id by lia.
      rewrite filter_all; [reflexivity |].
      intro t. unfold draw_is. simpl. apply Z.eqb_refl.
    + intros k Hk. rewrite filter_map_cons.
      rewrite filter_none; [reflexivity |].
      intro t. unfold draw_is. simpl. apply Z.eqb_neq. intro Heq. apply Hk.
      lia.
  - rewrite (length_flat_map_const _ _ _ _
               (List.length (filter (draw_is i d) (tapes m n)))).
    + rewrite (length_flat_map_const _ _ _ _ (List.length (tapes m n))).
      * rewrite length_seq. rewrite <- (IH i d) by (lia || assumption). lia.
      * intros k _. apply length_map.
    + intros k _. rewrite filter_map_cons. rewrite length_map.
      f_equal.
Qed.

Lemma probability_of_count :
  forall (space : list (list Z)) (event : list Z -> bool) (m : nat),
    (0 < List.length space)%nat ->
    (List.length (filter event space) * m)%nat = List.length space ->
    (probability space event == 1 / inject_Z (Z.of_nat m))%Q.
Proof.
  intros space event m Hpos Hcount. unfold probability.
  rewrite <- Hcount. rewrite Nat2Z.inj_mul. rewrite inject_Z_mult.
  assert (Hc : ~ (inject_Z (Z.of_nat (List.length (filter event space)))
                  == 0)%Q).
  { intro H0. unfold Qeq in H0. simpl in H0. rewrite <- Hcount in Hpos.
    lia. }
  assert (Hm : ~ (inject_Z (Z.of_nat m) == 0)%Q).
  { intro H0. unfold Qeq in H0. simpl in H0. rewrite <- Hcount in Hpos.
    lia. }
  field. split; assumption.
Qed.

Lemma probability_of_one :
  forall (m n : nat) (event : list Z -> bool),
    (0 < m)%nat ->
    List.length (filter event (tapes m n)) = 1%nat ->
    (probability (tapes m n) event
     == (1 / inject_Z (Z.of_nat m)) ^ Z.of_nat n)%Q.
Proof.
  intros m n event Hm Hone. unfold probability. rewrite Hone.
  rewrite tapes_length. rewrite Nat2Z.inj_pow.
  rewrite Zpower_Qpower by lia.
  rewrite Qdiv_power. rewrite Qpower_1. reflexivity.
Qed.

(** *** The draws of a run *)

Lemma randints_of_tape :
  forall n tape,
    In tape (tapes 731 n) ->
    randints n tape = (tape, []).
Proof.
  induction n as [| n IH]; intros tape Hin.
  - apply tapes_in in Hin. destruct Hin as [Hlen _].
    destruct tape; [reflexivity | discriminate].
  - apply tapes_in in Hin. destruct Hin as [Hlen Hall].
    destruct tape as [| d tape]; [discriminate |].
    inversion Hall as [| ? ? Hd Hall']; subst.
    assert (Hrest : In tape (tapes 731 n)).
    { apply tapes_in. split; [simpl in Hlen; lia | exact Hall']. }
    simpl. unfold randint. simpl.
    change (730 - 0 + 1) with 731. rewrite Z.mod_small by lia.
    rewrite (IH tape Hrest). reflexivity.
Qed.

Lemma offset_of_date :
  forall now d,
    offset_of now (VTime (now - timedelta_days 730 + timedelta_days d)) = d.
Proof.
  intros now d. unfold offset_of, timedelta_days.
  replace (now - 730 * microseconds_per_day + d * microseconds_per_day
           - (now - 730 * microseconds_per_day))
    with (d * microseconds_per_day) by lia.
  apply Z.div_mul. unfold microseconds_per_day. lia.
Qed.

(** With the draws of a tape, each row gets its own draw as offset. *)
Lemma offsets_drawn_of_tape :
  forall (floatify : string -> option scalar) (now : Z) (rs : list record)
         (stars : list value) (tape : list Z),
    In "stars" (column_names rs) ->
    to_numeric floatify (rating_column rs) = Ok stars ->
    In tape (tapes 731 (List.length rs)) ->
    offsets_drawn floatify now rs tape = Some tape.
Proof.
  intros floatify now rs stars tape Hin Hnum Htape. unfold offsets_drawn.
  rewrite (process_reviews_data_ok floatify now tape rs stars Hin Hnum).
  rewrite built_frame_review_date.
  rewrite (randints_of_tape _ _ Htape). simpl fst.
  rewrite !map_map. f_equal.
  rewrite <- (map_id tape) at 2. apply map_ext.
  intro d. apply offset_of_date.
Qed.

Lemma same_draws_refl : forall v, same_draws v v = true.
Proof.
  induction v as [| d v IH]; simpl; [reflexivity |].
  rewrite Z.eqb_refl. exact IH.
Qed.

Lemma one_in_731 : (1 / inject_Z (Z.of_nat 731) == 1 # 731)%Q.
Proof. reflexivity. Qed.

(** C5: every [review_date] of a table built by [process_reviews_data] is
    [now - 730 days + d days] for an offset [d] between 0 and 730, hence
    lies in the inclusive range from [now - 730 days] to [now]; the offsets
    are the results of successive calls of [random.randint(0, 730)], one
    call per row.  When these calls are uniform and independent, that is
    when every tape of draws is as likely as any other, each row gets
    the draw of its own call: the offset of a row takes each value from
    0 to 730 with probability 1/731, and the offsets of the rows take
    any given values together with the product of these probabilities:
    they are uniform and independent. *)
Theorem C5_review_dates_within_two_years :
  forall (G : Type) (source : RandomSource G)
         (floatify : string -> option scalar)
         (now : Z) (g : G) (rs : list record) (df : DataFrame) (g' : G),
    process_reviews_data floatify now g rs = Ok (df, g') ->
    (exists offsets,
        offsets = fst (randints (len df) g)
        /\ List.length offsets = len df
        /\ Forall (fun d => 0 <= d <= 730) offsets
        /\ getitem df "review_date"
           = Ok (map (fun d => VTime (now - timedelta_days 730
                                      + timedelta_days d)) offsets)
        /\ Forall (fun d => now - timedelta_days 730
                            <= now - timedelta_days 730 + timedelta_days d
                            <= now) offsets)
    /\ (forall tape,
           In tape (tapes 731 (List.length rs)) ->
           offsets_drawn floatify now rs tape = Some tape)
    /\ (forall (i : nat) (d : Z),
           (i < List.length rs)%nat -> 0 <= d <= 730 ->
           (probability (tapes 731 (List.length rs))
                        (row_offset_is floatify now rs i d)
            == 1 # 731)%Q)
    /\ (forall (offsets : list Z),
           List.length offsets = List.length rs ->
           Forall (fun d => 0 <= d <= 730) offsets ->
           (probability (tapes 731 (List.length rs))
                        (offsets_are floatify now rs offsets)
            == (1 # 731) ^ Z.of_nat (List.length rs))%Q).
Proof.
  intros G source floatify now g rs df g' Hrun.
  destruct (process_reviews_data_ok_inv floatify now g rs df g' Hrun)
    as [stars [Hin [Hnum [Hdf _]]]].
  assert (Hdrawn : forall tape,
             In tape (tapes 731 (List.length rs)) ->
             offsets_drawn floatify now rs tape = Some tape).
  { intros tape Htape.
    exact (offsets_drawn_of_tape floatify now rs stars tape Hin Hnum Htape). }
  split.
  { subst df. exists (fst (randints (List.length rs) g)).
    split; [reflexivity |].
    split; [apply randints_length |].
    split; [apply randints_range |].
    split.
    - rewrite built_frame_review_date. rewrite map_map. reflexivity.
    - eapply Forall_impl; [| apply randints_range].
      intros d Hd. apply offset_in_window. exact Hd. }
  split; [exact Hdrawn |].
  split.
  - intros i d Hi Hd. rewrite <- one_in_731.
    apply probability_of_count.
    + rewrite tapes_length. apply Nat.neq_0_lt_0. apply Nat.pow_nonzero.
      discriminate.
    + rewrite (filter_ext_in (row_offset_is floatify now rs i d)
                             (draw_is i d)).
      * apply count_draw_is; [exact Hi | lia].
      * intros tape Htape. unfold row_offset_is.
        rewrite (Hdrawn tape Htape). reflexivity.
  - intros offsets Hlen Hrange.
    assert (Hin' : In offsets (tapes 731 (List.length rs))).
    { apply tapes_in. split; [exact Hlen |].
      eapply Forall_impl; [| exact Hrange]. intros d Hd.
      cbv beta in Hd. lia. }
    assert (Hpow : ((1 # 731) ^ Z.of_nat (List.length rs)
                    == (1 / inject_Z (Z.of_nat 731))
                       ^ Z.of_nat (List.length rs))%Q).
    { apply Qpower_comp; [symmetry; exact one_in_731 | reflexivity]. }
    rewrite Hpow. apply probability_of_one; [lia |].
    rewrite (filter_ext_in (offsets_are floatify now rs offsets)
                           (fun t => same_draws t offsets)).
    + apply count_same_draws. exact Hin'.
    + intros tape Htape. unfold offsets_are.
      rewrite (Hdrawn tape Htape). reflexivity.
Qed.

Lemma C5_witness :
  (exists offsets,
      offsets = fst (randints (len scenario_table) sample_seed)
      /\ List.length offsets = len scenario_table
      /\ Forall (fun d => 0 <= d <= 730) offsets
      /\ getitem scenario_table "review_date"
         = Ok (map (fun d => VTime (sample_now - timedelta_days 730
                                    + timedelta_days d)) offsets)
      /\ Forall (fun d => sample_now - timedelta_days 730
                          <= sample_now - timedelta_days 730
                             + timedelta_days d
                          <= sample_now) offsets)
  /\ (forall tape,
         In tape (tapes 731 (List.length scenario_records)) ->
         offsets_drawn integer_literal sample_now scenario_records tape
         = Some tape)
  /\ (forall (i : nat) (d : Z),
         (i < List.length scenario_records)%nat -> 0 <= d <= 730 ->
         (probability (tapes 731 (List.length scenario_records))
                      (row_offset_is integer_literal sample_now
                                     scenario_records i d)
          == 1 # 731)%Q)
  /\ (forall (offsets : list Z),
         List.length offsets = List.length scenario_records ->
         Forall (fun d => 0 <= d <= 730) offsets ->
         (probability (tapes 731 (List.length scenario_records))
                      (offsets_are integer_literal sample_now
                                   scenario_records offsets)
          == (1 # 731) ^ Z.of_nat (List.length scenario_records))%Q).
Proof.
  apply (C5_review_dates_within_two_years Z CounterSource integer_literal
           sample_now sample_seed scenario_records scenario_table 2).
  reflexivity.
Defined.

(** Two rows with the draws 700 and 12: the first row is dated 30 days
    before the clock, the second 718 days before it. *)
Example offsets_of_a_tape :
  offsets_drawn integer_literal sample_now scenario_records [700; 12]
  = Some [700; 12].
Proof. reflexivity. Qed.

(** ** The projection for the AI analysis *)

Lemma filter_mask_length_le :
  forall (A : Type) (mask : list bool) (l : list A),
    List.length mask = List.length l ->
    List.length (filter_mask mask l)
    = List.length (filter (fun b : bool => b) mask).
Proof.
  intros A mask. induction mask as [| b rest IH]; intros l Hlen.
  - reflexivity.
  - destruct l as [| x l']; [discriminate |].
    simpl in Hlen. injection Hlen as Hlen.
    destruct b; simpl; rewrite (IH l' Hlen); reflexivity.
Qed.

Lemma combine_filter_mask :
  forall (cs ct : list value),
    List.length cs = List.length ct ->
    combine (filter_mask (map notna ct) cs) (filter_mask (map notna ct) ct)
    = filter (fun st => notna (snd st)) (combine cs ct).
Proof.
  induction cs as [| s cs' IH]; intros ct Hlen.
  - destruct ct as [| t ct']; [reflexivity | discriminate].
  - destruct ct as [| t ct']; [discriminate |].
    simpl in Hlen. injection Hlen as Hlen. simpl.
    destruct (notna t); simpl; rewrite (IH ct' Hlen); reflexivity.
Qed.

Lemma well_formed_getitem :
  forall df k c,
    well_formed df -> getitem df k = Ok c -> List.length c = index_len df.
Proof.
  intros df k c Hwf Hc. unfold getitem in Hc.
  destruct (find_column k (columns df)) as [c0 |] eqn:E; [| discriminate].
  injection Hc as ->. apply find_column_some_in in E.
  unfold well_formed in Hwf. rewrite Forall_forall in Hwf.
  exact (Hwf _ E).
Qed.

Lemma project_for_ai_spec :
  forall (df : DataFrame) (cs ct : list value),
    getitem df "stars" = Ok cs ->
    getitem df "text" = Ok ct ->
    project_for_ai df = Ok (projected cs ct).
Proof.
  intros df cs ct Hs Ht.
  unfold project_for_ai, select_columns. simpl. rewrite Hs, Ht. reflexivity.
Qed.

Lemma projected_well_formed :
  forall cs ct,
    List.length cs = List.length ct -> well_formed (projected cs ct).
Proof.
  intros cs ct Hlen. unfold well_formed, projected. simpl.
  assert (Hmask : List.length (map notna ct) = List.length ct)
    by apply length_map.
  repeat constructor; simpl; apply filter_mask_length_le; congruence.
Qed.

Lemma projected_pairs :
  forall cs ct,
    List.length cs = List.length ct ->
    pairs_of (projected cs ct)
    = Ok (filter (fun st => notna (snd st)) (combine cs ct)).
Proof.
  intros cs ct Hlen. unfold pairs_of, getitem, projected. simpl.
  rewrite (combine_filter_mask cs ct Hlen). reflexivity.
Qed.

Lemma projected_len :
  forall cs ct,
    List.length cs = List.length ct ->
    len (projected cs ct)
    = List.length (filter (fun st => notna (snd st)) (combine cs ct)).
Proof.
  intros cs ct Hlen. unfold len, projected. simpl.
  rewrite <- (combine_filter_mask cs ct Hlen). rewrite length_combine.
  assert (Hmask : List.length (map notna ct) = List.length ct)
    by apply length_map.
  rewrite !filter_mask_length_le by congruence.
  apply eq_sym, Nat.min_id.
Qed.

(** C8: the projection sent to the AI analysis has exactly the two columns
    [stars] and [text], and its rows are exactly the rows of the table whose
    text is not missing, in the order of the table. *)
Theorem C8_projection_keeps_rows_with_text :
  forall (df : DataFrame) (cs ct : list value),
    well_formed df ->
    getitem df "stars" = Ok cs ->
    getitem df "text" = Ok ct ->
    exists p,
      project_for_ai df = Ok p
      /\ column_labels p = ["stars"; "text"]
      /\ well_formed p
      /\ pairs_of p
         = Ok (filter (fun st => notna (snd st)) (combine cs ct))
      /\ len p
         = List.length (filter (fun st => notna (snd st)) (combine cs ct)).
Proof.
  intros df cs ct Hwf Hs Ht.
  pose proof (well_formed_getitem df _ _ Hwf Hs) as Hls.
  pose proof (well_formed_getitem df _ _ Hwf Ht) as Hlt.
  assert (Hlen : List.length cs = List.length ct) by congruence.
  exists (projected cs ct).
  split; [apply project_for_ai_spec; assumption |].
  split; [reflexivity |].
  split; [apply projected_well_formed; exact Hlen |].
  split; [apply projected_pairs; exact Hlen |].
  apply projected_len. exact Hlen.
Qed.

Lemma C8_witness :
  exists p,
    project_for_ai scenario_table = Ok p
    /\ column_labels p = ["stars"; "text"]
    /\ well_formed p
    /\ pairs_of p = Ok [(VInt 5, VStr "Great")]
    /\ len p = 1%nat.
Proof.
  apply (C8_projection_keeps_rows_with_text scenario_table
           [VInt 5; VInt 3] [VStr "Great"; VNull]).
  - unfold well_formed. simpl. repeat constructor.
  - reflexivity.
  - reflexivity.
Defined.

(** ** Counting by key *)

Section CountByKey.

Variable A : Type.
Variable eqb : A -> A -> bool.
Hypothesis eqb_sym : forall a b, eqb a b = true -> eqb b a = true.
Hypothesis eqb_trans :
  forall a b c, eqb a b = true -> eqb b c = true -> eqb a c = true.

Lemma indicator_sum_none :
  forall keys x,
    (forall k, In k keys -> eqb k x = false) ->
    list_sum (map (indicator eqb x) keys) = 0%nat.
Proof.
  induction keys as [| k rest IH]; intros x Hnone; simpl.
  - reflexivity.
  - unfold indicator at 1. rewrite (Hnone k (or_introl eq_refl)).
    rewrite IH; [reflexivity |].
    intros k' Hk'. apply Hnone. right. exact Hk'.
Qed.

Lemma indicator_sum_one :
  forall keys x k,
    distinct eqb keys -> In k keys -> eqb k x = true ->
    list_sum (map (indicator eqb x) keys) = 1%nat.
Proof.
  induction keys as [| k0 rest IH]; intros x k Hd Hin Hk; simpl.
  - destruct Hin.
  - destruct Hd as [Hhead Hrest]. unfold indicator at 1.
    destruct (eqb k0 x) eqn:E0.
    + rewrite indicator_sum_none; [reflexivity |].
      intros k' Hk'. destruct (eqb k' x) eqn:E'; [| reflexivity].
      rewrite <- (Hhead k' Hk'). symmetry.
      apply (eqb_trans k0 x k'); [exact E0 | apply eqb_sym; exact E'].
    + destruct Hin as [Hin | Hin].
      * subst k0. rewrite Hk in E0. discriminate.
      * simpl. apply (IH x k); assumption.
Qed.

Lemma list_sum_map_add :
  forall (B : Type) (f g : B -> nat) (l : list B),
    list_sum (map (fun b => (f b + g b)%nat) l)
    = (list_sum (map f l) + list_sum (map g l))%nat.
Proof.
  intros B f g l. induction l as [| b rest IH]; simpl; [reflexivity | lia].
Qed.

Lemma filter_count_cons :
  forall k x vals,
    List.length (filter (eqb k) (x :: vals))
    = (indicator eqb x k + List.length (filter (eqb k) vals))%nat.
Proof.
  intros k x vals. simpl. unfold indicator.
  destruct (eqb k x); reflexivity.
Qed.

(** When the keys are distinct and every value has its key, the counts per
    key add up to the number of values. *)
Lemma counts_sum_to_length :
  forall keys vals,
    distinct eqb keys ->
    (forall x, In x vals -> exists k, In k keys /\ eqb k x = true) ->
    list_sum (map (fun k => List.length (filter (eqb k) vals)) keys)
    = List.length vals.
Proof.
  intros keys vals Hd. induction vals as [| x rest IH]; intro Hcover.
  - simpl. clear Hd Hcover.
    induction keys as [| k ks IHk]; simpl; [reflexivity | exact IHk].
  - rewrite (map_ext _ (fun k => (indicator eqb x k
                                  + List.length (filter (eqb k) rest))%nat))
      by (intro k; apply filter_count_cons).
    rewrite list_sum_map_add. rewrite IH.
    + destruct (Hcover x (or_introl eq_refl)) as [k [Hk Hkx]].
      rewrite (indicator_sum_one keys x k Hd Hk Hkx). reflexivity.
    + intros y Hy. apply Hcover. right. exact Hy.
Qed.

End CountByKey.

(** ** Insertion sort *)

Section SortBy.

Variable A : Type.
Variable le : A -> A -> bool.

Lemma insert_by_in :
  forall x l y, In y (insert_by le x l) <-> y = x \/ In y l.
Proof.
  intros x l y. induction l as [| z rest IH]; simpl.
  - split; intros [Hy | []]; auto.
  - destruct (le x z); simpl.
    + split; intros [Hy | Hy]; auto.
    + rewrite IH. split.
      * intros [Hy | [Hy | Hy]]; auto.
      * intros [Hy | [Hy | Hy]]; auto.
Qed.

Lemma sort_by_in : forall l y, In y (sort_by le l) <-> In y l.
Proof.
  induction l as [| x rest IH]; intro y; simpl.
  - tauto.
  - rewrite insert_by_in, IH. split; intros [Hy | Hy]; auto.
Qed.

Lemma insert_by_sum :
  forall (f : A -> nat) x l,
    list_sum (map f (insert_by le x l)) = (f x + list_sum (map f l))%nat.
Proof.
  intros f x l. induction l as [| z rest IH]; simpl.
  - reflexivity.
  - destruct (le x z); simpl; [reflexivity | rewrite IH; lia].
Qed.

Lemma sort_by_sum :
  forall (f : A -> nat) l,
    list_sum (map f (sort_by le l)) = list_sum (map f l).
Proof.
  intros f l. induction l as [| x rest IH]; simpl.
  - reflexivity.
  - rewrite insert_by_sum, IH. reflexivity.
Qed.

Section Distinct.

Variable eqb : A -> A -> bool.
Hypothesis eqb_sym : forall a b, eqb a b = true -> eqb b a = true.

Lemma eqb_false_sym : forall a b, eqb a b = false -> eqb b a = false.
Proof.
  intros a b Hab. destruct (eqb b a) eqn:E; [| reflexivity].
  apply eqb_sym in E. rewrite E in Hab. discriminate.
Qed.

Lemma insert_by_distinct :
  forall x l,
    distinct eqb (x :: l) -> distinct eqb (insert_by le x l).
Proof.
  intros x l. induction l as [| z rest IH]; intros [Hx Hl]; simpl.
  - split; [intros k' [] | exact I].
  - destruct (le x z).
    + split; [exact Hx | exact Hl].
    + destruct Hl as [Hz Hrest]. split.
      * intros k' Hk'. apply insert_by_in in Hk'. destruct Hk' as [-> | Hk'].
        -- apply eqb_false_sym. apply Hx. left. reflexivity.
        -- apply Hz. exact Hk'.
      * apply IH. split; [| exact Hrest].
        intros k' Hk'. apply Hx. right. exact Hk'.
Qed.

Lemma sort_by_distinct :
  forall l, distinct eqb l -> distinct eqb (sort_by le l).
Proof.
  induction l as [| x rest IH]; intros Hd; simpl.
  - exact I.
  - destruct Hd as [Hx Hrest]. apply insert_by_distinct. split.
    + intros k' Hk'. apply Hx. apply (sort_by_in rest). exact Hk'.
    + apply IH. exact Hrest.
Qed.

End Distinct.

Hypothesis le_total : forall a b, le a b = false -> le b a = true.
Hypothesis le_trans :
  forall a b c, le a b = true -> le b c = true -> le a c = true.

Lemma insert_by_sorted :
  forall x l,
    StronglySorted (fun a b => le a b = true) l ->
    StronglySorted (fun a b => le a b = true) (insert_by le x l).
Proof.
  intros x l Hs. induction Hs as [| z rest Hrest IH Hz]; simpl.
  - constructor; constructor.
  - destruct (le x z) eqn:E.
    + constructor.
      * constructor; assumption.
      * constructor; [exact E |].
        eapply Forall_impl; [| exact Hz].
        intros a Ha. eapply le_trans; eassumption.
    + constructor; [exact IH |].
      apply Forall_forall. intros a Ha. apply insert_by_in in Ha.
      destruct Ha as [-> | Ha].
      * apply le_total. exact E.
      * rewrite Forall_forall in Hz. apply Hz. exact Ha.
Qed.

Lemma sort_by_sorted :
  forall l, StronglySorted (fun a b => le a b = true) (sort_by le l).
Proof.
  induction l as [| x rest IH]; simpl.
  - constructor.
  - apply insert_by_sorted. exact IH.
Qed.

End SortBy.

(** ** The rating histogram *)

Lemma key_eqb_sym : forall a b, key_eqb a b = true -> key_eqb b a = true.
Proof. intros a b. unfold key_eqb. apply Qeq_bool_sym. Qed.

Lemma key_leb_total : forall a b, key_leb a b = false -> key_leb b a = true.
Proof.
  intros a b Hab. unfold key_leb in *. apply Qle_bool_iff.
  destruct (Qlt_le_dec (fst b) (fst a)) as [Hlt | Hle].
  - apply Qlt_le_weak. exact Hlt.
  - apply Qle_bool_iff in Hle. rewrite Hle in Hab. discriminate.
Qed.

Lemma key_leb_trans :
  forall a b c, key_leb a b = true -> key_leb b c = true -> key_leb a c = true.
Proof.
  intros a b c Hab Hbc. unfold key_leb in *.
  apply Qle_bool_iff in Hab. apply Qle_bool_iff in Hbc.
  apply Qle_bool_iff. eapply Qle_trans; eassumption.
Qed.

Lemma distinct_filter :
  forall (A : Type) (eqb : A -> A -> bool) (p : A -> bool) (l : list A),
    distinct eqb l -> distinct eqb (filter p l).
Proof.
  intros A eqb p l. induction l as [| x rest IH]; intros Hd; simpl.
  - exact I.
  - destruct Hd as [Hx Hrest]. destruct (p x); simpl.
    + split; [| apply IH; exact Hrest].
      intros k' Hk'. apply Hx. apply filter_In in Hk'. tauto.
    + apply IH. exact Hrest.
Qed.

Lemma distinct_tabulate :
  forall (f : Q -> nat) (keys : list Q),
    distinct Qeq_bool keys ->
    distinct key_eqb (map (fun k => (k, f k)) keys).
Proof.
  intros f keys. induction keys as [| k rest IH]; intros Hd; simpl.
  - exact I.
  - destruct Hd as [Hk Hrest]. split; [| apply IH; exact Hrest].
    intros k' Hk'. apply in_map_iff in Hk'. destruct Hk' as [y [<- Hy]].
    unfold key_eqb. simpl. apply Hk. exact Hy.
Qed.

Lemma unique_subset : forall vals y, In y (unique vals) -> In y vals.
Proof.
  induction vals as [| x rest IH]; intros y Hy; simpl in *.
  - exact Hy.
  - destruct Hy as [Hy | Hy]; [left; exact Hy |].
    apply filter_In in Hy. right. apply IH. tauto.
Qed.

Lemma unique_covers :
  forall vals x,
    In x vals -> exists k, In k (unique vals) /\ Qeq_bool k x = true.
Proof.
  induction vals as [| x0 rest IH]; intros x Hx; simpl in *.
  - destruct Hx.
  - destruct Hx as [Hx | Hx].
    + subst x0. exists x. split; [left; reflexivity | apply Qeq_bool_refl].
    + destruct (IH x Hx) as [k [Hk Hkx]].
      destruct (Qeq_bool x0 k) eqn:E.
      * exists x0. split; [left; reflexivity |].
        eapply Qeq_bool_trans; eassumption.
      * exists k. split; [| exact Hkx]. right. apply filter_In.
        split; [exact Hk |]. rewrite E. reflexivity.
Qed.

Lemma unique_distinct : forall vals, distinct Qeq_bool (unique vals).
Proof.
  induction vals as [| x rest IH]; simpl.
  - exact I.
  - split.
    + intros k' Hk'. apply filter_In in Hk'. destruct Hk' as [_ Hk'].
      destruct (Qeq_bool x k'); [discriminate | reflexivity].
    + apply distinct_filter. exact IH.
Qed.

Lemma occurrences_positive :
  forall k vals, In k vals -> (1 <= occurrences k vals)%nat.
Proof.
  intros k vals Hk. unfold occurrences.
  assert (Hin : In k (filter (Qeq_bool k) vals)).
  { apply filter_In. split; [exact Hk | apply Qeq_bool_refl]. }
  destruct (filter (Qeq_bool k) vals); [destruct Hin | simpl; lia].
Qed.

Lemma count_notna_dropna :
  forall xs, count_notna xs = List.length (dropna_values xs).
Proof.
  unfold count_notna. induction xs as [| [q |] rest IH]; simpl.
  - reflexivity.
  - rewrite IH. reflexivity.
  - exact IH.
Qed.

Lemma count_notna_all :
  forall xs, Forall (fun x => x <> None) xs -> count_notna xs = List.length xs.
Proof.
  unfold count_notna. induction xs as [| [q |] rest IH]; intro Hall; simpl.
  - reflexivity.
  - inversion Hall; subst. rewrite IH by assumption. reflexivity.
  - inversion Hall as [| x l Hx Hl]; subst. exfalso. apply Hx. reflexivity.
Qed.

Lemma numeric_view_length :
  forall col c xs,
    numeric_view col c = Ok xs -> List.length xs = List.length c.
Proof.
  intros col c. induction c as [| v rest IH]; intros xs Hxs; simpl in Hxs.
  - injection Hxs as <-. reflexivity.
  - bind_inv Hxs. bind_inv Hxs. injection Hxs as <-. simpl.
    rewrite (IH _ Ha0). reflexivity.
Qed.

(** The counts of [value_counts] add up to the number of entries that are
    not missing. *)
Lemma value_counts_total :
  forall xs, list_sum (map snd (value_counts xs)) = count_notna xs.
Proof.
  intro xs. unfold value_counts. rewrite sort_by_sum. rewrite map_map. simpl.
  rewrite count_notna_dropna. unfold occurrences.
  apply (counts_sum_to_length Q Qeq_bool Qeq_bool_sym Qeq_bool_trans).
  - apply unique_distinct.
  - apply unique_covers.
Qed.

Lemma value_counts_in :
  forall xs k n,
    In (k, n) (value_counts xs) <->
    In k (unique (dropna_values xs))
    /\ n = occurrences k (dropna_values xs).
Proof.
  intros xs k n. unfold value_counts. rewrite sort_by_in. rewrite in_map_iff.
  split.
  - intros [y [Hy Hin]]. injection Hy as <- <-. split; [exact Hin | reflexivity].
  - intros [Hin ->]. exists k. split; [reflexivity | exact Hin].
Qed.

Lemma value_counts_distinct :
  forall xs, distinct key_eqb (value_counts xs).
Proof.
  intro xs. unfold value_counts.
  apply (sort_by_distinct _ _ key_eqb key_eqb_sym).
  apply distinct_tabulate. apply unique_distinct.
Qed.

Lemma sorted_distinct_strict :
  forall h,
    StronglySorted (fun a b => key_leb a b = true) h ->
    distinct key_eqb h ->
    StronglySorted (fun a b => (fst a < fst b)%Q) h.
Proof.
  intros h Hs. induction Hs as [| a rest Hrest IH Ha]; intros Hd.
  - constructor.
  - destruct Hd as [Hhead Hd]. constructor; [apply IH; exact Hd |].
    apply Forall_forall. intros b Hb.
    rewrite Forall_forall in Ha. specialize (Ha b Hb).
    specialize (Hhead b Hb). unfold key_leb in Ha. unfold key_eqb in Hhead.
    apply Qle_bool_iff in Ha. apply Qeq_bool_neq in Hhead.
    apply Qle_lteq in Ha. destruct Ha as [Hlt | Heq]; [exact Hlt |].
    contradiction.
Qed.

(** C6 as stated fails: a row whose rating is missing is in no group, so
    the counts add up to less than the row count. *)
Lemma C6_counterexample :
  process_reviews_data integer_literal sample_now sample_seed
    records_with_missing_rating
  = Ok (table_with_missing_rating, 2)
  /\ len table_with_missing_rating = 2%nat
  /\ rating_histogram table_with_missing_rating = Ok [(inject_Z 5, 1%nat)]
  /\ list_sum (map snd [(inject_Z 5, 1%nat)])
     <> len table_with_missing_rating.
Proof.
  split; [reflexivity |]. split; [reflexivity |].
  split; [reflexivity |]. simpl. discriminate.
Qed.

(** C6, amended: [rating_histogram] groups the rows whose rating is not
    missing by rating value; its counts add up to the number of those rows,
    which is the row count when no rating is missing; the groups come in
    strictly ascending order of rating; a group exists exactly for the
    values that occur, with the number of their occurrences. *)
Theorem C6_histogram_counts_present_ratings :
  forall (df : DataFrame) (c : list value) (xs : list (option Q)),
    well_formed df ->
    getitem df "stars" = Ok c ->
    numeric_view "stars" c = Ok xs ->
    exists h,
      rating_histogram df = Ok h
      /\ list_sum (map snd h) = count_notna xs
      /\ (Forall (fun x => x <> None) xs -> list_sum (map snd h) = len df)
      /\ StronglySorted (fun a b => (fst a < fst b)%Q) h
      /\ (forall k n, In (k, n) h ->
            In k (dropna_values xs)
            /\ n = occurrences k (dropna_values xs)
            /\ (1 <= n)%nat)
      /\ (forall x, In x (dropna_values xs) ->
            exists k n, In (k, n) h /\ (k == x)%Q).
Proof.
  intros df c xs Hwf Hc Hxs.
  exists (sort_index (value_counts xs)).
  assert (Hin : forall k n,
             In (k, n) (sort_index (value_counts xs))
             <-> In (k, n) (value_counts xs)).
  { intros k n. unfold sort_index. apply sort_by_in. }
  split.
  { unfold rating_histogram. rewrite Hc. simpl. rewrite Hxs. reflexivity. }
  assert (Htotal : list_sum (map snd (sort_index (value_counts xs)))
                   = count_notna xs).
  { unfold sort_index. rewrite sort_by_sum. apply value_counts_total. }
  split; [exact Htotal |].
  split.
  { intro Hall. rewrite Htotal. rewrite (count_notna_all xs Hall).
    rewrite (numeric_view_length _ _ _ Hxs).
    apply (well_formed_getitem df "stars"); assumption. }
  split.
  { apply sorted_distinct_strict.
    - unfold sort_index.
      apply (sort_by_sorted _ _ key_leb_total key_leb_trans).
    - unfold sort_index.
      apply (sort_by_distinct _ _ key_eqb key_eqb_sym).
      apply value_counts_distinct. }
  split.
  - intros k n Hk. apply Hin in Hk. apply value_counts_in in Hk.
    destruct Hk as [Hk ->]. apply unique_subset in Hk.
    split; [exact Hk |]. split; [reflexivity |].
    apply occurrences_positive. exact Hk.
  - intros x Hx. destruct (unique_covers _ x Hx) as [k [Hk Hkx]].
    exists k, (occurrences k (dropna_values xs)). split.
    + apply Hin. apply value_counts_in. split; [exact Hk | reflexivity].
    + apply Qeq_bool_iff. exact Hkx.
Qed.

Lemma C6_witness :
  exists h,
    rating_histogram table_with_missing_rating = Ok h
    /\ list_sum (map snd h) = count_notna [Some (inject_Z 5); None]
    /\ (Forall (fun x => x <> None) [Some (inject_Z 5); None] ->
        list_sum (map snd h) = len table_with_missing_rating)
    /\ StronglySorted (fun a b => (fst a < fst b)%Q) h
    /\ (forall k n, In (k, n) h ->
          In k (dropna_values [Some (inject_Z 5); None])
          /\ n = occurrences k (dropna_values [Some (inject_Z 5); None])
          /\ (1 <= n)%nat)
    /\ (forall x, In x (dropna_values [Some (inject_Z 5); None]) ->
          exists k n, In (k, n) h /\ (k == x)%Q).
Proof.
  apply (C6_histogram_counts_present_ratings table_with_missing_rating
           [VFloat (inject_Z 5); VNull] [Some (inject_Z 5); None]).
  - unfold well_formed. simpl. repeat constructor.
  - reflexivity.
  - reflexivity.
Defined.

(** ** Reviews per month *)

Lemma datetime_view_length :
  forall col c ts,
    datetime_view col c = Ok ts -> List.length ts = List.length c.
Proof.
  intros col c. induction c as [| v rest IH]; intros ts Hts; simpl in Hts.
  - injection Hts as <-. reflexivity.
  - destruct v; try discriminate. bind_inv Hts. injection Hts as <-.
    simpl. rewrite (IH _ Ha). reflexivity.
Qed.

Lemma datetime_view_times :
  forall col ts, datetime_view col (map VTime ts) = Ok ts.
Proof.
  intros col ts. induction ts as [| t rest IH]; simpl.
  - reflexivity.
  - rewrite IH. reflexivity.
Qed.

Lemma fold_min_le :
  forall rest m0,
    fold_left Z.min rest m0 <= m0
    /\ forall m, In m rest -> fold_left Z.min rest m0 <= m.
Proof.
  induction rest as [| x rest IH]; intros m0; simpl.
  - split; [lia | intros m []].
  - destruct (IH (Z.min m0 x)) as [Hhead Hrest]. split; [lia |].
    intros m [-> | Hm]; [lia | apply Hrest; exact Hm].
Qed.

Lemma fold_max_ge :
  forall rest m0,
    m0 <= fold_left Z.max rest m0
    /\ forall m, In m rest -> m <= fold_left Z.max rest m0.
Proof.
  induction rest as [| x rest IH]; intros m0; simpl.
  - split; [lia | intros m []].
  - destruct (IH (Z.max m0 x)) as [Hhead Hrest]. split; [lia |].
    intros m [-> | Hm]; [lia | apply Hrest; exact Hm].
Qed.

Lemma month_range_in :
  forall lo hi m, In m (month_range lo hi) <-> lo <= m <= hi.
Proof.
  intros lo hi m. unfold month_range. rewrite in_map_iff. split.
  - intros [i [<- Hi]]. apply in_seq in Hi. lia.
  - intros Hm. exists (Z.to_nat (m - lo)). split; [lia |].
    apply in_seq. lia.
Qed.

Lemma shifted_seq_sorted :
  forall lo n s,
    StronglySorted Z.lt (map (fun i => lo + Z.of_nat i) (seq s n)).
Proof.
  intros lo n. induction n as [| n' IH]; intro s; simpl.
  - constructor.
  - constructor; [apply IH |].
    apply Forall_forall. intros m Hm. apply in_map_iff in Hm.
    destruct Hm as [i [<- Hi]]. apply in_seq in Hi. lia.
Qed.

Lemma month_range_sorted :
  forall lo hi, StronglySorted Z.lt (month_range lo hi).
Proof. intros lo hi. apply shifted_seq_sorted. Qed.

Lemma sorted_distinct_Z :
  forall l, StronglySorted Z.lt l -> distinct Z.eqb l.
Proof.
  intros l Hs. induction Hs as [| a rest Hrest IH Ha]; simpl.
  - exact I.
  - split; [| exact IH]. intros k' Hk'.
    rewrite Forall_forall in Ha. specialize (Ha k' Hk').
    apply Z.eqb_neq. lia.
Qed.

Lemma sorted_NoDup_Z :
  forall l, StronglySorted Z.lt l -> NoDup l.
Proof.
  intros l Hs. induction Hs as [| a rest Hrest IH Ha].
  - constructor.
  - constructor; [| exact IH]. intro Hin.
    rewrite Forall_forall in Ha. specialize (Ha a Hin). lia.
Qed.

Lemma tabulate_sorted :
  forall (f : Z -> nat) (keys : list Z),
    StronglySorted Z.lt keys ->
    StronglySorted (fun x y : Z * nat => fst x < fst y)
                   (map (fun m => (m, f m)) keys).
Proof.
  intros f keys Hs. induction Hs as [| a rest Hrest IH Ha]; simpl.
  - constructor.
  - constructor; [exact IH |]. apply Forall_map.
    eapply Forall_impl; [| exact Ha]. intros b Hb. exact Hb.
Qed.

Lemma Z_eqb_sym : forall a b : Z, (a =? b) = true -> (b =? a) = true.
Proof. intros a b Hab. apply Z.eqb_eq in Hab. apply Z.eqb_eq. lia. Qed.

Lemma Z_eqb_trans :
  forall a b c : Z, (a =? b) = true -> (b =? c) = true -> (a =? c) = true.
Proof.
  intros a b c Hab Hbc. apply Z.eqb_eq in Hab. apply Z.eqb_eq in Hbc.
  apply Z.eqb_eq. lia.
Qed.

Lemma count_month_positive :
  forall m ms, In m ms -> (1 <= count_month m ms)%nat.
Proof.
  intros m ms Hm. unfold count_month.
  assert (Hin : In m (filter (Z.eqb m) ms)).
  { apply filter_In. split; [exact Hm | apply Z.eqb_refl]. }
  destruct (filter (Z.eqb m) ms); [destruct Hin | simpl; lia].
Qed.

(** What [resample('M').size()] returns on the timestamps [ts]. *)
Lemma resample_M_size_spec :
  forall ts,
    let b := resample_M_size ts in
    list_sum (map snd b) = List.length ts
    /\ StronglySorted (fun x y => fst x < fst y) b
    /\ NoDup (map fst b)
    /\ (forall m n, In (m, n) b -> n = count_month m (map month_index ts))
    /\ (forall t, In t ts ->
          exists n, In (month_index t, n) b /\ (1 <= n)%nat).
Proof.
  intros ts. unfold resample_M_size.
  destruct (map month_index ts) as [| m0 rest] eqn:Hms.
  - destruct ts; [| discriminate]. simpl.
    repeat split; try constructor; intros; contradiction.
  - set (ms := m0 :: rest).
    set (lo := fold_left Z.min rest m0). set (hi := fold_left Z.max rest m0).
    assert (Hbounds : forall m, In m ms -> lo <= m <= hi).
    { destruct (fold_min_le rest m0) as [Hmin0 Hmin].
      destruct (fold_max_ge rest m0) as [Hmax0 Hmax].
      intros m [<- | Hm].
      - split; assumption.
      - split; [apply Hmin | apply Hmax]; exact Hm. }
    assert (Hlen : List.length ms = List.length ts).
    { unfold ms. rewrite <- Hms. apply length_map. }
    simpl. split.
    { rewrite map_map. simpl. rewrite <- Hlen. unfold count_month.
      apply (counts_sum_to_length Z Z.eqb Z_eqb_sym Z_eqb_trans).
      - apply sorted_distinct_Z. apply month_range_sorted.
      - intros x Hx. exists x. split; [| apply Z.eqb_refl].
        apply month_range_in. apply Hbounds. exact Hx. }
    split; [apply tabulate_sorted; apply month_range_sorted |].
    split.
    { rewrite map_map. simpl. rewrite map_id. apply sorted_NoDup_Z.
      apply month_range_sorted. }
    split.
    + intros m n Hin. apply in_map_iff in Hin.
      destruct Hin as [y [Hy _]]. injection Hy as <- <-. reflexivity.
    + intros t Ht.
      assert (Hm : In (month_index t) ms).
      { unfold ms. rewrite <- Hms. apply in_map. exact Ht. }
      exists (count_month (month_index t) ms). split.
      * apply in_map_iff. exists (month_index t). split; [reflexivity |].
        apply month_range_in. apply Hbounds. exact Hm.
      * apply count_month_positive. exact Hm.
Qed.

(** C7: [monthly_counts] counts the rows per calendar month of
    [review_date]; the counts add up to the row count, and the buckets come
    in strictly increasing order of month, so no month occurs twice. *)
Theorem C7_monthly_counts_sum_and_order :
  forall (df : DataFrame) (c : list value) (ts : list Z),
    well_formed df ->
    getitem df "review_date" = Ok c ->
    datetime_view "review_date" c = Ok ts ->
    exists b,
      monthly_counts df = Ok b
      /\ list_sum (map snd b) = len df
      /\ StronglySorted (fun x y => fst x < fst y) b
      /\ NoDup (map fst b)
      /\ (forall m n, In (m, n) b -> n = count_month m (map month_index ts))
      /\ (forall t, In t ts ->
            exists n, In (month_index t, n) b /\ (1 <= n)%nat).
Proof.
  intros df c ts Hwf Hc Hts. exists (resample_M_size ts).
  destruct (resample_M_size_spec ts) as [Hsum [Hsorted [Hnodup [Hcnt Hcov]]]].
  split.
  { unfold monthly_counts. rewrite Hc. simpl. rewrite Hts. reflexivity. }
  split.
  { rewrite Hsum. rewrite (datetime_view_length _ _ _ Hts).
    apply (well_formed_getitem df "review_date"); assumption. }
  repeat split; assumption.
Qed.

Lemma C7_witness :
  exists b,
    monthly_counts scenario_table = Ok b
    /\ list_sum (map snd b) = len scenario_table
    /\ StronglySorted (fun x y => fst x < fst y) b
    /\ NoDup (map fst b)
    /\ (forall m n, In (m, n) b ->
          n = count_month m
                (map month_index [1636928000000000; 1637014400000000]))
    /\ (forall t, In t [1636928000000000; 1637014400000000] ->
          exists n, In (month_index t, n) b /\ (1 <= n)%nat).
Proof.
  apply (C7_monthly_counts_sum_and_order scenario_table
           [VTime 1636928000000000; VTime 1637014400000000]
           [1636928000000000; 1637014400000000]).
  - unfold well_formed. simpl. repeat constructor.
  - reflexivity.
  - reflexivity.
Defined.

(** ** The summary *)

Lemma Qsum_fillna0 :
  forall xs, (Qsum (fillna0 xs) == Qsum (dropna_values xs))%Q.
Proof.
  induction xs as [| [q |] rest IH]; simpl.
  - reflexivity.
  - rewrite IH. reflexivity.
  - rewrite IH. lra.
Qed.




(** *** Rounding to the nearest integer *)

Lemma round_half_even_cases :
  forall q,
    round_half_even q = Qfloor q \/ round_half_even q = Qfloor q + 1.
Proof.
  intro q. unfold round_half_even.
  destruct (Qcompare (q - inject_Z (Qfloor q)) (1 # 2)); auto.
  destruct (Z.even (Qfloor q)); auto.
Qed.

Lemma round_half_even_monotone :
  forall q1 q2, (q1 <= q2)%Q -> round_half_even q1 <= round_half_even q2.
Proof.
  intros q1 q2 Hle.
  pose proof (Qfloor_resp_le q1 q2 Hle) as Hfloor.
  destruct (Z.eq_dec (Qfloor q1) (Qfloor q2)) as [Heq | Hne].
  - unfold round_half_even. rewrite <- Heq.
    destruct (Qcompare_spec (q1 - inject_Z (Qfloor q1)) (1 # 2))
      as [E1 | L1 | G1];
      destruct (Qcompare_spec (q2 - inject_Z (Qfloor q1)) (1 # 2))
        as [E2 | L2 | G2];
      try destruct (Z.even (Qfloor q1)); try lia; exfalso; lra.
  - destruct (round_half_even_cases q1) as [-> | ->];
      destruct (round_half_even_cases q2) as [-> | ->]; lia.
Qed.

Lemma round_half_even_integer :
  forall q k, (q == inject_Z k)%Q -> round_half_even q = k.
Proof.
  intros q k Hq. unfold round_half_even.
  assert (Hfloor : Qfloor q = k).
  { rewrite (Qfloor_comp _ _ Hq). apply Qfloor_Z. }
  rewrite Hfloor.
  destruct (Qcompare_spec (q - inject_Z k) (1 # 2)) as [E | L | Gt].
  - exfalso. lra.
  - reflexivity.
  - exfalso. lra.
Qed.


(** *** Rounding to float64 *)

Lemma two_not_zero : ~ (2 == 0)%Q.
Proof. intro H0. discriminate H0. Qed.

Lemma pow2_pos : forall e, (0 < pow2 e)%Q.
Proof. intro e. apply Qpower_0_lt. reflexivity. Qed.

Lemma pow2_nonzero : forall e, ~ (pow2 e == 0)%Q.
Proof. intros e H0. pose proof (pow2_pos e). lra. Qed.

Lemma pow2_plus : forall a b, (pow2 (a + b) == pow2 a * pow2 b)%Q.
Proof. intros a b. apply Qpower_plus. exact two_not_zero. Qed.

Lemma pow2_minus : forall a b, (pow2 a / pow2 b == pow2 (a - b))%Q.
Proof. intros a b. symmetry. apply Qpower_minus. exact two_not_zero. Qed.

Lemma pow2_le : forall a b, a <= b -> (pow2 a <= pow2 b)%Q.
Proof.
  intros a b Hab. apply Qpower_le_compat_l; [exact Hab | discriminate].
Qed.

Lemma pow2_Z : forall e, 0 <= e -> (pow2 e == inject_Z (2 ^ e))%Q.
Proof. intros e He. symmetry. apply (Zpower_Qpower 2 e He). Qed.

Lemma pow2_succ : forall e, (pow2 (e + 1) == 2 * pow2 e)%Q.
Proof. intro e. rewrite pow2_plus. change (pow2 1) with 2%Q. ring. Qed.

(** [floor_log2 q] is the exponent of the leading bit of [q]. *)
Lemma floor_log2_spec :
  forall q, (0 < q)%Q ->
    (pow2 (floor_log2 q) <= q)%Q /\ (q < pow2 (floor_log2 q + 1))%Q.
Proof.
  intros [n d] Hq.
  assert (Hn : 0 < n).
  { unfold Qlt in Hq. simpl in Hq. lia. }
  unfold floor_log2. simpl Qnum. simpl Qden.
  set (ln := Z.log2 n). set (ld := Z.log2 (Z.pos d)).
  pose proof (Z.log2_spec n Hn) as Hln. fold ln in Hln.
  pose proof (Z.log2_spec (Z.pos d) (Pos2Z.is_pos d)) as Hld. fold ld in Hld.
  assert (Hln0 : 0 <= ln) by apply Z.log2_nonneg.
  assert (Hld0 : 0 <= ld) by apply Z.log2_nonneg.
  replace (Z.succ ln) with (ln + 1) in Hln by lia.
  replace (Z.succ ld) with (ld + 1) in Hld by lia.
  assert (HA : (pow2 ln <= inject_Z n)%Q).
  { rewrite (pow2_Z ln Hln0). rewrite <- Zle_Qle. lia. }
  assert (HA' : (inject_Z n < 2 * pow2 ln)%Q).
  { rewrite <- pow2_succ. rewrite (pow2_Z (ln + 1)) by lia.
    rewrite <- Zlt_Qlt. lia. }
  assert (HB : (pow2 ld <= inject_Z (Z.pos d))%Q).
  { rewrite (pow2_Z ld Hld0). rewrite <- Zle_Qle. lia. }
  assert (HB' : (inject_Z (Z.pos d) < 2 * pow2 ld)%Q).
  { rewrite <- pow2_succ. rewrite (pow2_Z (ld + 1)) by lia.
    rewrite <- Zlt_Qlt. lia. }
  assert (Hq' : ((n # d) * inject_Z (Z.pos d) == inject_Z n)%Q).
  { rewrite (Qmake_Qdiv n d). field. intro H0. discriminate H0. }
  pose proof (pow2_pos ln) as HpA. pose proof (pow2_pos ld) as HpB.
  assert (Hk : (pow2 (ln - ld) * pow2 ld == pow2 ln)%Q).
  { rewrite <- pow2_plus. replace (ln - ld + ld) with ln by lia.
    reflexivity. }
  pose proof (pow2_pos (ln - ld)) as HpK.
  assert (Hup : (n # d < 2 * pow2 (ln - ld))%Q).
  { apply Qnot_le_lt. intro Hc.
    assert (H1 : (2 * pow2 (ln - ld) * inject_Z (Z.pos d)
                  <= (n # d) * inject_Z (Z.pos d))%Q).
    { apply Qmult_le_compat_r; [exact Hc |]. lra. }
    assert (H2 : (2 * pow2 (ln - ld) * pow2 ld
                  <= 2 * pow2 (ln - ld) * inject_Z (Z.pos d))%Q).
    { apply Qmult_le_l; [lra | exact HB]. }
    rewrite Hq' in H1.
    assert (H3 : (2 * pow2 (ln - ld) * pow2 ld == 2 * pow2 ln)%Q).
    { rewrite <- Hk. ring. }
    rewrite H3 in H2. lra. }
  assert (Hlow : (pow2 (ln - ld) <= 2 * (n # d))%Q).
  { apply Qnot_lt_le. intro Hc.
    assert (H1 : (2 * (n # d) * inject_Z (Z.pos d)
                  < pow2 (ln - ld) * inject_Z (Z.pos d))%Q).
    { apply Qmult_lt_compat_r; [lra | exact Hc]. }
    assert (H2 : (pow2 (ln - ld) * inject_Z (Z.pos d)
                  <= pow2 (ln - ld) * (2 * pow2 ld))%Q).
    { apply Qmult_le_l; [exact HpK | lra]. }
    assert (H3 : (2 * (n # d) * inject_Z (Z.pos d) == 2 * inject_Z n)%Q).
    { rewrite <- Hq'. ring. }
    assert (H4 : (pow2 (ln - ld) * (2 * pow2 ld) == 2 * pow2 ln)%Q).
    { rewrite <- Hk. ring. }
    rewrite H3 in H1. rewrite H4 in H2. lra. }
  destruct (Qle_bool (pow2 (ln - ld)) (n # d)) eqn:Hb.
  - apply Qle_bool_iff in Hb. split; [exact Hb |].
    rewrite pow2_succ. exact Hup.
  - assert (Hlt : (n # d < pow2 (ln - ld))%Q).
    { apply Qnot_le_lt. intro Hc. apply Qle_bool_iff in Hc. congruence. }
    replace (ln - ld - 1 + 1) with (ln - ld) by lia.
    split; [| exact Hlt].
    assert (Hs : (pow2 (ln - ld) == 2 * pow2 (ln - ld - 1))%Q).
    { rewrite <- pow2_succ. replace (ln - ld - 1 + 1) with (ln - ld) by lia.
      reflexivity. }
    rewrite Hs in Hlow. lra.
Qed.

Lemma float64_compat :
  forall x y, (x == y)%Q -> float64 x = float64 y.
Proof.
  intros x y Hxy. unfold float64. rewrite (Qred_complete x y Hxy).
  reflexivity.
Qed.

Lemma Qabs_inject_Z : forall z, (Qabs (inject_Z z) == inject_Z (Z.abs z))%Q.
Proof. intro z. destruct z; reflexivity. Qed.

Lemma Qabs_nonzero_pos : forall q, ~ (q == 0)%Q -> (0 < Qabs q)%Q.
Proof.
  intros q Hq. destruct (Qlt_le_dec 0 q) as [Hp | Hn].
  - rewrite Qabs_pos by lra. exact Hp.
  - rewrite Qabs_neg by exact Hn.
    destruct (Qlt_le_dec q 0) as [Hlt | Hge]; [lra |].
    exfalso. apply Hq. lra.
Qed.

Lemma Qnum_zero : forall q, Qnum q = 0 -> (q == 0)%Q.
Proof. intros [n d] Hn. simpl in Hn. subst n. reflexivity. Qed.

Lemma Qnum_nonzero : forall q, Qnum q <> 0 -> ~ (q == 0)%Q.
Proof.
  intros [n d] Hn Hq. apply Hn. unfold Qeq in Hq. simpl in *. lia.
Qed.

(** The exponent of the last bit of a number below [2^(53 + e0)]. *)
Lemma ulp_exponent_le :
  forall q e0,
    ~ (q == 0)%Q -> -1074 <= e0 ->
    (Qabs q < pow2 (53 + e0))%Q ->
    Z.max (floor_log2 (Qabs q) - 52) (-1074) <= e0.
Proof.
  intros q e0 Hq He0 Hlt.
  assert (Hpos : (0 < Qabs q)%Q) by (apply Qabs_nonzero_pos; exact Hq).
  destruct (floor_log2_spec (Qabs q) Hpos) as [Hlo _].
  assert (HE : floor_log2 (Qabs q) < 53 + e0).
  { destruct (Z_lt_le_dec (floor_log2 (Qabs q)) (53 + e0)) as [Hl | Hg];
      [exact Hl |].
    pose proof (pow2_le _ _ Hg). lra. }
  lia.
Qed.

(** A number [m * 2^e0] with at most 53 bits in [m] and an exponent in the
    subnormal range or above is a float64. *)
Lemma float64_fixed :
  forall (m e0 : Z),
    -1074 <= e0 -> Z.abs m < 2 ^ 53 ->
    (float64 (inject_Z m * pow2 e0) == inject_Z m * pow2 e0)%Q.
Proof.
  intros m e0 He0 Hm. unfold float64.
  set (x := (inject_Z m * pow2 e0)%Q).
  assert (Hqx : (Qred x == x)%Q) by apply Qred_correct.
  destruct (Qnum (Qred x) =? 0) eqn:Hz.
  - apply Z.eqb_eq in Hz. rewrite <- Hqx. symmetry. apply Qnum_zero.
    exact Hz.
  - apply Z.eqb_neq in Hz. apply Qnum_nonzero in Hz.
    set (e := Z.max (floor_log2 (Qabs (Qred x)) - 52) (-1074)).
    assert (He : e <= e0).
    { apply ulp_exponent_le; [exact Hz | exact He0 |].
      rewrite Hqx. unfold x. rewrite Qabs_Qmult.
      rewrite (Qabs_pos (pow2 e0)) by (apply Qlt_le_weak, pow2_pos).
      rewrite Qabs_inject_Z. rewrite pow2_plus.
      apply Qmult_lt_compat_r; [apply pow2_pos |].
      rewrite (pow2_Z 53) by lia. rewrite <- Zlt_Qlt. exact Hm. }
    assert (Hdiv : (Qred x / pow2 e == inject_Z (m * 2 ^ (e0 - e)))%Q).
    { rewrite Hqx. unfold x. rewrite inject_Z_mult.
      rewrite <- (pow2_Z (e0 - e)) by lia. rewrite <- pow2_minus.
      field. apply pow2_nonzero. }
    rewrite (round_half_even_integer _ _ Hdiv).
    rewrite inject_Z_mult. rewrite <- (pow2_Z (e0 - e)) by lia.
    unfold x. rewrite <- Qmult_assoc. rewrite <- pow2_plus.
    replace (e0 - e + e) with e0 by lia. reflexivity.
Qed.



Lemma float64_integer :
  forall z, Z.abs z < 2 ^ 53 -> (float64 (inject_Z z) == inject_Z z)%Q.
Proof.
  intros z Hz.
  assert (Heq : (inject_Z z == inject_Z z * pow2 0)%Q).
  { change (pow2 0) with 1%Q. ring. }
  rewrite (float64_compat _ _ Heq). rewrite Heq at 2.
  apply float64_fixed; [lia | exact Hz].
Qed.

Lemma is_whole_spec :
  forall q, is_whole q = true <-> (q == inject_Z (Qfloor q))%Q.
Proof. intro q. unfold is_whole. apply Qeq_bool_iff. Qed.

Lemma is_whole_compat :
  forall p q, (p == q)%Q -> is_whole p = is_whole q.
Proof.
  intros p q Hpq. unfold is_whole.
  rewrite (Qfloor_comp _ _ Hpq).
  destruct (Qeq_bool q (inject_Z (Qfloor q))) eqn:E.
  - apply Qeq_bool_iff. apply Qeq_bool_iff in E. rewrite Hpq. exact E.
  - destruct (Qeq_bool p (inject_Z (Qfloor q))) eqn:E'; [| reflexivity].
    apply Qeq_bool_iff in E'. rewrite Hpq in E'.
    apply Qeq_bool_iff in E'. congruence.
Qed.

Lemma is_whole_plus :
  forall p q, is_whole p = true -> is_whole q = true ->
              is_whole (p + q) = true.
Proof.
  intros p q Hp Hq. apply is_whole_spec in Hp, Hq. apply is_whole_spec.
  assert (Hsum : (p + q == inject_Z (Qfloor p + Qfloor q))%Q).
  { rewrite inject_Z_plus. rewrite <- Hp, <- Hq. reflexivity. }
  rewrite (Qfloor_comp _ _ Hsum). rewrite Qfloor_Z. exact Hsum.
Qed.

(** A whole number below [2^53] in magnitude is a float64. *)
Lemma float64_whole :
  forall q,
    is_whole q = true -> (Qabs q < inject_Z (2 ^ 53))%Q ->
    (float64 q == q)%Q.
Proof.
  intros q Hw Hlt. apply is_whole_spec in Hw.
  rewrite (float64_compat _ _ Hw). rewrite Hw at 2.
  apply float64_integer. rewrite Hw in Hlt. rewrite Qabs_inject_Z in Hlt.
  rewrite <- Zlt_Qlt in Hlt. exact Hlt.
Qed.

(** Rounding to float64 does not cross a whole number below [2^53]. *)
Lemma float64_between :
  forall (lo hi : Z) (x : Q),
    Z.abs lo < 2 ^ 53 -> Z.abs hi < 2 ^ 53 ->
    (inject_Z lo <= x)%Q -> (x <= inject_Z hi)%Q ->
    (inject_Z lo <= float64 x)%Q /\ (float64 x <= inject_Z hi)%Q.
Proof.
  intros lo hi x Hlo Hhi Hl Hh. unfold float64.
  assert (Hqx : (Qred x == x)%Q) by apply Qred_correct.
  set (q := Qred x) in *. rewrite <- Hqx in Hl, Hh.
  destruct (Qnum q =? 0) eqn:Hz.
  - apply Z.eqb_eq in Hz. apply Qnum_zero in Hz. rewrite Hz in Hl, Hh.
    split; assumption.
  - apply Z.eqb_neq in Hz. apply Qnum_nonzero in Hz.
    set (e := Z.max (floor_log2 (Qabs q) - 52) (-1074)).
    assert (He : e <= 0).
    { apply ulp_exponent_le; [exact Hz | lia |].
      change (53 + 0) with 53. rewrite (pow2_Z 53) by lia.
      apply Qabs_case; intros _.
      - eapply Qle_lt_trans; [exact Hh |]. rewrite <- Zlt_Qlt. lia.
      - apply Qle_lt_trans with (y := inject_Z (- lo)).
        + rewrite inject_Z_opp. lra.
        + rewrite <- Zlt_Qlt. lia. }
    assert (HP : (pow2 e * inject_Z (2 ^ (- e)) == 1)%Q).
    { rewrite <- (pow2_Z (- e)) by lia. rewrite <- pow2_plus.
      replace (e + - e) with 0 by lia. reflexivity. }
    pose proof (pow2_pos e) as Hpe.
    assert (Hdiv : (q / pow2 e == q * inject_Z (2 ^ (- e)))%Q).
    { apply Qmult_inj_r with (z := pow2 e); [apply pow2_nonzero |].
      rewrite <- Qmult_assoc. rewrite (Qmult_comm (inject_Z _)). rewrite HP.
      field. apply pow2_nonzero. }
    assert (HPpos : (0 < inject_Z (2 ^ (- e)))%Q).
    { rewrite <- (pow2_Z (- e)) by lia. apply pow2_pos. }
    assert (H1 : lo * 2 ^ (- e) <= round_half_even (q / pow2 e)).
    { rewrite <- (round_half_even_integer
                    (inject_Z (lo * 2 ^ (- e))) (lo * 2 ^ (- e)))
        by reflexivity.
      apply round_half_even_monotone. rewrite Hdiv, inject_Z_mult.
      apply Qmult_le_compat_r; [exact Hl | lra]. }
    assert (H2 : round_half_even (q / pow2 e) <= hi * 2 ^ (- e)).
    { rewrite <- (round_half_even_integer
                    (inject_Z (hi * 2 ^ (- e))) (hi * 2 ^ (- e)))
        by reflexivity.
      apply round_half_even_monotone. rewrite Hdiv, inject_Z_mult.
      apply Qmult_le_compat_r; [exact Hh | lra]. }
    rewrite Zle_Qle in H1, H2. rewrite inject_Z_mult in H1, H2.
    set (m := inject_Z (round_half_even (q / pow2 e))) in *.
    set (P := inject_Z (2 ^ (- e))) in *.
    split.
    + assert (Hm : (inject_Z lo * P * pow2 e <= m * pow2 e)%Q).
      { apply Qmult_le_compat_r; [exact H1 | lra]. }
      assert (Hs : (inject_Z lo * P * pow2 e == inject_Z lo)%Q).
      { rewrite <- Qmult_assoc. rewrite (Qmult_comm P). rewrite HP. ring. }
      rewrite Hs in Hm. exact Hm.
    + assert (Hm : (m * pow2 e <= inject_Z hi * P * pow2 e)%Q).
      { apply Qmult_le_compat_r; [exact H2 | lra]. }
      assert (Hs : (inject_Z hi * P * pow2 e == inject_Z hi)%Q).
      { rewrite <- Qmult_assoc. rewrite (Qmult_comm P). rewrite HP. ring. }
      rewrite Hs in Hm. exact Hm.
Qed.

(** *** Sums of float64 values *)

Lemma fold_float_add_compat :
  forall l a a',
    (a == a')%Q ->
    (fold_left float_add l a == fold_left float_add l a')%Q.
Proof.
  intros [| b l] a a' Ha; simpl.
  - exact Ha.
  - unfold float_add at 2 4.
    assert (Hs : (a + b == a' + b)%Q) by (rewrite Ha; reflexivity).
    rewrite (float64_compat _ _ Hs). reflexivity.
Qed.

Lemma magnitude_nonneg : forall l, (0 <= magnitude l)%Q.
Proof.
  unfold magnitude. induction l as [| q l IH]; simpl.
  - lra.
  - pose proof (Qabs_nonneg q). lra.
Qed.

(** Adding whole numbers whose magnitudes stay below [2^53] is exact. *)
Lemma float_sum_exact :
  forall l a,
    is_whole a = true ->
    forallb is_whole l = true ->
    (Qabs a + magnitude l < inject_Z (2 ^ 53))%Q ->
    (fold_left float_add (map float64 l) a == a + Qsum l)%Q.
Proof.
  induction l as [| q l IH]; intros a Ha Hl Hb.
  - simpl. ring.
  - simpl in Hl. apply andb_prop in Hl. destruct Hl as [Hq Hl].
    change (magnitude (q :: l)) with (Qabs q + magnitude l)%Q in Hb.
    pose proof (magnitude_nonneg l) as Hm.
    pose proof (Qabs_nonneg a) as Ha0. pose proof (Qabs_nonneg q) as Hq0.
    assert (Hfq : (float64 q == q)%Q).
    { apply float64_whole; [exact Hq | lra]. }
    assert (Hsum : (a + float64 q == a + q)%Q) by (rewrite Hfq; reflexivity).
    assert (Hw : is_whole (a + q) = true) by (apply is_whole_plus; assumption).
    pose proof (Qabs_triangle a q) as Htri.
    assert (Hstep : (float_add a (float64 q) == a + q)%Q).
    { unfold float_add. rewrite (float64_compat _ _ Hsum).
      apply float64_whole; [exact Hw | lra]. }
    simpl.
    rewrite (fold_float_add_compat _ _ _ Hstep).
    rewrite IH.
    + ring.
    + exact Hw.
    + exact Hl.
    + lra.
Qed.



Lemma forallb_is_whole_fillna0 :
  forall xs,
    forallb is_whole (dropna_values xs) = true ->
    forallb is_whole (fillna0 xs) = true.
Proof.
  induction xs as [| [q |] xs IH]; simpl; intro Hall.
  - reflexivity.
  - apply andb_prop in Hall. destruct Hall as [Hq Hall].
    rewrite Hq. simpl. apply IH. exact Hall.
  - apply IH. exact Hall.
Qed.

Lemma magnitude_fillna0 :
  forall xs, (magnitude (fillna0 xs) == magnitude (dropna_values xs))%Q.
Proof.
  unfold magnitude. induction xs as [| [q |] xs IH]; simpl.
  - reflexivity.
  - rewrite IH. reflexivity.
  - rewrite IH. change (Qabs 0) with 0%Q. ring.
Qed.

Lemma whole_ratings_inv :
  forall xs,
    whole_ratings xs = true ->
    forallb is_whole (dropna_values xs) = true
    /\ (magnitude (dropna_values xs) < inject_Z (2 ^ 53))%Q.
Proof.
  intros xs Hw. unfold whole_ratings in Hw.
  apply andb_prop in Hw. destruct Hw as [Hall Hmag]. split; [exact Hall |].
  apply negb_true_iff in Hmag. apply Qnot_le_lt. intro Hc.
  apply Qle_bool_iff in Hc. congruence.
Qed.

(** *** The mean *)

Lemma nanmean_none :
  forall xs, dropna_values xs = [] -> nanmean xs = None.
Proof.
  intros xs Hnone. unfold nanmean. rewrite count_notna_dropna, Hnone.
  reflexivity.
Qed.

Lemma nanmean_some :
  forall xs, dropna_values xs <> [] -> exists m, nanmean xs = Some m.
Proof.
  intros xs Hne. unfold nanmean. rewrite count_notna_dropna.
  destruct (dropna_values xs) as [| q rest]; [contradiction |].
  simpl. eexists. reflexivity.
Qed.

Lemma nanmean_some_inv :
  forall xs m, nanmean xs = Some m -> dropna_values xs <> [].
Proof.
  intros xs m Hm Hnil. rewrite (nanmean_none xs Hnil) in Hm. discriminate.
Qed.

(** The mean of whole ratings is the float64 nearest to their sum over
    their number. *)
Lemma nanmean_whole :
  forall xs,
    whole_ratings xs = true ->
    dropna_values xs <> [] ->
    exists m,
      nanmean xs = Some m
      /\ (m == float64 (Qsum (dropna_values xs)
                        / inject_Z (Z.of_nat
                                      (List.length (dropna_values xs)))))%Q.
Proof.
  intros xs Hw Hne. destruct (whole_ratings_inv xs Hw) as [Hall Hmag].
  unfold nanmean. rewrite count_notna_dropna.
  destruct (0 <? List.length (dropna_values xs))%nat eqn:E.
  - eexists. split; [reflexivity |].
    assert (Hsum : (float_sum (map float64 (fillna0 xs))
                    == Qsum (dropna_values xs))%Q).
    { unfold float_sum. rewrite float_sum_exact.
      - rewrite Qsum_fillna0. ring.
      - reflexivity.
      - apply forallb_is_whole_fillna0. exact Hall.
      - rewrite magnitude_fillna0. change (Qabs 0) with 0%Q. lra. }
    assert (Hquot :
              (float_sum (map float64 (fillna0 xs))
               / inject_Z (Z.of_nat (List.length (dropna_values xs)))
               == Qsum (dropna_values xs)
                  / inject_Z (Z.of_nat (List.length (dropna_values xs))))%Q).
    { rewrite Hsum. reflexivity. }
    rewrite (float64_compat _ _ Hquot). reflexivity.
  - exfalso. destruct (dropna_values xs); [contradiction | discriminate].
Qed.





(** One rating 5 and thirty-nine ratings 4: the mean is the float64
    nearest to 4.025, which lies above it, and the page shows 4.03. *)
Example forty_ratings_display :
  exists s,
    summary table_with_forty_ratings = Ok s
    /\ same_number (mean_rating s) (Some (float64 (161 # 40)))
    /\ mean_text s = "4.03".
Proof.
  eexists. split; [reflexivity |].
  split; vm_compute; reflexivity.
Qed.

(** The scenario of the specification: two rows, mean rating 4.00. *)
Example scenario_summary :
  exists s,
    summary scenario_table = Ok s
    /\ title s = VStr "Cafe X"
    /\ category s = VStr "Cafe"
    /\ reviews_count s = VInt 2
    /\ same_number (mean_rating s) (Some 4%Q)
    /\ mean_text s = "4.00".
Proof.
  eexists. split; [reflexivity |]. repeat split; vm_compute; reflexivity.
Qed.

(** A single row: the mean is the rating of that row. *)
Example single_row_summary :
  exists s,
    summary (mkDF 1 [("title", [VStr "Cafe X"]);
                     ("categoryName", [VStr "Cafe"]);
                     ("reviewsCount", [VInt 1]); ("stars", [VInt 4])])
    = Ok s
    /\ same_number (mean_rating s) (Some 4%Q)
    /\ mean_text s = "4.00".
Proof.
  eexists. split; [reflexivity |]. split; vm_compute; reflexivity.
Qed.

(** Zero rows: the first-row lookup is out of bounds. *)
Example zero_row_summary :
  summary (mkDF 0 [("title", []); ("categoryName", []);
                   ("reviewsCount", []); ("stars", [])])
  = Raise IndexError.
Proof. reflexivity. Qed.

(** ** Missing ratings *)




Section MissingRatings.

Context {G : Type} `{RandomSource G}.
Variable floatify : string -> option scalar.

Lemma convert_numeric_is_numeric :
  forall p v x, convert_numeric floatify p v = Ok x -> is_numeric x = true.
Proof.
  intros p v x. destruct v as [| b | z | f | s | l | l | t]; simpl;
    try (intro Hx; injection Hx as <-; reflexivity); try discriminate.
  - destruct s as [| a s']; [intro Hx; injection Hx as <-; reflexivity |].
    destruct (floatify (String a s')) as [[z | q |] |]; try discriminate;
      intro Hx; injection Hx as <-; reflexivity.
  - destruct l; [intro Hx; injection Hx as <-; reflexivity | discriminate].
  - destruct l; [intro Hx; injection Hx as <-; reflexivity | discriminate].
Qed.

Lemma numeric_view_ok :
  forall col c,
    Forall (fun v => is_numeric v = true) c ->
    exists xs,
      numeric_view col c = Ok xs
      /\ forall i, nth_error c i = Some VNull -> nth_error xs i = Some None.
Proof.
  intros col c Hall. induction Hall as [| v rest Hv Hrest IH].
  - exists []. split; [reflexivity |]. intros [| i]; discriminate.
  - destruct IH as [xs [Hxs Hnull]].
    destruct v; try discriminate; simpl; rewrite Hxs; simpl;
      eexists; (split; [reflexivity |]);
      intros [| i] Hi; simpl in *; try discriminate; try reflexivity;
      apply Hnull; exact Hi.
Qed.

Lemma unify_numeric_is_numeric :
  forall c,
    Forall (fun v => is_numeric v = true) c ->
    Forall (fun v => is_numeric v = true) (unify_numeric c).
Proof.
  intros c Hall. unfold unify_numeric.
  destruct (existsb is_float_or_null c).
  - apply Forall_map. eapply Forall_impl; [| exact Hall].
    intros [| b | z | f | s | l | l | t]; simpl; auto.
  - destruct (existsb is_int c); [| exact Hall].
    apply Forall_map. eapply Forall_impl; [| exact Hall].
    intros [| b | z | f | s | l | l | t]; simpl; auto.
Qed.

Lemma unify_numeric_null :
  forall c i,
    nth_error c i = Some VNull -> nth_error (unify_numeric c) i = Some VNull.
Proof.
  intros c i Hi. unfold unify_numeric.
  assert (Hex : existsb is_float_or_null c = true).
  { apply existsb_exists. exists VNull. split; [| reflexivity].
    eapply nth_error_In. exact Hi. }
  rewrite Hex. rewrite nth_error_map, Hi. reflexivity.
Qed.

Lemma Forall2_nth_left :
  forall (A B : Type) (R : A -> B -> Prop) (l : list A) (l' : list B) i a,
    Forall2 R l l' -> nth_error l i = Some a ->
    exists b, nth_error l' i = Some b /\ R a b.
Proof.
  intros A B R l l' i a Hrel. revert i.
  induction Hrel as [| x y l l' Hxy Hrel IH]; intros [| i] Hi;
    simpl in *; try discriminate.
  - injection Hi as ->. exists y. split; [reflexivity | exact Hxy].
  - apply IH. exact Hi.
Qed.

(** What [to_numeric] returns is a numeric column, with a missing entry
    wherever the cell was missing. *)
Lemma to_numeric_result :
  forall c stars,
    to_numeric floatify c = Ok stars ->
    Forall (fun v => is_numeric v = true) stars
    /\ forall i, nth_error c i = Some VNull -> nth_error stars i = Some VNull.
Proof.
  intros c stars Hnum. unfold to_numeric in Hnum. bind_inv Hnum.
  injection Hnum as <-.
  pose proof (maybe_convert_numeric_ok_inv floatify _ _ _ Ha) as Hrel.
  split.
  - apply unify_numeric_is_numeric. apply Forall_forall. intros x Hx.
    apply In_nth_error in Hx. destruct Hx as [i Hi].
    assert (Hrel' : Forall2 (fun x v => convert_numeric floatify 0 v = Ok x)
                            a c).
    { clear -Hrel. induction Hrel; constructor; assumption. }
    destruct (Forall2_nth_left _ _ _ _ _ _ _ Hrel' Hi) as [v [_ Hv]].
    eapply convert_numeric_is_numeric. exact Hv.
  - intros i Hi. apply unify_numeric_null.
    destruct (Forall2_nth_left _ _ _ _ _ _ _ Hrel Hi) as [x [Hx Hconv]].
    simpl in Hconv. injection Hconv as <-. exact Hx.
Qed.



End MissingRatings.



(** ** The transfer format *)

Lemma append_assoc :
  forall a b c : string, ((a ++ b) ++ c)%string = (a ++ (b ++ c))%string.
Proof.
  induction a as [| x a IH]; intros b c; simpl.
  - reflexivity.
  - rewrite IH. reflexivity.
Qed.

Lemma append_nil_r : forall a : string, (a ++ EmptyString)%string = a.
Proof.
  induction a as [| x a IH]; simpl; [reflexivity | rewrite IH; reflexivity].
Qed.

Lemma special_false :
  forall c,
    special c = false ->
    Ascii.eqb c delimiter = false /\ Ascii.eqb c quotechar = false
    /\ Ascii.eqb c LF = false.
Proof.
  intros c Hc. unfold special, lineterminator in Hc. simpl in Hc.
  apply orb_false_elim in Hc. destruct Hc as [Hc Hlf].
  apply orb_false_elim in Hc. destruct Hc as [Hd Hq].
  apply orb_false_elim in Hlf. destruct Hlf as [Hlf _].
  repeat split; assumption.
Qed.

(** An unquoted field is read up to the character that ends it. *)
Lemma read_plain :
  forall f fld row rest,
    string_exists special f = false ->
    read_csv InField fld row (f ++ rest)
    = read_csv InField (fld ++ f) row rest.
Proof.
  induction f as [| c f IH]; intros fld row rest Hplain.
  - simpl. rewrite append_nil_r. reflexivity.
  - simpl in Hplain. apply orb_false_elim in Hplain.
    destruct Hplain as [Hc Hf].
    destruct (special_false c Hc) as [Hd [_ Hlf]].
    simpl. rewrite Hd, Hlf. rewrite (IH _ _ _ Hf). unfold snoc.
    rewrite append_assoc. reflexivity.
Qed.

(** A quoted field is read up to its closing quote, doubled quotes being
    read as one. *)
Lemma read_quoted :
  forall f fld row rest,
    read_csv InQuoted fld row (double_quotes f ++ String quotechar rest)
    = read_csv QuoteInQuoted (fld ++ f) row rest.
Proof.
  induction f as [| c f IH]; intros fld row rest.
  - simpl. rewrite append_nil_r. reflexivity.
  - simpl. destruct (Ascii.eqb c quotechar) eqn:Hq.
    + simpl. rewrite Hq. rewrite IH. unfold snoc.
      rewrite append_assoc. reflexivity.
    + simpl. rewrite Hq. rewrite IH. unfold snoc.
      rewrite append_assoc. reflexivity.
Qed.

Lemma read_field_delimiter :
  forall f st row rest,
    st = StartRow \/ st = StartField ->
    read_csv st EmptyString row (csv_field f ++ String delimiter rest)
    = read_csv StartField EmptyString (row ++ [f]) rest.
Proof.
  intros f st row rest Hst. unfold csv_field.
  destruct (string_exists special f) eqn:E.
  - replace ((String quotechar (double_quotes f ++ String quotechar EmptyString)
              ++ String delimiter rest)%string)
      with (String quotechar
              (double_quotes f
               ++ String quotechar (String delimiter rest))%string)
      by (simpl; rewrite append_assoc; reflexivity).
    destruct Hst as [-> | ->]; simpl; rewrite read_quoted; reflexivity.
  - destruct f as [| c f].
    + destruct Hst as [-> | ->]; reflexivity.
    + simpl in E. apply orb_false_elim in E. destruct E as [Hc Hf].
      destruct (special_false c Hc) as [Hd [Hq Hlf]].
      destruct Hst as [-> | ->]; simpl; rewrite Hq, Hd, Hlf;
        rewrite (read_plain _ _ _ _ Hf); reflexivity.
Qed.

Lemma read_field_newline :
  forall f st row rest,
    st = StartField \/ (st = StartRow /\ f <> EmptyString) ->
    read_csv st EmptyString row (csv_field f ++ String LF rest)
    = (row ++ [f]) :: read_csv StartRow EmptyString [] rest.
Proof.
  intros f st row rest Hst. unfold csv_field.
  destruct (string_exists special f) eqn:E.
  - replace ((String quotechar (double_quotes f ++ String quotechar EmptyString)
              ++ String LF rest)%string)
      with (String quotechar
              (double_quotes f ++ String quotechar (String LF rest))%string)
      by (simpl; rewrite append_assoc; reflexivity).
    destruct Hst as [-> | [-> _]]; simpl; rewrite read_quoted; reflexivity.
  - destruct f as [| c f].
    + destruct Hst as [-> | [_ Hne]]; [reflexivity | contradiction].
    + simpl in E. apply orb_false_elim in E. destruct E as [Hc Hf].
      destruct (special_false c Hc) as [Hd [Hq Hlf]].
      destruct Hst as [-> | [-> _]]; simpl; rewrite Hq, Hd, Hlf;
        rewrite (read_plain _ _ _ _ Hf); reflexivity.
Qed.

Lemma read_fields :
  forall fields st row rest,
    fields <> [] ->
    st = StartField \/ (st = StartRow /\ fields <> [EmptyString]) ->
    read_csv st EmptyString row
      (join_fields (map csv_field fields) ++ String LF rest)
    = (row ++ fields) :: read_csv StartRow EmptyString [] rest.
Proof.
  induction fields as [| f more IH]; intros st row rest Hne Hst.
  - contradiction.
  - destruct more as [| f2 more'].
    + simpl. apply read_field_newline.
      destruct Hst as [Hst | [Hst Hlone]]; [left; exact Hst |].
      right. split; [exact Hst |]. intro Hf. apply Hlone. rewrite Hf.
      reflexivity.
    + replace (join_fields (map csv_field (f :: f2 :: more'))
               ++ String LF rest)%string
        with (csv_field f
              ++ String delimiter
                   (join_fields (map csv_field (f2 :: more'))
                    ++ String LF rest))%string
        by (simpl; rewrite append_assoc; reflexivity).
      rewrite read_field_delimiter
        by (destruct Hst as [-> | [-> _]]; [right | left]; reflexivity).
      rewrite IH; [| discriminate | left; reflexivity].
      rewrite <- app_assoc. reflexivity.
Qed.

Lemma read_csv_row :
  forall fields rest,
    fields <> [] ->
    read_csv StartRow EmptyString [] (csv_row fields ++ rest)
    = fields :: read_csv StartRow EmptyString [] rest.
Proof.
  intros fields rest Hne.
  destruct fields as [| f more]; [contradiction |].
  destruct more as [| f2 more'].
  - destruct f as [| c f].
    + reflexivity.
    + unfold csv_row, lineterminator. rewrite append_assoc. simpl append at 2.
      rewrite read_fields; [reflexivity | discriminate |].
      right. split; [reflexivity | discriminate].
  - replace (csv_row (f :: f2 :: more'))
      with (join_fields (map csv_field (f :: f2 :: more'))
            ++ lineterminator)%string
      by (destruct f; reflexivity).
    unfold lineterminator. rewrite append_assoc. simpl append at 2.
    rewrite read_fields; [reflexivity | discriminate |].
    right. split; [reflexivity | discriminate].
Qed.

(** Reading a written file gives the rows back. *)
Lemma parse_csv_file :
  forall rows,
    Forall (fun r => r <> []) rows -> parse_csv (csv_file rows) = rows.
Proof.
  unfold parse_csv, csv_file. induction rows as [| r rows IH]; intro Hall.
  - reflexivity.
  - inversion Hall as [| r' rows' Hr Hrows]; subst. simpl.
    rewrite (read_csv_row r _ Hr). rewrite (IH Hrows). reflexivity.
Qed.

(** *** Text mode *)

Lemma universal_newlines_id :
  forall (s : string), has_cr s = false -> universal_newlines s = s.
Proof.
  induction s as [| c s IH]; intro Hs.
  - reflexivity.
  - unfold has_cr in Hs. simpl in Hs. apply orb_false_elim in Hs.
    destruct Hs as [Hc Hs]. simpl. rewrite Hc. rewrite (IH Hs). reflexivity.
Qed.

Lemma has_cr_append :
  forall a b, has_cr (a ++ b)%string = has_cr a || has_cr b.
Proof.
  unfold has_cr. induction a as [| c a IH]; intro b; simpl.
  - reflexivity.
  - rewrite IH. rewrite orb_assoc. reflexivity.
Qed.

Lemma has_cr_double_quotes :
  forall s, has_cr (double_quotes s) = has_cr s.
Proof.
  unfold has_cr. induction s as [| c s IH]; simpl.
  - reflexivity.
  - destruct (Ascii.eqb c quotechar) eqn:Hq; simpl; rewrite IH.
    + destruct (Ascii.eqb c CR); reflexivity.
    + reflexivity.
Qed.

Lemma has_cr_csv_field : forall f, has_cr (csv_field f) = has_cr f.
Proof.
  intro f. unfold csv_field. destruct (string_exists special f).
  - change (String quotechar
              (double_quotes f ++ String quotechar EmptyString))%string
      with (String quotechar EmptyString
            ++ (double_quotes f ++ String quotechar EmptyString))%string.
    rewrite !has_cr_append, has_cr_double_quotes.
    change (has_cr (String quotechar EmptyString)) with false.
    simpl. apply orb_false_r.
  - reflexivity.
Qed.

Lemma has_cr_join_fields :
  forall fs,
    Forall (fun f => has_cr f = false) fs ->
    has_cr (join_fields (map csv_field fs)) = false.
Proof.
  induction fs as [| f more IH]; intro Hall.
  - reflexivity.
  - inversion Hall as [| f' more' Hf Hmore]; subst.
    destruct more as [| f2 more'].
    + simpl. rewrite has_cr_csv_field. exact Hf.
    + change (join_fields (map csv_field (f :: f2 :: more')))
        with (csv_field f
              ++ String delimiter
                   (join_fields (map csv_field (f2 :: more'))))%string.
      rewrite has_cr_append, has_cr_csv_field, Hf.
      change (String delimiter
                (join_fields (map csv_field (f2 :: more'))))
        with (String delimiter EmptyString
              ++ join_fields (map csv_field (f2 :: more')))%string.
      rewrite has_cr_append. rewrite (IH Hmore). reflexivity.
Qed.

Lemma has_cr_csv_row :
  forall fs,
    Forall (fun f => has_cr f = false) fs -> has_cr (csv_row fs) = false.
Proof.
  intros fs Hall.
  assert (Hgen : has_cr (join_fields (map csv_field fs) ++ lineterminator)
                 = false).
  { rewrite has_cr_append, (has_cr_join_fields fs Hall). reflexivity. }
  destruct fs as [| f [| f2 more]]; try exact Hgen.
  - destruct f; [reflexivity | exact Hgen].
  - destruct f; exact Hgen.
Qed.

Lemma has_cr_csv_file :
  forall rows,
    Forall (Forall (fun f => has_cr f = false)) rows ->
    has_cr (csv_file rows) = false.
Proof.
  unfold csv_file. induction rows as [| r rows IH]; intro Hall.
  - reflexivity.
  - inversion Hall as [| r' rows' Hr Hrows]; subst. simpl.
    rewrite has_cr_append, (has_cr_csv_row r Hr), (IH Hrows). reflexivity.
Qed.

(** *** The projection, written, read back and parsed *)

Lemma rows_of_two :
  forall n cs ct,
    List.length cs = n -> List.length ct = n ->
    rows_of n [cs; ct] = map (fun p => [fst p; snd p]) (combine cs ct).
Proof.
  induction n as [| n IH]; intros cs ct Hcs Hct.
  - destruct cs; [| discriminate]. reflexivity.
  - destruct cs as [| s cs]; [discriminate |].
    destruct ct as [| t ct]; [discriminate |].
    simpl in *. injection Hcs as Hcs. injection Hct as Hct.
    rewrite (IH cs ct Hcs Hct). reflexivity.
Qed.

Section RoundTrip.

Variable repr_float : Q -> string.
Variable str_object : value -> string.
Variable parse_number : string -> option value.

Lemma parse_rows_cells :
  forall pairs,
    Forall (transferable repr_float str_object parse_number) pairs ->
    parse_rows parse_number (map (cells_of_pair repr_float str_object) pairs) = Some pairs.
Proof.
  induction pairs as [| [s t] pairs IH]; intro Hall.
  - reflexivity.
  - inversion Hall as [| st pairs' [[x [Hx _]] [_ Hparse]] Hrest]; subst.
    simpl in *. subst t. simpl. rewrite Hparse. rewrite (IH Hrest).
    reflexivity.
Qed.

Lemma cells_without_cr :
  forall pairs,
    Forall (transferable repr_float str_object parse_number) pairs ->
    Forall (Forall (fun f => has_cr f = false)) (map (cells_of_pair repr_float str_object) pairs).
Proof.
  intros pairs Hall. apply Forall_map. eapply Forall_impl; [| exact Hall].
  intros [s t] [[x [Hx Hcr]] [Hs _]]. simpl in *. subst t.
  unfold cells_of_pair. simpl. repeat constructor; assumption.
Qed.

Lemma to_csv_projected :
  forall cs ct,
    List.length cs = List.length ct ->
    to_csv repr_float str_object (projected cs ct)
    = csv_file (["stars"; "text"]
                :: map (cells_of_pair repr_float str_object)
                     (filter (fun st => notna (snd st)) (combine cs ct))).
Proof.
  intros cs ct Hlen. unfold to_csv, projected. simpl.
  assert (Hmask : List.length (map notna ct) = List.length ct)
    by apply length_map.
  rewrite rows_of_two
    by (apply filter_mask_length_le; congruence).
  rewrite (combine_filter_mask cs ct Hlen). rewrite map_map. reflexivity.
Qed.

(** C9, amended: for a table whose rows with a text are transferable (the
    text is a string without carriage return, the rating prints to a text
    that reads back), writing the two-column projection, reading the file
    back as the script does and parsing it yields the (rating, text) pairs
    of the projection, in order. *)
Theorem C9_round_trip_without_carriage_return :
  forall (df : DataFrame) (cs ct : list value),
    well_formed df ->
    getitem df "stars" = Ok cs ->
    getitem df "text" = Ok ct ->
    Forall (transferable repr_float str_object parse_number) (filter (fun st => notna (snd st)) (combine cs ct)) ->
    exists p text,
      project_for_ai df = Ok p
      /\ pairs_of p = Ok (filter (fun st => notna (snd st)) (combine cs ct))
      /\ csv_data repr_float str_object df = Ok text
      /\ parse_pairs parse_number text
         = Some (filter (fun st => notna (snd st)) (combine cs ct)).
Proof.
  intros df cs ct Hwf Hs Ht Hall.
  pose proof (well_formed_getitem df _ _ Hwf Hs) as Hls.
  pose proof (well_formed_getitem df _ _ Hwf Ht) as Hlt.
  assert (Hlen : List.length cs = List.length ct) by congruence.
  set (kept := filter (fun st => notna (snd st)) (combine cs ct)) in *.
  exists (projected cs ct),
    (csv_file (["stars"; "text"] :: map (cells_of_pair repr_float str_object) kept)).
  split; [apply project_for_ai_spec; assumption |].
  split; [apply projected_pairs; exact Hlen |].
  assert (Hcr : has_cr (csv_file (["stars"; "text"] :: map (cells_of_pair repr_float str_object) kept))
                = false).
  { apply has_cr_csv_file. constructor.
    - repeat constructor.
    - apply cells_without_cr. exact Hall. }
  split.
  - unfold csv_data. rewrite (project_for_ai_spec df cs ct Hs Ht).
    unfold bind. rewrite (to_csv_projected cs ct Hlen). fold kept.
    rewrite (universal_newlines_id _ Hcr). reflexivity.
  - unfold parse_pairs. rewrite parse_csv_file.
    + apply parse_rows_cells. exact Hall.
    + constructor; [discriminate |]. apply Forall_map.
      apply Forall_forall. intros st _. discriminate.
Qed.

End RoundTrip.

(** C9 as stated fails: a text with a carriage return followed by a line
    feed is read back with the line feed alone, so parsing yields another
    text; the table with the line feed alone gives the same transfer text,
    so no parser can return both tables' pairs. *)
Lemma C9_counterexample :
  exists text,
    run_sample records_with_crlf = Ok (table_with_crlf, 1)
    /\ run_sample records_with_lf = Ok (table_with_lf, 1)
    /\ csv_data fraction_repr tag_object table_with_crlf = Ok text
    /\ csv_data fraction_repr tag_object table_with_lf = Ok text
    /\ (p <- project_for_ai table_with_crlf ;; pairs_of p)
       = Ok [(VInt 5, VStr text_with_crlf)]
    /\ (p <- project_for_ai table_with_lf ;; pairs_of p)
       = Ok [(VInt 5, VStr text_with_lf)]
    /\ parse_pairs integer_number text = Some [(VInt 5, VStr text_with_lf)]
    /\ parse_pairs integer_number text
       <> Some [(VInt 5, VStr text_with_crlf)].
Proof.
  eexists. split; [reflexivity |]. split; [reflexivity |].
  split; [reflexivity |]. split; [reflexivity |].
  split; [reflexivity |]. split; [reflexivity |].
  split; [reflexivity |]. discriminate.
Qed.

Lemma C9_witness :
  exists p text,
    project_for_ai scenario_table = Ok p
    /\ pairs_of p = Ok [(VInt 5, VStr "Great")]
    /\ csv_data fraction_repr tag_object scenario_table = Ok text
    /\ parse_pairs integer_number text = Some [(VInt 5, VStr "Great")].
Proof.
  apply (C9_round_trip_without_carriage_return fraction_repr tag_object
           integer_number scenario_table
           [VInt 5; VInt 3] [VStr "Great"; VNull]).
  - unfold well_formed. simpl. repeat constructor.
  - reflexivity.
  - reflexivity.
  - simpl. repeat constructor. exists "Great". split; reflexivity.
Defined.

(** ** Tables the program builds *)

Section BuiltTables.

Context {G : Type} `{RandomSource G}.
Variable floatify : string -> option scalar.

(** A table returned by [process_reviews_data] meets what the summary, the
    histogram and the monthly counts ask of their argument: it is well
    formed, its rating column is numeric and its date column holds
    timestamps. *)
Lemma process_reviews_data_table :
  forall (now : Z) (g : G) (rs : list record) (df : DataFrame) (g' : G),
    process_reviews_data floatify now g rs = Ok (df, g') ->
    well_formed df
    /\ len df = List.length rs
    /\ (exists stars xs,
          getitem df "stars" = Ok stars
          /\ numeric_view "stars" stars = Ok xs)
    /\ (exists ts,
          getitem df "review_date" = Ok (map VTime ts)
          /\ datetime_view "review_date" (map VTime ts) = Ok ts).
Proof.
  intros now g rs df g' Hrun.
  destruct (process_reviews_data_ok_inv floatify now g rs df g' Hrun)
    as [stars [_ [Hnum [Hdf _]]]].
  subst df.
  assert (Hlen : List.length stars = List.length rs).
  { rewrite (to_numeric_length floatify _ _ Hnum). unfold rating_column.
    rewrite infer_dtype_length. apply length_map. }
  split; [apply built_frame_well_formed; exact Hlen |].
  split; [reflexivity |].
  split.
  - destruct (to_numeric_result floatify _ _ Hnum) as [Hnumeric _].
    destruct (numeric_view_ok "stars" stars Hnumeric) as [xs [Hxs _]].
    exists stars, xs. split; [apply built_frame_stars | exact Hxs].
  - eexists. split; [apply built_frame_review_date |].
    apply datetime_view_times.
Qed.

End BuiltTables.

(** ** The scenario of the specification *)

Example scenario_run :
  run_sample scenario_records = Ok (scenario_table, 2)
  /\ len scenario_table = 2%nat.
Proof. split; reflexivity. Qed.

Example scenario_histogram :
  rating_histogram scenario_table
  = Ok [(inject_Z 3, 1%nat); (inject_Z 5, 1%nat)].
Proof. reflexivity. Qed.

Example scenario_projection :
  (p <- project_for_ai scenario_table ;; pairs_of p)
  = Ok [(VInt 5, VStr "Great")].
Proof. reflexivity. Qed.

Example scenario_transfer_text :
  csv_data fraction_repr tag_object scenario_table
  = Ok ("stars,text" ++ lineterminator ++ "5,Great" ++ lineterminator)%string.
Proof. reflexivity. Qed.

(** ** The calendar *)

Example civil_dates :
  civil_from_days 0 = (1970, 1, 1)
  /\ civil_from_days (-1) = (1969, 12, 31)
  /\ civil_from_days 19782 = (2024, 2, 29)
  /\ days_from_civil 2024 2 29 = 19782.
Proof. repeat split; reflexivity. Qed.

(** The sample clock is in November 2023; 730 days earlier is November
    2021. *)
Example sample_months :
  month_index sample_now = 12 * 2023 + 10
  /\ month_index (sample_now - timedelta_days 730) = 12 * 2021 + 10
  /\ civil_from_days (month_end (12 * 2024 + 1) / microseconds_per_day)
     = (2024, 2, 29).
Proof. repeat split; reflexivity. Qed.

(** Months without a row are buckets with count zero. *)
Example monthly_counts_with_gap :
  resample_M_size [sample_now; sample_now - timedelta_days 70; sample_now]
  = [(12 * 2023 + 8, 1%nat); (12 * 2023 + 9, 0%nat); (12 * 2023 + 10, 2%nat)].
Proof. reflexivity. Qed.

(** * Further properties *)

(** ** The columns of a built table *)

Lemma add_key_NoDup :
  forall acc k, NoDup acc -> NoDup (add_key acc k).
Proof.
  intros acc k Hnd. unfold add_key.
  destruct (existsb (String.eqb k) acc) eqn:E; [exact Hnd |].
  apply NoDup_app; [exact Hnd | repeat constructor; intros [] |].
  intros x Hx [Hk | []]. subst x.
  apply existsb_eqb_in in Hx. rewrite Hx in E. discriminate.
Qed.

Lemma fold_add_key_NoDup :
  forall ks acc, NoDup acc -> NoDup (fold_left add_key ks acc).
Proof.
  induction ks as [| k rest IH]; intros acc Hnd; simpl.
  - exact Hnd.
  - apply IH. apply add_key_NoDup. exact Hnd.
Qed.

Lemma column_names_NoDup : forall rs, NoDup (column_names rs).
Proof.
  intro rs. unfold column_names.
  assert (Hgen : forall acc, NoDup acc ->
            NoDup (fold_left
                     (fun a r => fold_left add_key (dict_keys r) a) rs acc)).
  { induction rs as [| r rest IH]; intros acc Hnd; simpl.
    - exact Hnd.
    - apply IH. apply fold_add_key_NoDup. exact Hnd. }
  apply Hgen. constructor.
Qed.

Lemma replace_column_labels_eq :
  forall k c cols,
    map fst (replace_column k c cols)
    = if existsb (String.eqb k) (map fst cols) then map fst cols
      else map fst cols ++ [k].
Proof.
  intros k c cols. induction cols as [| [k0 c0] rest IH]; simpl.
  - reflexivity.
  - destruct (String.eqb k k0) eqn:E; simpl.
    + reflexivity.
    + rewrite IH. destruct (existsb (String.eqb k) (map fst rest));
        reflexivity.
Qed.

Lemma constructor_labels :
  forall rs, column_labels (DataFrame_of_records rs) = column_names rs.
Proof.
  intro rs. unfold column_labels, DataFrame_of_records. simpl.
  rewrite map_map. simpl. apply map_id.
Qed.

Section BuiltTableShape.

Context {G : Type} `{RandomSource G}.
Variable floatify : string -> option scalar.

(** X1: the columns of a built table are the keys of the records in order
    of first appearance, followed by [review_date] unless the records
    carry that key themselves (the column then keeps its place); no label
    occurs twice. *)
Theorem built_table_column_labels :
  forall (now : Z) (g : G) (rs : list record) (df : DataFrame) (g' : G),
    process_reviews_data floatify now g rs = Ok (df, g') ->
    column_labels df
    = column_names rs
      ++ (if existsb (String.eqb "review_date") (column_names rs)
          then [] else ["review_date"])
    /\ NoDup (column_labels df)
    /\ In "stars" (column_labels df)
    /\ In "review_date" (column_labels df).
Proof.
  intros now g rs df g' Hrun.
  destruct (process_reviews_data_ok_inv floatify now g rs df g' Hrun)
    as [stars [Hin [_ [Hdf _]]]].
  subst df.
  assert (Hlabels :
            column_labels (built_frame now g rs stars)
            = column_names rs
              ++ (if existsb (String.eqb "review_date") (column_names rs)
                  then [] else ["review_date"])).
  { unfold column_labels, built_frame, setitem. cbn [columns].
    rewrite !replace_column_labels_eq.
    fold (column_labels (DataFrame_of_records rs)).
    rewrite constructor_labels.
    apply existsb_eqb_in in Hin. rewrite Hin.
    destruct (existsb (String.eqb "review_date") (column_names rs));
      [rewrite app_nil_r |]; reflexivity. }
  split; [exact Hlabels |]. rewrite Hlabels.
  pose proof (column_names_NoDup rs) as Hnd.
  destruct (existsb (String.eqb "review_date") (column_names rs)) eqn:E.
  - rewrite app_nil_r. split; [exact Hnd |]. split; [exact Hin |].
    apply existsb_eqb_in. exact E.
  - split.
    + apply NoDup_app; [exact Hnd | repeat constructor; intros [] |].
      intros x Hx [Hk | []]. subst x.
      apply existsb_eqb_in in Hx. rewrite Hx in E. discriminate.
    + split; apply in_or_app; [left; exact Hin | right; left; reflexivity].
Qed.

(** X2: [process_reviews_data] never returns a table without rows: the
    empty input raises, and any other input gives one row per record; the
    rating column of the table is numeric and its date column holds
    timestamps. *)
Theorem built_table_has_rows :
  forall (now : Z) (g : G) (rs : list record) (df : DataFrame) (g' : G),
    process_reviews_data floatify now g rs = Ok (df, g') ->
    rs <> [] /\ len df = List.length rs /\ built_table df.
Proof.
  intros now g rs df g' Hrun.
  assert (Hne : rs <> []).
  { intro Hnil. subst rs. simpl in Hrun. discriminate. }
  destruct (process_reviews_data_table floatify now g rs df g' Hrun)
    as [Hwf [Hlen [Hstars [ts [Hts _]]]]].
  split; [exact Hne |]. split; [exact Hlen |].
  split; [exact Hwf |]. split.
  - rewrite Hlen. destruct rs; [contradiction | simpl; lia].
  - split; [exact Hstars |]. exists ts. exact Hts.
Qed.

End BuiltTableShape.

Lemma built_table_column_labels_witness :
  column_labels scenario_table
  = column_names scenario_records
    ++ (if existsb (String.eqb "review_date") (column_names scenario_records)
        then [] else ["review_date"])
  /\ NoDup (column_labels scenario_table)
  /\ In "stars" (column_labels scenario_table)
  /\ In "review_date" (column_labels scenario_table).
Proof.
  apply (built_table_column_labels integer_literal sample_now sample_seed
           scenario_records scenario_table 2).
  reflexivity.
Defined.

Lemma built_table_has_rows_witness :
  scenario_records <> []
  /\ len scenario_table = List.length scenario_records
  /\ built_table scenario_table.
Proof.
  apply (built_table_has_rows integer_literal sample_now sample_seed
           scenario_records scenario_table 2).
  reflexivity.
Defined.

(** ** The dtype of the converted ratings *)

Lemma to_float_floatish :
  forall v, is_numeric v = true -> is_float_or_null (to_float v) = true.
Proof. intros [| b | z | f | s | l | l | t]; simpl; auto. Qed.

Lemma to_float_fixed :
  forall v, is_float_or_null v = true -> to_float v = v.
Proof. intros [| b | z | f | s | l | l | t]; simpl; auto; discriminate. Qed.

Lemma to_int_fixed : forall v, is_int v = true -> to_int v = v.
Proof. intros [| b | z | f | s | l | l | t]; simpl; auto; discriminate. Qed.

Lemma existsb_false_forall :
  forall (A : Type) (p : A -> bool) (l : list A),
    existsb p l = false -> Forall (fun x => p x = false) l.
Proof.
  intros A p l. induction l as [| x rest IH]; simpl; intro Hex.
  - constructor.
  - apply orb_false_elim in Hex. destruct Hex as [Hx Hrest].
    constructor; [exact Hx | apply IH; exact Hrest].
Qed.

Lemma unify_numeric_homogeneous :
  forall col,
    Forall (fun v => is_numeric v = true) col ->
    homogeneous (unify_numeric col).
Proof.
  intros col Hnum. unfold unify_numeric, homogeneous.
  destruct (existsb is_float_or_null col) eqn:Ef.
  - right. left. apply Forall_map. eapply Forall_impl; [| exact Hnum].
    intros v Hv. apply to_float_floatish. exact Hv.
  - apply existsb_false_forall in Ef.
    destruct (existsb is_int col) eqn:Ei.
    + left. apply Forall_map. rewrite Forall_forall in *.
      intros v Hv. specialize (Hnum v Hv). specialize (Ef v Hv).
      destruct v; simpl in *; try discriminate; reflexivity.
    + apply existsb_false_forall in Ei. right. right.
      rewrite Forall_forall in *.
      intros v Hv. specialize (Hnum v Hv). specialize (Ef v Hv).
      specialize (Ei v Hv).
      destruct v; simpl in *; try discriminate; reflexivity.
Qed.

Lemma unify_numeric_fixed :
  forall col, homogeneous col -> unify_numeric col = col.
Proof.
  intros col [Hint | [Hfloat | Hbool]]; unfold unify_numeric.
  - assert (Ef : existsb is_float_or_null col = false).
    { apply not_true_is_false. intro Hex. apply existsb_exists in Hex.
      destruct Hex as [v [Hv Hf]]. rewrite Forall_forall in Hint.
      specialize (Hint v Hv). destruct v; simpl in *; discriminate. }
    rewrite Ef. destruct (existsb is_int col); [| reflexivity].
    rewrite <- (map_id col) at 2. apply map_ext_in.
    intros v Hv. rewrite Forall_forall in Hint. apply to_int_fixed.
    apply Hint. exact Hv.
  - destruct (existsb is_float_or_null col) eqn:Ef.
    + rewrite <- (map_id col) at 2. apply map_ext_in.
      intros v Hv. rewrite Forall_forall in Hfloat. apply to_float_fixed.
      apply Hfloat. exact Hv.
    + destruct col as [| v rest]; [reflexivity |].
      inversion Hfloat as [| v' rest' Hv Hrest]; subst.
      simpl in Ef. rewrite Hv in Ef. discriminate.
  - assert (Ef : existsb is_float_or_null col = false).
    { apply not_true_is_false. intro Hex. apply existsb_exists in Hex.
      destruct Hex as [v [Hv Hf]]. rewrite Forall_forall in Hbool.
      specialize (Hbool v Hv). destruct v; simpl in *; discriminate. }
    assert (Ei : existsb is_int col = false).
    { apply not_true_is_false. intro Hex. apply existsb_exists in Hex.
      destruct Hex as [v [Hv Hf]]. rewrite Forall_forall in Hbool.
      specialize (Hbool v Hv). destruct v; simpl in *; discriminate. }
    rewrite Ef, Ei. reflexivity.
Qed.

Section ConvertedRatings.

Variable floatify : string -> option scalar.

Lemma maybe_convert_numeric_numeric :
  forall col pos,
    Forall (fun v => is_numeric v = true) col ->
    maybe_convert_numeric floatify pos col = Ok col.
Proof.
  induction col as [| v rest IH]; intros pos Hnum; simpl.
  - reflexivity.
  - inversion Hnum as [| v' rest' Hv Hrest]; subst.
    rewrite (IH (S pos) Hrest).
    destruct v; simpl in *; try discriminate; reflexivity.
Qed.

Lemma homogeneous_numeric :
  forall col, homogeneous col -> Forall (fun v => is_numeric v = true) col.
Proof.
  intros col [Hc | [Hc | Hc]]; eapply Forall_impl; try exact Hc;
    intros v Hv; destruct v; simpl in *; try discriminate; reflexivity.
Qed.

Lemma to_numeric_homogeneous :
  forall (col stars : list value),
    to_numeric floatify col = Ok stars -> homogeneous stars.
Proof.
  intros col stars Hnum.
  unfold to_numeric in Hnum. bind_inv Hnum. injection Hnum as <-.
  apply unify_numeric_homogeneous.
  pose proof (maybe_convert_numeric_ok_inv floatify _ _ _ Ha) as Hrel.
  clear -Hrel. induction Hrel as [| v x col xs Hvx Hrel IH].
  - constructor.
  - constructor; [| exact IH].
    eapply convert_numeric_is_numeric. exact Hvx.
Qed.

(** X3: the column [pd.to_numeric] returns has one dtype: it is all
    integers, or all floats and NaN, or all booleans; and it has the
    length of its argument. *)
Theorem to_numeric_one_dtype :
  forall (col stars : list value),
    to_numeric floatify col = Ok stars ->
    homogeneous stars /\ List.length stars = List.length col.
Proof.
  intros col stars Hnum. split.
  - eapply to_numeric_homogeneous. exact Hnum.
  - eapply to_numeric_length. exact Hnum.
Qed.

(** X4: converting a converted column again changes nothing:
    [pd.to_numeric] is idempotent. *)
Theorem to_numeric_idempotent :
  forall (col stars : list value),
    to_numeric floatify col = Ok stars ->
    to_numeric floatify stars = Ok stars.
Proof.
  intros col stars Hnum.
  pose proof (to_numeric_homogeneous col stars Hnum) as Hhom.
  unfold to_numeric.
  rewrite (maybe_convert_numeric_numeric stars 0 (homogeneous_numeric _ Hhom)).
  simpl. rewrite (unify_numeric_fixed stars Hhom). reflexivity.
Qed.

End ConvertedRatings.

Lemma to_numeric_one_dtype_witness :
  homogeneous [VFloat (inject_Z 4); VNull; VFloat 1]
  /\ List.length [VFloat (inject_Z 4); VNull; VFloat 1]
     = List.length [VStr "4"; VStr ""; VBool true].
Proof.
  apply (to_numeric_one_dtype integer_literal
           [VStr "4"; VStr ""; VBool true]).
  reflexivity.
Defined.

Lemma to_numeric_idempotent_witness :
  to_numeric integer_literal [VFloat (inject_Z 4); VNull; VFloat 1]
  = Ok [VFloat (inject_Z 4); VNull; VFloat 1].
Proof.
  apply (to_numeric_idempotent integer_literal
           [VStr "4"; VStr ""; VBool true]).
  reflexivity.
Defined.

(** ** The summary of a built table *)

Lemma getitem_in_labels :
  forall df k, In k (column_labels df) -> exists c, getitem df k = Ok c.
Proof.
  intros df k Hin. apply find_column_in_labels in Hin.
  destruct Hin as [c Hc]. exists c. unfold getitem. rewrite Hc. reflexivity.
Qed.

Lemma getitem_raise :
  forall df k e, getitem df k = Raise e -> e = KeyError k.
Proof.
  intros df k e. unfold getitem.
  destruct (find_column k (columns df)); [discriminate |].
  intro He. injection He as <-. reflexivity.
Qed.

Lemma iloc0_built :
  forall df k c,
    built_table df -> getitem df k = Ok c -> exists v, iloc0 c = Ok v.
Proof.
  intros df k c [Hwf [Hpos _]] Hc.
  pose proof (well_formed_getitem df k c Hwf Hc) as Hlen. unfold len in Hpos.
  destruct c as [| v rest]; [simpl in Hlen; lia |]. exists v. reflexivity.
Qed.

(** X5: on a built table the summary never fails on a first-row lookup or
    on the mean: it can only raise [KeyError] for a missing [title],
    [categoryName] or [reviewsCount] column, and it returns when the three
    columns exist. *)
Theorem summary_of_built_table :
  forall (df : DataFrame),
    built_table df ->
    (forall e, summary df = Raise e ->
               e = KeyError "title" \/ e = KeyError "categoryName"
               \/ e = KeyError "reviewsCount")
    /\ (In "title" (column_labels df) ->
        In "categoryName" (column_labels df) ->
        In "reviewsCount" (column_labels df) ->
        exists s, summary df = Ok s).
Proof.
  intros df Hb.
  assert (Hstars : exists stars xs,
             getitem df "stars" = Ok stars
             /\ numeric_view "stars" stars = Ok xs)
    by (destruct Hb as [_ [_ [Hs _]]]; exact Hs).
  destruct Hstars as [stars [xs [Hs Hxs]]].
  split.
  - intros e He. unfold summary in He.
    destruct (getitem df "title") as [c1 |e1] eqn:H1; simpl in He.
    + destruct (iloc0_built df _ _ Hb H1) as [v1 Hv1]. rewrite Hv1 in He.
      simpl in He.
      destruct (getitem df "categoryName") as [c2 |e2] eqn:H2; simpl in He.
      * destruct (iloc0_built df _ _ Hb H2) as [v2 Hv2]. rewrite Hv2 in He.
        simpl in He.
        destruct (getitem df "reviewsCount") as [c3 |e3] eqn:H3; simpl in He.
        -- destruct (iloc0_built df _ _ Hb H3) as [v3 Hv3]. rewrite Hv3 in He.
           simpl in He. rewrite Hs in He. simpl in He. rewrite Hxs in He.
           discriminate.
        -- injection He as <-. right. right. eapply getitem_raise. exact H3.
      * injection He as <-. right. left. eapply getitem_raise. exact H2.
    + injection He as <-. left. eapply getitem_raise. exact H1.
  - intros Ht Hc Hn.
    destruct (getitem_in_labels df _ Ht) as [c1 H1].
    destruct (getitem_in_labels df _ Hc) as [c2 H2].
    destruct (getitem_in_labels df _ Hn) as [c3 H3].
    destruct (iloc0_built df _ _ Hb H1) as [v1 Hv1].
    destruct (iloc0_built df _ _ Hb H2) as [v2 Hv2].
    destruct (iloc0_built df _ _ Hb H3) as [v3 Hv3].
    unfold summary. rewrite H1. simpl. rewrite Hv1. simpl.
    rewrite H2. simpl. rewrite Hv2. simpl.
    rewrite H3. simpl. rewrite Hv3. simpl.
    rewrite Hs. simpl. rewrite Hxs. simpl. eexists. reflexivity.
Qed.

Lemma scenario_table_built : built_table scenario_table.
Proof.
  split; [unfold well_formed; simpl; repeat constructor |].
  split; [simpl; lia |].
  split.
  - exists [VInt 5; VInt 3], [Some (inject_Z 5); Some (inject_Z 3)].
    split; reflexivity.
  - exists [1636928000000000; 1637014400000000]. reflexivity.
Qed.

Lemma summary_of_built_table_witness :
  (forall e, summary scenario_table = Raise e ->
             e = KeyError "title" \/ e = KeyError "categoryName"
             \/ e = KeyError "reviewsCount")
  /\ (In "title" (column_labels scenario_table) ->
      In "categoryName" (column_labels scenario_table) ->
      In "reviewsCount" (column_labels scenario_table) ->
      exists s, summary scenario_table = Ok s).
Proof.
  apply (summary_of_built_table scenario_table).
  split; [unfold well_formed; simpl; repeat constructor |].
  split; [simpl; lia |].
  split.
  - exists [VInt 5; VInt 3], [Some (inject_Z 5); Some (inject_Z 3)].
    split; reflexivity.
  - exists [1636928000000000; 1637014400000000]. reflexivity.
Defined.

(** ** The mean and its display *)

Lemma Qsum_bounds :
  forall (lo hi : Q) (l : list Q),
    Forall (fun q => (lo <= q <= hi)%Q) l ->
    (lo * inject_Z (Z.of_nat (List.length l)) <= Qsum l
     /\ Qsum l <= hi * inject_Z (Z.of_nat (List.length l)))%Q.
Proof.
  intros lo hi l Hall. induction Hall as [| q rest [Hlo Hhi] Hrest IH].
  - simpl. change (inject_Z 0) with 0%Q. split; lra.
  - destruct IH as [IHlo IHhi].
    change (List.length (q :: rest)) with (S (List.length rest)).
    rewrite Nat2Z.inj_succ. unfold Z.succ. rewrite inject_Z_plus.
    change (inject_Z 1) with 1%Q. simpl Qsum. split; lra.
Qed.

Lemma magnitude_bounds_entry :
  forall l q, In q l -> (Qabs q <= magnitude l)%Q.
Proof.
  induction l as [| x l IH]; intros q Hin; [contradiction |].
  change (magnitude (x :: l)) with (Qabs x + magnitude l)%Q.
  pose proof (magnitude_nonneg l) as Hm. pose proof (Qabs_nonneg x) as Hx.
  destruct Hin as [-> | Hin].
  - lra.
  - specialize (IH q Hin). lra.
Qed.

(** A whole number below [2^53] in magnitude lies between the whole
    numbers [-(2^53 - 1)] and [2^53 - 1]. *)
Lemma whole_entry_bounds :
  forall q,
    is_whole q = true -> (Qabs q < inject_Z (2 ^ 53))%Q ->
    (inject_Z (- (2 ^ 53 - 1)) <= q)%Q /\ (q <= inject_Z (2 ^ 53 - 1))%Q.
Proof.
  intros q Hw Hlt. apply is_whole_spec in Hw. rewrite Hw in Hlt.
  rewrite Qabs_inject_Z in Hlt. rewrite <- Zlt_Qlt in Hlt.
  rewrite Hw. rewrite <- !Zle_Qle. lia.
Qed.

Lemma Qsum_app :
  forall a b, (Qsum (a ++ b) == Qsum a + Qsum b)%Q.
Proof.
  induction a as [| x a IH]; intro b; simpl.
  - ring.
  - rewrite IH. ring.
Qed.

Lemma magnitude_app :
  forall a b, (magnitude (a ++ b) == magnitude a + magnitude b)%Q.
Proof.
  intros a b. unfold magnitude. rewrite map_app. apply Qsum_app.
Qed.

(** Any order of the additions gives the exact sum of whole numbers whose
    magnitudes add up to less than [2^53]: the order in which numpy adds
    the entries makes no difference to the mean of star ratings. *)
Lemma any_order_sum_exact :
  forall t,
    forallb is_whole (leaves t) = true ->
    (magnitude (leaves t) < inject_Z (2 ^ 53))%Q ->
    (tree_sum t == Qsum (leaves t))%Q
    /\ is_whole (Qsum (leaves t)) = true
    /\ (Qabs (Qsum (leaves t)) <= magnitude (leaves t))%Q.
Proof.
  induction t as [q | l IHl r IHr]; intros Hall Hmag.
  - simpl leaves in *. simpl in Hall. rewrite andb_true_r in Hall.
    change (magnitude [q]) with (Qabs q + 0)%Q in *.
    change (Qsum [q]) with (q + 0)%Q.
    assert (Hq0 : (q + 0 == q)%Q) by ring.
    split.
    + simpl. rewrite Hq0. apply float64_whole; [exact Hall | lra].
    + split.
      * rewrite (is_whole_compat _ _ Hq0). exact Hall.
      * rewrite Hq0. lra.
  - simpl leaves in *. rewrite forallb_app in Hall.
    apply andb_prop in Hall. destruct Hall as [Hl Hr].
    pose proof (magnitude_app (leaves l) (leaves r)) as Hmapp.
    pose proof (Qsum_app (leaves l) (leaves r)) as Hsapp.
    rewrite Hmapp in Hmag.
    pose proof (magnitude_nonneg (leaves l)) as Hml.
    pose proof (magnitude_nonneg (leaves r)) as Hmr.
    destruct (IHl Hl) as [El [Wl Bl]]; [lra |].
    destruct (IHr Hr) as [Er [Wr Br]]; [lra |].
    pose proof (Qabs_triangle (Qsum (leaves l)) (Qsum (leaves r))) as Htri.
    assert (Hw : is_whole (Qsum (leaves l) + Qsum (leaves r)) = true)
      by (apply is_whole_plus; assumption).
    split.
    + simpl. unfold float_add.
      assert (Hs : (tree_sum l + tree_sum r
                    == Qsum (leaves l) + Qsum (leaves r))%Q)
        by (rewrite El, Er; reflexivity).
      rewrite (float64_compat _ _ Hs). rewrite Hsapp.
      apply float64_whole; [exact Hw | lra].
    + split.
      * rewrite (is_whole_compat _ _ Hsapp). exact Hw.
      * rewrite Hsapp, Hmapp. lra.
Qed.

(** X6: for whole ratings whose magnitudes add up to less than [2^53],
    as star ratings are, the mean lies between any two whole bounds that
    hold of every rating that is not missing: ratings from 1 to 5 give a
    mean from 1 to 5. *)
Theorem mean_rating_within_bounds :
  forall (xs : list (option Q)) (m : Q) (lo hi : Z),
    nanmean xs = Some m ->
    whole_ratings xs = true ->
    Forall (fun q => (inject_Z lo <= q <= inject_Z hi)%Q) (dropna_values xs) ->
    (inject_Z lo <= m <= inject_Z hi)%Q.
Proof.
  intros xs m lo hi Hm Hw Hall.
  pose proof (nanmean_some_inv xs m Hm) as Hne.
  destruct (nanmean_whole xs Hw Hne) as [m' [Hm' Heq]].
  rewrite Hm in Hm'. injection Hm' as <-.
  destruct (whole_ratings_inv xs Hw) as [Hwhole Hmag].
  set (lo' := Z.max lo (- (2 ^ 53 - 1))).
  set (hi' := Z.min hi (2 ^ 53 - 1)).
  assert (Hall' : Forall (fun q => (inject_Z lo' <= q <= inject_Z hi')%Q)
                         (dropna_values xs)).
  { rewrite Forall_forall in *. intros q Hq.
    destruct (Hall q Hq) as [Hl Hh].
    assert (Hwq : is_whole q = true).
    { rewrite forallb_forall in Hwhole. apply Hwhole. exact Hq. }
    pose proof (magnitude_bounds_entry _ q Hq) as Hbq.
    destruct (whole_entry_bounds q Hwq) as [Hl' Hh']; [lra |].
    unfold lo', hi'. split.
    - destruct (Z.max_spec lo (- (2 ^ 53 - 1))) as [[_ ->] | [_ ->]];
        assumption.
    - destruct (Z.min_spec hi (2 ^ 53 - 1)) as [[_ ->] | [_ ->]];
        assumption. }
  assert (Hfirst : exists q, In q (dropna_values xs)).
  { destruct (dropna_values xs) as [| q rest]; [contradiction |].
    exists q. left. reflexivity. }
  destruct Hfirst as [q0 Hq0].
  pose proof Hall' as Hall''. rewrite Forall_forall in Hall''.
  destruct (Hall'' q0 Hq0) as [Hq0l Hq0h].
  assert (Hlohi : lo' <= hi').
  { rewrite Zle_Qle. lra. }
  assert (Hlo'abs : Z.abs lo' < 2 ^ 53) by (unfold lo', hi' in *; lia).
  assert (Hhi'abs : Z.abs hi' < 2 ^ 53) by (unfold lo', hi' in *; lia).
  destruct (Qsum_bounds (inject_Z lo') (inject_Z hi') _ Hall') as [Hlo Hhi].
  set (n := inject_Z (Z.of_nat (List.length (dropna_values xs)))) in *.
  assert (Hn : (0 < n)%Q).
  { unfold n. change 0%Q with (inject_Z 0). rewrite <- Zlt_Qlt.
    destruct (dropna_values xs); [contradiction | simpl; lia]. }
  assert (Hql : (inject_Z lo' <= Qsum (dropna_values xs) / n)%Q)
    by (apply Qle_shift_div_l; assumption).
  assert (Hqh : (Qsum (dropna_values xs) / n <= inject_Z hi')%Q)
    by (apply Qle_shift_div_r; assumption).
  destruct (float64_between lo' hi' _ Hlo'abs Hhi'abs Hql Hqh) as [Hl Hh].
  rewrite Heq.
  assert (Hlo_le : (inject_Z lo <= inject_Z lo')%Q).
  { rewrite <- Zle_Qle. unfold lo'. lia. }
  assert (Hhi_le : (inject_Z hi' <= inject_Z hi)%Q).
  { rewrite <- Zle_Qle. unfold hi'. lia. }
  split; lra.
Qed.

Lemma mean_rating_within_bounds_witness :
  (inject_Z 1 <= sample_mean <= inject_Z 5)%Q.
Proof.
  apply (mean_rating_within_bounds
           [Some (inject_Z 5); None; Some (inject_Z 3)] sample_mean 1 5).
  - vm_compute. reflexivity.
  - vm_compute. reflexivity.
  - simpl. repeat constructor; simpl; discriminate.
Defined.

(** The bounds need whole ratings: three ratings 0.1 have a mean above
    0.1. *)
Example mean_of_three_tenths :
  exists m,
    nanmean [Some tenth; Some tenth; Some tenth] = Some m
    /\ (tenth < m)%Q
    /\ (m == 7205759403792795 # 72057594037927936)%Q.
Proof.
  eexists. split; [reflexivity |]. split; vm_compute; reflexivity.
Qed.

(** X7: the two-decimal display is monotone (a larger mean never prints a
    smaller value) and exact on every number with two decimals. *)
Theorem hundredths_monotone_and_exact :
  (forall q1 q2, (q1 <= q2)%Q -> hundredths q1 <= hundredths q2)
  /\ (forall k, hundredths (inject_Z k / 100) = k).
Proof.
  split.
  - intros q1 q2 Hle. unfold hundredths. apply round_half_even_monotone.
    lra.
  - intro k. unfold hundredths. apply round_half_even_integer. field.
Qed.

(** ** The two charts of a built table *)

(** X8: on a built table [create_graphs] raises nothing; the histogram
    counts at most one row each and the monthly counts every row. *)
Theorem create_graphs_of_built_table :
  forall (df : DataFrame),
    built_table df ->
    exists star_counts df_time,
      create_graphs df = Ok (star_counts, df_time)
      /\ (list_sum (map snd star_counts) <= len df)%nat
      /\ list_sum (map snd df_time) = len df.
Proof.
  intros df [Hwf [_ [[stars [xs [Hs Hxs]]] [ts Hts]]]].
  exists (sort_index (value_counts xs)), (resample_M_size ts).
  split.
  - unfold create_graphs, rating_histogram, monthly_counts.
    rewrite Hs. simpl. rewrite Hxs. simpl. rewrite Hts. simpl.
    rewrite datetime_view_times. reflexivity.
  - split.
    + unfold sort_index. rewrite sort_by_sum, value_counts_total.
      unfold count_notna. unfold len.
      rewrite <- (well_formed_getitem df _ _ Hwf Hs).
      rewrite <- (numeric_view_length _ _ _ Hxs). apply filter_length_le.
    + destruct (resample_M_size_spec ts) as [Hsum _]. rewrite Hsum.
      unfold len. rewrite <- (well_formed_getitem df _ _ Hwf Hts).
      rewrite length_map. reflexivity.
Qed.

Lemma create_graphs_of_built_table_witness :
  exists star_counts df_time,
    create_graphs scenario_table = Ok (star_counts, df_time)
    /\ (list_sum (map snd star_counts) <= len scenario_table)%nat
    /\ list_sum (map snd df_time) = len scenario_table.
Proof.
  apply (create_graphs_of_built_table scenario_table).
  split; [unfold well_formed; simpl; repeat constructor |].
  split; [simpl; lia |].
  split.
  - exists [VInt 5; VInt 3], [Some (inject_Z 5); Some (inject_Z 3)].
    split; reflexivity.
  - exists [1636928000000000; 1637014400000000]. reflexivity.
Defined.

(** ** The monthly buckets *)

Lemma fold_min_in :
  forall rest m0, In (fold_left Z.min rest m0) (m0 :: rest).
Proof.
  induction rest as [| x rest IH]; intro m0; simpl.
  - left. reflexivity.
  - destruct (IH (Z.min m0 x)) as [Hhead | Htail].
    + rewrite <- Hhead.
      destruct (Z.min_spec m0 x) as [[_ Hm] | [_ Hm]]; rewrite Hm.
      * left. reflexivity.
      * right. left. reflexivity.
    + right. right. exact Htail.
Qed.

Lemma fold_max_in :
  forall rest m0, In (fold_left Z.max rest m0) (m0 :: rest).
Proof.
  induction rest as [| x rest IH]; intro m0; simpl.
  - left. reflexivity.
  - destruct (IH (Z.max m0 x)) as [Hhead | Htail].
    + rewrite <- Hhead.
      destruct (Z.max_spec m0 x) as [[_ Hm] | [_ Hm]]; rewrite Hm.
      * right. left. reflexivity.
      * left. reflexivity.
    + right. right. exact Htail.
Qed.

Lemma month_range_length :
  forall lo hi, List.length (month_range lo hi) = Z.to_nat (hi - lo + 1).
Proof.
  intros lo hi. unfold month_range. rewrite length_map. apply length_seq.
Qed.

(** X9: the monthly chart has one bucket for every calendar month from the
    month of the earliest review date to the month of the latest one,
    without a gap: a month in between in which no row falls is a bucket
    with count zero. *)
Theorem monthly_buckets_contiguous :
  forall (ts : list Z),
    ts <> [] ->
    exists lo hi,
      In lo (map month_index ts)
      /\ In hi (map month_index ts)
      /\ (forall t, In t ts -> lo <= month_index t <= hi)
      /\ map fst (resample_M_size ts) = month_range lo hi
      /\ List.length (resample_M_size ts) = Z.to_nat (hi - lo + 1)
      /\ (forall m, lo <= m <= hi ->
            In (m, count_month m (map month_index ts)) (resample_M_size ts))
      /\ (forall m, lo <= m <= hi -> ~ In m (map month_index ts) ->
            In (m, 0%nat) (resample_M_size ts)).
Proof.
  intros ts Hne. unfold resample_M_size.
  destruct (map month_index ts) as [| m0 rest] eqn:Hms.
  - destruct ts; [contradiction | discriminate].
  - set (lo := fold_left Z.min rest m0). set (hi := fold_left Z.max rest m0).
    exists lo, hi.
    destruct (fold_min_le rest m0) as [Hmin0 Hmin].
    destruct (fold_max_ge rest m0) as [Hmax0 Hmax].
    assert (Hin : forall m, lo <= m <= hi ->
              In (m, count_month m (m0 :: rest))
                 (map (fun m => (m, count_month m (m0 :: rest)))
                      (month_range lo hi))).
    { intros m Hm. apply in_map_iff. exists m. split; [reflexivity |].
      apply month_range_in. exact Hm. }
    split; [apply fold_min_in |]. split; [apply fold_max_in |].
    split.
    { intros t Ht.
      assert (Hm : In (month_index t) (m0 :: rest))
        by (rewrite <- Hms; apply in_map; exact Ht).
      destruct Hm as [<- | Hm]; [split; assumption |].
      split; [apply Hmin | apply Hmax]; exact Hm. }
    split; [rewrite map_map; simpl; apply map_id |].
    split; [rewrite length_map; apply month_range_length |].
    split; [exact Hin |].
    intros m Hm Hnot. specialize (Hin m Hm).
    replace (count_month m (m0 :: rest)) with 0%nat in Hin; [exact Hin |].
    unfold count_month.
    destruct (filter (Z.eqb m) (m0 :: rest)) as [| x l] eqn:Hf;
      [reflexivity |].
    exfalso. apply Hnot.
    assert (Hx : In x (filter (Z.eqb m) (m0 :: rest)))
      by (rewrite Hf; left; reflexivity).
    apply filter_In in Hx. destruct Hx as [Hx Heq].
    apply Z.eqb_eq in Heq. subst x. exact Hx.
Qed.

Lemma monthly_buckets_contiguous_witness :
  exists lo hi,
    In lo (map month_index [sample_now; sample_now - timedelta_days 70])
    /\ In hi (map month_index [sample_now; sample_now - timedelta_days 70])
    /\ (forall t, In t [sample_now; sample_now - timedelta_days 70] ->
                  lo <= month_index t <= hi)
    /\ map fst (resample_M_size [sample_now; sample_now - timedelta_days 70])
       = month_range lo hi
    /\ List.length
         (resample_M_size [sample_now; sample_now - timedelta_days 70])
       = Z.to_nat (hi - lo + 1)
    /\ (forall m, lo <= m <= hi ->
          In (m, count_month m
                   (map month_index
                        [sample_now; sample_now - timedelta_days 70]))
             (resample_M_size [sample_now; sample_now - timedelta_days 70]))
    /\ (forall m, lo <= m <= hi ->
          ~ In m (map month_index
                      [sample_now; sample_now - timedelta_days 70]) ->
          In (m, 0%nat)
             (resample_M_size [sample_now; sample_now - timedelta_days 70])).
Proof.
  apply (monthly_buckets_contiguous
           [sample_now; sample_now - timedelta_days 70]).
  discriminate.
Defined.

Lemma count_month_permutation :
  forall m ms ms', Permutation ms ms' -> count_month m ms = count_month m ms'.
Proof.
  intros m ms ms' Hp. unfold count_month.
  induction Hp as [| x l l' Hp IH | x y l | l l' l'' Hp1 IH1 Hp2 IH2]; simpl.
  - reflexivity.
  - destruct (m =? x); simpl; rewrite IH; reflexivity.
  - destruct (m =? x); destruct (m =? y); reflexivity.
  - rewrite IH1. exact IH2.
Qed.

(** X10: the monthly chart does not depend on the order of the rows. *)
Theorem monthly_counts_order_independent :
  forall (ts ts' : list Z),
    Permutation ts ts' -> resample_M_size ts = resample_M_size ts'.
Proof.
  intros ts ts' Hp.
  pose proof (Permutation_map month_index Hp) as Hpm.
  unfold resample_M_size.
  destruct (map month_index ts) as [| m0 rest] eqn:Hms;
    destruct (map month_index ts') as [| m0' rest'] eqn:Hms'.
  - reflexivity.
  - apply Permutation_nil in Hpm. discriminate.
  - apply Permutation_sym in Hpm. apply Permutation_nil in Hpm. discriminate.
  - destruct (fold_min_le rest m0) as [Hmin0 Hmin].
    destruct (fold_max_ge rest m0) as [Hmax0 Hmax].
    destruct (fold_min_le rest' m0') as [Hmin0' Hmin'].
    destruct (fold_max_ge rest' m0') as [Hmax0' Hmax'].
    pose proof (fold_min_in rest m0) as Hlo.
    pose proof (fold_max_in rest m0) as Hhi.
    pose proof (fold_min_in rest' m0') as Hlo'.
    pose proof (fold_max_in rest' m0') as Hhi'.
    apply (Permutation_in _ Hpm) in Hlo.
    apply (Permutation_in _ Hpm) in Hhi.
    apply (Permutation_in _ (Permutation_sym Hpm)) in Hlo'.
    apply (Permutation_in _ (Permutation_sym Hpm)) in Hhi'.
    assert (Elo : fold_left Z.min rest m0 = fold_left Z.min rest' m0').
    { apply Z.le_antisymm.
      - destruct Hlo' as [<- | Hlo']; [exact Hmin0 | apply Hmin; exact Hlo'].
      - destruct Hlo as [<- | Hlo]; [exact Hmin0' | apply Hmin'; exact Hlo]. }
    assert (Ehi : fold_left Z.max rest m0 = fold_left Z.max rest' m0').
    { apply Z.le_antisymm.
      - destruct Hhi as [<- | Hhi]; [exact Hmax0' | apply Hmax'; exact Hhi].
      - destruct Hhi' as [<- | Hhi']; [exact Hmax0 | apply Hmax; exact Hhi']. }
    rewrite Elo, Ehi. apply map_ext. intro m.
    rewrite (count_month_permutation m _ _ Hpm). reflexivity.
Qed.

Lemma monthly_counts_order_independent_witness :
  resample_M_size [sample_now; sample_now - timedelta_days 70; sample_now]
  = resample_M_size [sample_now - timedelta_days 70; sample_now; sample_now].
Proof.
  apply (monthly_counts_order_independent
           [sample_now; sample_now - timedelta_days 70; sample_now]
           [sample_now - timedelta_days 70; sample_now; sample_now]).
  apply perm_swap.
Defined.

(** ** The histogram and the order of the rows *)

Lemma occurrences_key :
  forall k k' vals,
    Qeq_bool k k' = true -> occurrences k vals = occurrences k' vals.
Proof.
  intros k k' vals Hk. unfold occurrences. f_equal.
  apply filter_ext. intro x.
  destruct (Qeq_bool k x) eqn:E; destruct (Qeq_bool k' x) eqn:E';
    try reflexivity.
  - apply Qeq_bool_sym in Hk.
    rewrite (Qeq_bool_trans _ _ _ Hk E) in E'. discriminate.
  - rewrite (Qeq_bool_trans _ _ _ Hk E') in E. discriminate.
Qed.

Lemma occurrences_permutation :
  forall k vals vals',
    Permutation vals vals' -> occurrences k vals = occurrences k vals'.
Proof.
  intros k vals vals' Hp. unfold occurrences.
  induction Hp as [| x l l' Hp IH | x y l | l l' l'' Hp1 IH1 Hp2 IH2]; simpl.
  - reflexivity.
  - destruct (Qeq_bool k x); simpl; rewrite IH; reflexivity.
  - destruct (Qeq_bool k x); destruct (Qeq_bool k y); reflexivity.
  - rewrite IH1. exact IH2.
Qed.

Lemma dropna_values_permutation :
  forall xs xs', Permutation xs xs' ->
                 Permutation (dropna_values xs) (dropna_values xs').
Proof.
  intros xs xs' Hp. unfold dropna_values.
  induction Hp as [| x l l' Hp IH | x y l | l l' l'' Hp1 IH1 Hp2 IH2]; simpl.
  - constructor.
  - apply Permutation_app_head. exact IH.
  - rewrite !app_assoc. apply Permutation_app_tail. apply Permutation_app_comm.
  - eapply Permutation_trans; eassumption.
Qed.

Lemma histogram_sorted :
  forall xs,
    StronglySorted (fun a b => (fst a < fst b)%Q) (sort_index (value_counts xs)).
Proof.
  intro xs. apply sorted_distinct_strict.
  - unfold sort_index. apply (sort_by_sorted _ _ key_leb_total key_leb_trans).
  - unfold sort_index. apply (sort_by_distinct _ _ key_eqb key_eqb_sym).
    apply value_counts_distinct.
Qed.

Lemma histogram_in :
  forall xs k n,
    In (k, n) (sort_index (value_counts xs)) <->
    In k (unique (dropna_values xs)) /\ n = occurrences k (dropna_values xs).
Proof.
  intros xs k n. unfold sort_index. rewrite sort_by_in.
  apply value_counts_in.
Qed.

Lemma histogram_entry_transfers :
  forall xs xs' a,
    Permutation xs xs' ->
    In a (sort_index (value_counts xs)) ->
    exists b,
      In b (sort_index (value_counts xs'))
      /\ (fst a == fst b)%Q /\ snd a = snd b.
Proof.
  intros xs xs' [k n] Hp Ha. apply histogram_in in Ha.
  destruct Ha as [Hk ->]. apply unique_subset in Hk.
  pose proof (dropna_values_permutation xs xs' Hp) as Hpv.
  apply (Permutation_in _ Hpv) in Hk.
  destruct (unique_covers _ k Hk) as [k' [Hk' Heq]].
  exists (k', occurrences k' (dropna_values xs')). split.
  - apply histogram_in. split; [exact Hk' | reflexivity].
  - simpl. split.
    + apply Qeq_bool_iff. apply Qeq_bool_sym. exact Heq.
    + rewrite (occurrences_permutation k _ _ Hpv).
      apply occurrences_key. apply Qeq_bool_sym. exact Heq.
Qed.

Lemma strictly_sorted_same :
  forall h1 h2 : list (Q * nat),
    StronglySorted (fun a b => (fst a < fst b)%Q) h1 ->
    StronglySorted (fun a b => (fst a < fst b)%Q) h2 ->
    (forall a, In a h1 ->
       exists b, In b h2 /\ (fst a == fst b)%Q /\ snd a = snd b) ->
    (forall b, In b h2 ->
       exists a, In a h1 /\ (fst a == fst b)%Q /\ snd a = snd b) ->
    same_histogram h1 h2.
Proof.
  induction h1 as [| a r1 IH]; intros h2 Hs1 Hs2 H12 H21.
  - destruct h2 as [| b r2]; [constructor |].
    destruct (H21 b (or_introl eq_refl)) as [a [[] _]].
  - destruct h2 as [| b r2].
    { destruct (H12 a (or_introl eq_refl)) as [b [[] _]]. }
    inversion Hs1 as [| a' r1' Hs1' Ha]; subst.
    inversion Hs2 as [| b' r2' Hs2' Hb]; subst.
    rewrite Forall_forall in Ha, Hb.
    assert (Hab : (fst a == fst b)%Q /\ snd a = snd b).
    { destruct (H12 a (or_introl eq_refl)) as [b' [[<- | Hb'] Hrel]];
        [exact Hrel |].
      destruct (H21 b (or_introl eq_refl)) as [a' [[<- | Ha'] Hrel']].
      - exact Hrel'.
      - exfalso. specialize (Ha a' Ha'). specialize (Hb b' Hb').
        destruct Hrel as [E1 _]. destruct Hrel' as [E2 _]. lra. }
    constructor; [exact Hab |].
    destruct Hab as [Eab _].
    apply IH; try assumption.
    + intros x Hx. destruct (H12 x (or_intror Hx)) as [y [[<- | Hy] Hrel]].
      * exfalso. specialize (Ha x Hx). destruct Hrel as [E _]. lra.
      * exists y. split; assumption.
    + intros y Hy. destruct (H21 y (or_intror Hy)) as [x [[<- | Hx] Hrel]].
      * exfalso. specialize (Hb y Hy). destruct Hrel as [E _]. lra.
      * exists x. split; assumption.
Qed.

(** X11: the rating histogram does not depend on the order of the rows:
    two orders of the same ratings give the same rating values with the
    same counts. *)
Theorem rating_histogram_order_independent :
  forall (xs xs' : list (option Q)),
    Permutation xs xs' ->
    same_histogram (sort_index (value_counts xs))
                   (sort_index (value_counts xs')).
Proof.
  intros xs xs' Hp. apply strictly_sorted_same.
  - apply histogram_sorted.
  - apply histogram_sorted.
  - intros a Ha. eapply histogram_entry_transfers; eassumption.
  - intros b Hb.
    destruct (histogram_entry_transfers xs' xs b (Permutation_sym Hp) Hb)
      as [a [Ha [E1 E2]]].
    exists a. split; [exact Ha |]. split; [symmetry; exact E1 | congruence].
Qed.

Lemma rating_histogram_order_independent_witness :
  same_histogram
    (sort_index (value_counts [Some (inject_Z 5); None; Some (inject_Z 3)]))
    (sort_index (value_counts [None; Some (inject_Z 5); Some (inject_Z 3)])).
Proof.
  apply (rating_histogram_order_independent
           [Some (inject_Z 5); None; Some (inject_Z 3)]
           [None; Some (inject_Z 5); Some (inject_Z 3)]).
  apply perm_swap.
Defined.

(** ** The files the page writes *)

(** X12: the file the [csv] writer produces determines its rows: two lists
    of rows (none of them without a field) that give the same file text
    are equal, whatever commas, quotes and line feeds the fields hold. *)
Theorem csv_file_injective :
  forall (rows1 rows2 : list (list string)),
    Forall (fun r => r <> []) rows1 ->
    Forall (fun r => r <> []) rows2 ->
    csv_file rows1 = csv_file rows2 ->
    rows1 = rows2.
Proof.
  intros rows1 rows2 H1 H2 Heq.
  rewrite <- (parse_csv_file rows1 H1), <- (parse_csv_file rows2 H2).
  rewrite Heq. reflexivity.
Qed.

Lemma csv_file_injective_witness :
  [["stars"; "text"]; ["5"; "a,b"]] = [["stars"; "text"]; ["5"; "a,b"]].
Proof.
  apply (csv_file_injective [["stars"; "text"]; ["5"; "a,b"]]
                            [["stars"; "text"]; ["5"; "a,b"]]).
  - repeat constructor; discriminate.
  - repeat constructor; discriminate.
  - reflexivity.
Defined.

Lemma universal_newlines_no_cr_step :
  forall s,
    has_cr (universal_newlines s) = false
    /\ forall c, has_cr (universal_newlines (String c s)) = false.
Proof.
  induction s as [| a r [IH1 IH2]].
  - split; [reflexivity |]. intro c. simpl.
    destruct (Ascii.eqb c CR) eqn:E; [reflexivity |].
    unfold has_cr. simpl. rewrite E. reflexivity.
  - split; [apply IH2 |]. intro c.
    change (universal_newlines (String c (String a r)))
      with (if Ascii.eqb c CR
            then String LF (if Ascii.eqb a LF then universal_newlines r
                            else universal_newlines (String a r))
            else String c (universal_newlines (String a r))).
    destruct (Ascii.eqb c CR) eqn:E.
    + destruct (Ascii.eqb a LF).
      * unfold has_cr in *. simpl. exact IH1.
      * unfold has_cr in *. simpl. apply IH2.
    + unfold has_cr in *. simpl string_exists. rewrite E. simpl.
      apply IH2.
Qed.

Lemma universal_newlines_no_cr :
  forall s, has_cr (universal_newlines s) = false.
Proof. intro s. apply universal_newlines_no_cr_step. Qed.

Section TransferText.

Variable repr_float : Q -> string.
Variable str_object : value -> string.

(** X13: the text embedded in the analysis request never holds a carriage
    return, whatever the review texts hold, and reading it in text mode
    once more would not change it. *)
Theorem csv_data_has_no_carriage_return :
  forall (df : DataFrame) (text : string),
    csv_data repr_float str_object df = Ok text ->
    has_cr text = false /\ universal_newlines text = text.
Proof.
  intros df text Htext. unfold csv_data in Htext. bind_inv Htext.
  injection Htext as <-.
  assert (Hcr : has_cr (universal_newlines (to_csv repr_float str_object a))
                = false) by apply universal_newlines_no_cr.
  split; [exact Hcr | apply universal_newlines_id; exact Hcr].
Qed.

Lemma filter_mask_all_null :
  forall (A : Type) (ct : list value) (l : list A),
    Forall (fun t => t = VNull) ct -> filter_mask (map notna ct) l = [].
Proof.
  intros A ct. induction ct as [| t ct IH]; intros l Hall.
  - reflexivity.
  - inversion Hall as [| t' ct' Ht Hct]; subst. simpl.
    destruct l as [| x l]; [reflexivity | apply IH; exact Hct].
Qed.

Lemma mask_all_null :
  forall ct,
    Forall (fun t => t = VNull) ct ->
    filter (fun b : bool => b) (map notna ct) = [].
Proof.
  induction ct as [| t ct IH]; intro Hall.
  - reflexivity.
  - inversion Hall as [| t' ct' Ht Hct]; subst. simpl. apply IH. exact Hct.
Qed.

(** X14: when no row has a text the analysis is still requested, on a
    transfer text that is the header line alone. *)
Theorem csv_data_without_text_is_header :
  forall (df : DataFrame) (cs ct : list value),
    getitem df "stars" = Ok cs ->
    getitem df "text" = Ok ct ->
    Forall (fun t => t = VNull) ct ->
    csv_data repr_float str_object df
    = Ok ("stars,text" ++ lineterminator)%string.
Proof.
  intros df cs ct Hs Ht Hall. unfold csv_data.
  rewrite (project_for_ai_spec df cs ct Hs Ht). unfold bind, projected.
  rewrite !(filter_mask_all_null _ ct _ Hall), (mask_all_null ct Hall).
  reflexivity.
Qed.

Lemma filter_mask_notna :
  forall ct, Forall (fun t => notna t = true) (filter_mask (map notna ct) ct).
Proof.
  induction ct as [| t ct IH]; simpl.
  - constructor.
  - destruct (notna t) eqn:E; [constructor; assumption | exact IH].
Qed.

Lemma filter_mask_all_present :
  forall (A : Type) (ct : list value) (l : list A),
    Forall (fun t => notna t = true) ct ->
    List.length l = List.length ct ->
    filter_mask (map notna ct) l = l.
Proof.
  intros A ct. induction ct as [| t ct IH]; intros l Hall Hlen.
  - destruct l; [reflexivity | discriminate].
  - destruct l as [| x l]; [discriminate |].
    inversion Hall as [| t' ct' Ht Hct]; subst. simpl. rewrite Ht.
    simpl in Hlen. injection Hlen as Hlen. rewrite (IH l Hct Hlen).
    reflexivity.
Qed.

Lemma mask_all_present :
  forall ct,
    Forall (fun t => notna t = true) ct ->
    List.length (filter (fun b : bool => b) (map notna ct)) = List.length ct.
Proof.
  induction ct as [| t ct IH]; intro Hall.
  - reflexivity.
  - inversion Hall as [| t' ct' Ht Hct]; subst. simpl. rewrite Ht. simpl.
    rewrite (IH Hct). reflexivity.
Qed.

(** X15: the projection is stable: projecting the projected frame again
    returns it unchanged, so no row of it has a missing text. *)
Theorem project_for_ai_idempotent :
  forall (df p : DataFrame),
    well_formed df ->
    project_for_ai df = Ok p ->
    project_for_ai p = Ok p.
Proof.
  intros df p Hwf Hp.
  unfold project_for_ai, select_columns in Hp. simpl in Hp.
  destruct (getitem df "stars") as [cs | e] eqn:Hs; [| discriminate].
  destruct (getitem df "text") as [ct | e] eqn:Ht; [| discriminate].
  simpl in Hp. unfold dropna_subset, getitem in Hp. simpl in Hp.
  injection Hp as <-.
  pose proof (well_formed_getitem df _ _ Hwf Hs) as Hls.
  pose proof (well_formed_getitem df _ _ Hwf Ht) as Hlt.
  set (mask := map notna ct).
  set (cs' := filter_mask mask cs). set (ct' := filter_mask mask ct).
  assert (Hmask : List.length mask = List.length ct) by apply length_map.
  assert (Hlc : List.length cs' = List.length ct').
  { unfold cs', ct'. rewrite !filter_mask_length_le by congruence.
    reflexivity. }
  assert (Hpresent : Forall (fun t => notna t = true) ct')
    by apply filter_mask_notna.
  rewrite (project_for_ai_spec _ cs' ct'); [| reflexivity | reflexivity].
  unfold projected.
  rewrite (filter_mask_all_present _ ct' cs' Hpresent Hlc).
  rewrite (filter_mask_all_present _ ct' ct' Hpresent eq_refl).
  rewrite (mask_all_present ct' Hpresent).
  unfold ct'. rewrite filter_mask_length_le by exact Hmask. reflexivity.
Qed.

End TransferText.

Lemma csv_data_has_no_carriage_return_witness :
  has_cr ("stars,text" ++ lineterminator
          ++ String "5" (String "," (String quotechar text_with_lf))
          ++ String quotechar lineterminator)%string = false
  /\ universal_newlines
       ("stars,text" ++ lineterminator
        ++ String "5" (String "," (String quotechar text_with_lf))
        ++ String quotechar lineterminator)%string
     = ("stars,text" ++ lineterminator
        ++ String "5" (String "," (String quotechar text_with_lf))
        ++ String quotechar lineterminator)%string.
Proof.
  apply (csv_data_has_no_carriage_return fraction_repr tag_object
           table_with_crlf).
  reflexivity.
Defined.

Lemma csv_data_without_text_is_header_witness :
  csv_data fraction_repr tag_object
    (mkDF 2 [("stars", [VInt 4; VInt 2]); ("text", [VNull; VNull])])
  = Ok ("stars,text" ++ lineterminator)%string.
Proof.
  apply (csv_data_without_text_is_header fraction_repr tag_object
           (mkDF 2 [("stars", [VInt 4; VInt 2]); ("text", [VNull; VNull])])
           [VInt 4; VInt 2] [VNull; VNull]).
  - reflexivity.
  - reflexivity.
  - repeat constructor.
Defined.

Lemma project_for_ai_idempotent_witness :
  project_for_ai (mkDF 1 [("stars", [VInt 5]); ("text", [VStr "Great"])])
  = Ok (mkDF 1 [("stars", [VInt 5]); ("text", [VStr "Great"])]).
Proof.
  apply (project_for_ai_idempotent scenario_table).
  - unfold well_formed. simpl. repeat constructor.
  - reflexivity.
Defined.

(** ** The scraper *)

Lemma fold_left_append_items :
  forall (A : Type) (items acc : list A),
    fold_left (fun reviews_data item => reviews_data ++ [item]) items acc
    = acc ++ items.
Proof.
  intros A items. induction items as [| x rest IH]; intro acc; simpl.
  - symmetry. apply app_nil_r.
  - rewrite IH. rewrite <- app_assoc. reflexivity.
Qed.

(** X16: [scrape_google_maps_reviews] returns every item the dataset
    yields, in the order of the dataset: it drops none, adds none, and
    does not cut the list at [max_reviews]; a run without a
    [defaultDatasetId] raises [KeyError]. *)
Theorem scrape_returns_every_item :
  forall (actor_call : string -> value -> attempt record)
         (iterate_items : value -> attempt (list record))
         (url : string) (max_reviews : Z) (run : record),
    actor_call GOOGLE_MAPS_SCRAPER_ID (run_input url max_reviews) = Done run ->
    (forall dataset_id items,
        dict_get "defaultDatasetId" run = Some dataset_id ->
        iterate_items dataset_id = Done items ->
        scrape_google_maps_reviews actor_call iterate_items url max_reviews
        = Done items)
    /\ (dict_get "defaultDatasetId" run = None ->
        scrape_google_maps_reviews actor_call iterate_items url max_reviews
        = Failed (PythonError (KeyError "defaultDatasetId"))).
Proof.
  intros actor_call iterate_items url max_reviews run Hrun. split.
  - intros dataset_id items Hid Hitems. unfold scrape_google_maps_reviews.
    rewrite Hrun. simpl. unfold dict_getitem. rewrite Hid. simpl.
    rewrite Hitems. simpl. rewrite fold_left_append_items. reflexivity.
  - intro Hid. unfold scrape_google_maps_reviews.
    rewrite Hrun. simpl. unfold dict_getitem. rewrite Hid. reflexivity.
Qed.

Lemma scrape_returns_every_item_witness :
  (forall dataset_id items,
      dict_get "defaultDatasetId"
        [("id", VStr "run-1"); ("defaultDatasetId", VStr "dataset-1")]
      = Some dataset_id ->
      sample_iterate_items dataset_id = Done items ->
      scrape_google_maps_reviews sample_actor_call sample_iterate_items
        "https://maps.example/cafe-x" 1
      = Done items)
  /\ (dict_get "defaultDatasetId"
        [("id", VStr "run-1"); ("defaultDatasetId", VStr "dataset-1")]
      = None ->
      scrape_google_maps_reviews sample_actor_call sample_iterate_items
        "https://maps.example/cafe-x" 1
      = Failed (PythonError (KeyError "defaultDatasetId"))).
Proof.
  apply (scrape_returns_every_item sample_actor_call sample_iterate_items
           "https://maps.example/cafe-x" 1
           [("id", VStr "run-1"); ("defaultDatasetId", VStr "dataset-1")]).
  reflexivity.
Defined.

(** With one review asked for, the sample dataset still comes back whole. *)
Example scrape_is_not_capped :
  scrape_google_maps_reviews sample_actor_call sample_iterate_items
    "https://maps.example/cafe-x" 1
  = Done scenario_records.
Proof. reflexivity. Qed.

(** ** The session *)

Section Session.

Context {G : Type} `{RandomSource G}.
Variable floatify : string -> option scalar.

Lemma process_reviews_data_built :
  forall now (g : G) rs df g',
    process_reviews_data floatify now g rs = Ok (df, g') -> built_table df.
Proof.
  intros now g rs df g' Hrun.
  assert (Hne : rs <> []).
  { intro Hnil. subst rs. simpl in Hrun. discriminate. }
  destruct (process_reviews_data_table floatify now g rs df g' Hrun)
    as [Hwf [Hlen [Hstars [ts [Hts _]]]]].
  split; [exact Hwf |]. split.
  - rewrite Hlen. destruct rs; [contradiction | simpl; lia].
  - split; [exact Hstars |]. exists ts. exact Hts.
Qed.

Lemma create_graphs_built_ok :
  forall df, built_table df -> exists charts, create_graphs df = Ok charts.
Proof.
  intros df [_ [_ [[stars [xs [Hs Hxs]]] [ts Hts]]]].
  unfold create_graphs, rating_histogram, monthly_counts.
  rewrite Hs. simpl. rewrite Hxs. simpl. rewrite Hts. simpl.
  rewrite datetime_view_times. simpl. eexists. reflexivity.
Qed.

(** What a click on the fetch button does to the session. *)
Lemma on_fetch_cases :
  forall (c : click) (g : G) (ss : session_state),
    (exists f, on_fetch floatify c g ss = (ss, g, Some f))
    \/ (click_url c = EmptyString /\ on_fetch floatify c g ss = (ss, g, None))
    \/ (exists rs df g',
          click_url c <> EmptyString
          /\ click_scrape c (click_url c) (click_max_reviews c) = Done rs
          /\ process_reviews_data floatify (click_now c) g rs = Ok (df, g')
          /\ on_fetch floatify c g ss
             = (mkSession (Some df) (Some true), g', None)).
Proof.
  intros c g ss. unfold on_fetch.
  destruct (click_url c) as [| a url] eqn:Hurl.
  - right. left. split; reflexivity.
  - destruct (click_scrape c (String a url) (click_max_reviews c))
      as [rs | f] eqn:Hscrape.
    + destruct (process_reviews_data floatify (click_now c) g rs)
        as [[df g'] | e] eqn:Hrun.
      * right. right. exists rs, df, g'.
        split; [discriminate |]. split; [reflexivity |].
        split; [exact Hrun | reflexivity].
      * left. eexists. reflexivity.
    + left. eexists. reflexivity.
Qed.


Lemma on_fetch_keeps_session_ok :
  forall (c : click) (g : G) (ss : session_state),
    session_ok ss -> session_ok (fst (fst (on_fetch floatify c g ss))).
Proof.
  intros c g ss Hok.
  destruct (on_fetch_cases c g ss)
    as [[f Hf] | [[Hurl Hnone] | [rs [df [g1 [Hurl [Hs [Hp Hdone]]]]]]]].
  - rewrite Hf. exact Hok.
  - rewrite Hnone. exact Hok.
  - rewrite Hdone. simpl. unfold session_ok. simpl.
    split; [reflexivity |]. exists df. split; [reflexivity |].
    eapply process_reviews_data_built. exact Hp.
Qed.

Lemma run_session_keeps_session_ok :
  forall (clicks : list click) (g : G) (ss : session_state),
    session_ok ss -> session_ok (fst (run_session floatify clicks g ss)).
Proof.
  induction clicks as [| c rest IH]; intros g ss Hok; simpl.
  - exact Hok.
  - pose proof (on_fetch_keeps_session_ok c g ss Hok) as Hstep.
    destruct (on_fetch floatify c g ss) as [[ss' g'] outcome]. simpl in Hstep.
    apply IH. exact Hstep.
Qed.

(** X18: whatever is clicked, in whatever order and with whatever the
    scraper returns, the session is consistent: either it holds nothing,
    or the flag is set and the stored table is a built table, with at
    least one row; so the lookup of the stored table never fails and its
    two charts are always computed. *)
Theorem session_stays_consistent :
  forall (clicks : list click) (g : G),
    let ss := fst (run_session floatify clicks g fresh_session) in
    session_ok ss
    /\ (data_loaded ss = true ->
        exists df charts,
          ss_df ss = Some df
          /\ built_table df
          /\ create_graphs df = Ok charts)
    /\ (data_loaded ss = false -> ss_df ss = None).
Proof.
  intros clicks g ss.
  assert (Hok : session_ok ss).
  { apply run_session_keeps_session_ok. reflexivity. }
  split; [exact Hok |]. unfold session_ok, data_loaded in *.
  destruct (ss_data_loaded ss) as [b |].
  - destruct Hok as [-> [df [Hdf Hb]]]. split.
    + intros _. destruct (create_graphs_built_ok df Hb) as [charts Hc].
      exists df, charts. split; [exact Hdf |]. split; [exact Hb | exact Hc].
    + discriminate.
  - split; [discriminate | intros _; exact Hok].
Qed.

End Session.


(** ** The page on a stored table *)

Section ShowData.

Variable repr_float : Q -> string.
Variable str_object : value -> string.
Variable messages_create : string -> message_request -> attempt (list string).
Variable ANTHROPIC_API_KEY : string.
Variable system_prompt_insight_analysis : string.

#[local] Abbreviation show :=
  (show_data repr_float str_object messages_create ANTHROPIC_API_KEY
     system_prompt_insight_analysis).

(** The request of lines 78-86 for a given transfer text. *)
#[local] Abbreviation request_for csv_text :=
  (mkRequest "claude-3-opus-20240229" 3000 (7 # 10)
     system_prompt_insight_analysis
     [("user", (user_message_template ++ csv_text)%string)]).

Lemma summary_built_ok :
  forall df,
    built_table df ->
    In "title" (column_labels df) ->
    In "categoryName" (column_labels df) ->
    In "reviewsCount" (column_labels df) ->
    exists s, summary df = Ok s.
Proof.
  intros df Hb Ht Hc Hn.
  assert (Hstars : exists stars xs,
             getitem df "stars" = Ok stars
             /\ numeric_view "stars" stars = Ok xs)
    by (destruct Hb as [_ [_ [Hs _]]]; exact Hs).
  destruct Hstars as [stars [xs [Hs Hxs]]].
  destruct (getitem_in_labels df _ Ht) as [c1 H1].
  destruct (getitem_in_labels df _ Hc) as [c2 H2].
  destruct (getitem_in_labels df _ Hn) as [c3 H3].
  destruct (iloc0_built df _ _ Hb H1) as [v1 Hv1].
  destruct (iloc0_built df _ _ Hb H2) as [v2 Hv2].
  destruct (iloc0_built df _ _ Hb H3) as [v3 Hv3].
  unfold summary. rewrite H1. simpl. rewrite Hv1. simpl.
  rewrite H2. simpl. rewrite Hv2. simpl.
  rewrite H3. simpl. rewrite Hv3. simpl.
  rewrite Hs. simpl. rewrite Hxs. simpl. eexists. reflexivity.
Qed.

Lemma built_table_table_steps :
  forall df,
    built_table df ->
    In "text" (column_labels df) ->
    exists shown charts csv_text,
      select_columns df ["review_date"; "stars"; "text"] = Ok shown
      /\ create_graphs df = Ok charts
      /\ csv_data repr_float str_object df = Ok csv_text.
Proof.
  intros df Hb Htext.
  destruct (getitem_in_labels df _ Htext) as [ct Hct].
  pose proof Hb as [_ [_ [[stars [xs [Hs Hxs]]] [ts Hts]]]].
  assert (Hcharts : exists charts, create_graphs df = Ok charts).
  { unfold create_graphs, rating_histogram, monthly_counts.
    rewrite Hs. simpl. rewrite Hxs. simpl. rewrite Hts. simpl.
    rewrite datetime_view_times. simpl. eexists. reflexivity. }
  destruct Hcharts as [charts Hcharts].
  exists (mkDF (index_len df)
            [("review_date", map VTime ts); ("stars", stars); ("text", ct)]),
    charts,
    (universal_newlines (to_csv repr_float str_object (projected stars ct))).
  split.
  - unfold select_columns. simpl. rewrite Hts, Hs, Hct. reflexivity.
  - split; [exact Hcharts |].
    unfold csv_data. rewrite (project_for_ai_spec df stars ct Hs Hct).
    reflexivity.
Qed.

(** X19: on a built table that holds the columns [title], [categoryName],
    [reviewsCount] and [text], the page is always rendered while the
    analysis is not asked for, and the text saved to the file is the text
    offered for download; when the analysis is asked for, the only step
    that can fail is the request to the model (or a reply without a
    content block, [IndexError]), the request carries the fixed
    introduction followed by the transfer text, and the rest of the page
    is the same as without the analysis. *)
Theorem page_of_built_table :
  forall (df : DataFrame),
    built_table df ->
    In "title" (column_labels df) ->
    In "categoryName" (column_labels df) ->
    In "reviewsCount" (column_labels df) ->
    In "text" (column_labels df) ->
    exists p csv_text,
      show df false = Done p
      /\ page_analysis p = None
      /\ page_download p = page_saved_csv p
      /\ csv_data repr_float str_object df = Ok csv_text
      /\ (forall f,
             show df true = Failed f ->
             messages_create ANTHROPIC_API_KEY (request_for csv_text)
             = Failed f
             \/ (messages_create ANTHROPIC_API_KEY (request_for csv_text)
                 = Done []
                 /\ f = PythonError IndexError))
      /\ (forall text more,
             messages_create ANTHROPIC_API_KEY (request_for csv_text)
             = Done (text :: more) ->
             show df true
             = Done (mkPage (page_summary p) (page_saved_csv p) (page_table p)
                       (page_charts p) (page_download p) (Some text))).
Proof.
  intros df Hb Ht Hc Hn Htext.
  destruct (summary_built_ok df Hb Ht Hc Hn) as [s Hs].
  destruct (built_table_table_steps df Hb Htext)
    as [shown [charts [csv_text [Hshown [Hcharts Hcsv]]]]].
  exists (mkPage s (to_csv repr_float str_object df) shown charts
            (to_csv repr_float str_object df) None), csv_text.
  split.
  { unfold show_data. rewrite Hs. simpl. rewrite Hshown. simpl.
    rewrite Hcharts. reflexivity. }
  split; [reflexivity |]. split; [reflexivity |]. split; [exact Hcsv |].
  split.
  - intros f Hf. unfold show_data in Hf. rewrite Hs in Hf.
    cbn [lift and_then] in Hf. rewrite Hshown in Hf.
    cbn [lift and_then] in Hf. rewrite Hcharts in Hf.
    cbn [lift and_then] in Hf. rewrite Hcsv in Hf.
    cbn [lift and_then] in Hf. unfold get_ai_analysis in Hf.
    destruct (messages_create ANTHROPIC_API_KEY (request_for csv_text))
      as [[| text more] | f'] eqn:Hreply; cbn [and_then] in Hf.
    + right. split; [reflexivity |]. injection Hf as <-. reflexivity.
    + discriminate.
    + left. injection Hf as <-. reflexivity.
  - intros text more Hreply. unfold show_data. rewrite Hs.
    cbn [lift and_then]. rewrite Hshown. cbn [lift and_then].
    rewrite Hcharts. cbn [lift and_then]. rewrite Hcsv.
    cbn [lift and_then]. unfold get_ai_analysis. rewrite Hreply.
    reflexivity.
Qed.

End ShowData.

Lemma page_of_built_table_witness :
  exists p csv_text,
    show_data fraction_repr tag_object sample_messages_create "key" "prompt"
      scenario_table false = Done p
    /\ page_analysis p = None
    /\ page_download p = page_saved_csv p
    /\ csv_data fraction_repr tag_object scenario_table = Ok csv_text
    /\ (forall f,
           show_data fraction_repr tag_object sample_messages_create "key"
             "prompt" scenario_table true = Failed f ->
           sample_messages_create "key"
             (mkRequest "claude-3-opus-20240229" 3000 (7 # 10) "prompt"
                [("user", (user_message_template ++ csv_text)%string)])
           = Failed f
           \/ (sample_messages_create "key"
                 (mkRequest "claude-3-opus-20240229" 3000 (7 # 10) "prompt"
                    [("user", (user_message_template ++ csv_text)%string)])
               = Done []
               /\ f = PythonError IndexError))
    /\ (forall text more,
           sample_messages_create "key"
             (mkRequest "claude-3-opus-20240229" 3000 (7 # 10) "prompt"
                [("user", (user_message_template ++ csv_text)%string)])
           = Done (text :: more) ->
           show_data fraction_repr tag_object sample_messages_create "key"
             "prompt" scenario_table true
           = Done (mkPage (page_summary p) (page_saved_csv p) (page_table p)
                     (page_charts p) (page_download p) (Some text))).
Proof.
  apply (page_of_built_table fraction_repr tag_object sample_messages_create
           "key" "prompt" scenario_table scenario_table_built).
  - vm_compute. tauto.
  - vm_compute. tauto.
  - vm_compute. tauto.
  - vm_compute. tauto.
Defined.

(** ** Saving the prompt and loading it again *)

Lemma snoc_append :
  forall (body : string) (a : ascii) (r : string),
    (snoc body a ++ r)%string = (body ++ String a r)%string.
Proof.
  intros body a r. unfold snoc. induction body as [| c body IH]; simpl.
  - reflexivity.
  - rewrite IH. reflexivity.
Qed.

Lemma append_empty : forall s : string, (s ++ EmptyString)%string = s.
Proof.
  induction s as [| c s IH]; simpl; [reflexivity | rewrite IH; reflexivity].
Qed.

Lemma append_associative :
  forall a b c : string, ((a ++ b) ++ c)%string = (a ++ b ++ c)%string.
Proof.
  induction a as [| x a IH]; intros b c; simpl.
  - reflexivity.
  - rewrite IH. reflexivity.
Qed.

Lemma string_exists_append :
  forall (f : ascii -> bool) (a b : string),
    string_exists f (a ++ b)%string
    = string_exists f a || string_exists f b.
Proof.
  intros f a b. induction a as [| c a IH]; simpl.
  - reflexivity.
  - rewrite IH. rewrite orb_assoc. reflexivity.
Qed.

Lemma strip_prefix_append :
  forall prefix s, strip_prefix prefix (prefix ++ s)%string = Some s.
Proof.
  induction prefix as [| a prefix IH]; intro s; simpl.
  - destruct s; reflexivity.
  - rewrite Ascii.eqb_refl. apply IH.
Qed.

(** The token ends at the three quotes that follow a body without
    backslash, without three quotes in a row and without a final quote. *)
Lemma string_token_plain :
  forall (p rest body : string),
    has_backslash p = false ->
    has_triple_quote p = false ->
    ends_with_quote p = false ->
    string_token (p ++ triple_quote ++ rest)%string body
    = Some ((body ++ p)%string, rest).
Proof.
  induction p as [| a r IH]; intros rest body Hb Ht He.
  - simpl. rewrite append_empty. reflexivity.
  - unfold has_backslash in Hb. simpl in Hb. apply orb_false_elim in Hb.
    destruct Hb as [Ha Hb].
    simpl in Ht. apply orb_false_elim in Ht. destruct Ht as [Hq Ht].
    assert (Her : ends_with_quote r = false).
    { destruct r as [| b r']; [reflexivity |].
      unfold ends_with_quote in *. simpl in He. exact He. }
    change (String a r ++ triple_quote ++ rest)%string
      with (String a (r ++ triple_quote ++ rest))%string.
    cbn [string_token].
    destruct (Ascii.eqb a squote) eqn:Hsq.
    + assert (Hnone : after_two_quotes (r ++ triple_quote ++ rest)%string
                      = None).
      { simpl in Hq.
        destruct r as [| b [| c r']].
        - unfold ends_with_quote in He. simpl in He. congruence.
        - unfold ends_with_quote in He. simpl in He. simpl.
          rewrite He. reflexivity.
        - simpl in Hq. simpl.
          destruct (Ascii.eqb b squote && Ascii.eqb c squote);
            [discriminate | reflexivity]. }
      rewrite Hnone. rewrite (IH rest (snoc body a) Hb Ht Her).
      rewrite snoc_append. reflexivity.
    + rewrite Ha. rewrite (IH rest (snoc body a) Hb Ht Her).
      rewrite snoc_append. reflexivity.
Qed.

Lemma plain_prompt_inv :
  forall p,
    plain_prompt p = true ->
    has_backslash p = false /\ has_triple_quote p = false
    /\ ends_with_quote p = false.
Proof.
  intros p Hp. unfold plain_prompt in Hp.
  apply andb_prop in Hp. destruct Hp as [Hp He].
  apply andb_prop in Hp. destruct Hp as [Hb Ht].
  apply negb_true_iff in Hb, Ht, He. repeat split; assumption.
Qed.

(** Loading a file that holds a plain body, three quotes and more text. *)
Lemma load_prompt_token :
  forall (decode_escapes : string -> option string) (p rest : string),
    plain_prompt p = true ->
    has_cr p = false -> has_nul p = false ->
    has_cr rest = false -> has_nul rest = false ->
    load_prompt decode_escapes
      (("system_prompt_insight_analysis = " ++ triple_quote)
       ++ p ++ triple_quote ++ rest)%string
    = Some (p, rest).
Proof.
  intros decode p rest Hp Hcr Hnul Hcr' Hnul'.
  destruct (plain_prompt_inv p Hp) as [Hb [Ht He]].
  unfold load_prompt.
  assert (Hn : has_nul (("system_prompt_insight_analysis = " ++ triple_quote)
                        ++ p ++ triple_quote ++ rest)%string = false).
  { unfold has_nul in *. rewrite !string_exists_append.
    rewrite Hnul, Hnul'. reflexivity. }
  rewrite Hn.
  assert (Hc : has_cr (("system_prompt_insight_analysis = " ++ triple_quote)
                       ++ p ++ triple_quote ++ rest)%string = false).
  { rewrite !has_cr_append. rewrite Hcr, Hcr'. reflexivity. }
  rewrite (universal_newlines_id _ Hc). rewrite strip_prefix_append.
  rewrite (string_token_plain p rest EmptyString Hb Ht He).
  unfold literal_value. unfold has_backslash in Hb. simpl. rewrite Hb.
  reflexivity.
Qed.

(** X20: a prompt without backslash, without three quotes in a row,
    without a final quote, without carriage return and without null
    character is loaded back from the saved file as it was typed, and
    nothing follows the string literal in the file. *)
Theorem saved_prompt_loads_back :
  forall (decode_escapes : string -> option string) (edited_prompt : string),
    plain_prompt edited_prompt = true ->
    has_cr edited_prompt = false ->
    has_nul edited_prompt = false ->
    load_prompt decode_escapes (prompt_file edited_prompt)
    = Some (edited_prompt, EmptyString).
Proof.
  intros decode p Hp Hcr Hnul.
  pose proof (load_prompt_token decode p EmptyString Hp Hcr Hnul
                eq_refl eq_refl) as Hload.
  unfold prompt_file. rewrite <- append_associative.
  exact Hload.
Qed.

Lemma saved_prompt_loads_back_witness :
  load_prompt sample_decode_escapes
    (prompt_file "List the complaints of the reviews; don't praise.")
  = Some ("List the complaints of the reviews; don't praise.", EmptyString).
Proof.
  apply (saved_prompt_loads_back sample_decode_escapes
           "List the complaints of the reviews; don't praise.");
    reflexivity.
Defined.

Lemma lexer_run_append :
  forall a b st,
    lexer_run st (a ++ b)%string = lexer_run (lexer_run st a) b.
Proof.
  induction a as [| c a IH]; intros b st; simpl.
  - reflexivity.
  - apply IH.
Qed.

Lemma plain_char_inv :
  forall c,
    plain_char c = true ->
    is_quote c = false /\ Ascii.eqb c hash = false
    /\ Ascii.eqb c backslash = false /\ Ascii.eqb c "{"%char = false
    /\ Ascii.eqb c CR = false /\ Ascii.eqb c "000"%char = false.
Proof.
  intros c Hc. unfold plain_char in Hc. apply negb_true_iff in Hc.
  repeat (apply orb_false_elim in Hc; destruct Hc as [Hc ?]).
  unfold is_quote. rewrite Hc. repeat split; assumption.
Qed.

(** Plain text leaves the tokenizer in code, and holds no brace, no
    carriage return and no null character. *)
Lemma plain_code_facts :
  forall s,
    plain_code s = true ->
    lexer_run InCode s = InCode
    /\ has_brace s = false /\ has_cr s = false /\ has_nul s = false.
Proof.
  induction s as [| c s IH]; intro Hs.
  - repeat split; reflexivity.
  - simpl in Hs. apply andb_prop in Hs. destruct Hs as [Hc Hs].
    destruct (plain_char_inv c Hc) as [Hq [Hh [_ [Hb [Hcr Hn]]]]].
    destruct (IH Hs) as [Hrun [Hbrace [Hcr' Hnul']]].
    split.
    + simpl. unfold code_step. rewrite Hq, Hh. exact Hrun.
    + unfold has_brace, has_cr, has_nul in *. simpl.
      rewrite Hb, Hcr, Hn, Hbrace, Hcr', Hnul'. repeat split; reflexivity.
Qed.

(** The import of a file that holds a plain body, three quotes and more
    text, when that text ends inside a string literal. *)
Lemma import_prompt_open_rest :
  forall (decode_escapes : string -> option string)
         (p : string) (c : ascii) (rest : string),
    plain_prompt p = true ->
    has_cr p = false -> has_nul p = false ->
    has_cr (String c rest) = false -> has_nul (String c rest) = false ->
    has_brace (String c rest) = false ->
    unterminated (lexer_run InCode (String c rest)) = true ->
    import_prompt decode_escapes
      (("system_prompt_insight_analysis = " ++ triple_quote)
       ++ p ++ triple_quote ++ String c rest)%string
    = Rejected.
Proof.
  intros decode p c rest Hp Hcr Hnul Hcr' Hnul' Hbrace Hopen.
  destruct (plain_prompt_inv p Hp) as [Hb [Ht He]].
  unfold import_prompt.
  assert (Hn : has_nul (("system_prompt_insight_analysis = " ++ triple_quote)
                        ++ p ++ triple_quote ++ String c rest)%string
               = false).
  { unfold has_nul in *. rewrite !string_exists_append.
    rewrite Hnul, Hnul'. reflexivity. }
  rewrite Hn.
  assert (Hc : has_cr (("system_prompt_insight_analysis = " ++ triple_quote)
                       ++ p ++ triple_quote ++ String c rest)%string
               = false).
  { rewrite !has_cr_append. rewrite Hcr, Hcr'. reflexivity. }
  rewrite (universal_newlines_id _ Hc). rewrite strip_prefix_append.
  rewrite (string_token_plain p (String c rest) EmptyString Hb Ht He).
  unfold literal_value. unfold has_backslash in Hb.
  cbn [String.append]. rewrite Hb. rewrite Hbrace, Hopen. reflexivity.
Qed.

(** The import of a file that holds a plain body, three quotes and
    nothing more. *)
Lemma import_prompt_closed :
  forall (decode_escapes : string -> option string) (p : string),
    plain_prompt p = true ->
    has_cr p = false -> has_nul p = false ->
    import_prompt decode_escapes
      (("system_prompt_insight_analysis = " ++ triple_quote)
       ++ p ++ triple_quote)%string
    = Imported p.
Proof.
  intros decode p Hp Hcr Hnul.
  destruct (plain_prompt_inv p Hp) as [Hb [Ht He]].
  unfold import_prompt.
  assert (Hn : has_nul (("system_prompt_insight_analysis = " ++ triple_quote)
                        ++ p ++ triple_quote)%string = false).
  { unfold has_nul in *. rewrite !string_exists_append.
    rewrite Hnul. reflexivity. }
  rewrite Hn.
  assert (Hc : has_cr (("system_prompt_insight_analysis = " ++ triple_quote)
                       ++ p ++ triple_quote)%string = false).
  { rewrite !has_cr_append. rewrite Hcr. reflexivity. }
  rewrite (universal_newlines_id _ Hc). rewrite strip_prefix_append.
  pose proof (string_token_plain p EmptyString EmptyString Hb Ht He) as Htok.
  change (triple_quote ++ EmptyString)%string with triple_quote in Htok.
  change (EmptyString ++ p)%string with p in Htok. rewrite Htok.
  unfold literal_value. unfold has_backslash in Hb. rewrite Hb.
  reflexivity.
Qed.

(** X21: the save does not escape the prompt, and Python compiles the
    whole of the file it writes.  A plain prompt is imported as it was
    typed.  A prompt that holds three quotes in a row after a plain text,
    followed by text without quote, hash, backslash and brace, makes a
    file whose last string literal is not closed: the import of
    [prompt.py] is rejected.  So is the import after saving a plain
    prompt followed by one quote. *)
Theorem saved_prompt_with_quotes_is_rejected :
  forall (decode_escapes : string -> option string) (before after : string),
    plain_prompt before = true ->
    has_cr before = false -> has_nul before = false ->
    plain_code after = true ->
    import_prompt decode_escapes (prompt_file before) = Imported before
    /\ import_prompt decode_escapes
         (prompt_file (before ++ triple_quote ++ after)%string)
       = Rejected
    /\ import_prompt decode_escapes
         (prompt_file (before ++ String squote EmptyString)%string)
       = Rejected.
Proof.
  intros decode p1 p2 Hp Hcr Hnul Hplain.
  destruct (plain_code_facts p2 Hplain) as [Hrun [Hbrace [Hcr2 Hnul2]]].
  split.
  - unfold prompt_file. rewrite <- append_associative.
    apply import_prompt_closed; assumption.
  - split.
    + assert (Hrest : exists c rest,
                 (p2 ++ triple_quote)%string = String c rest).
      { destruct p2 as [| c p2]; simpl; eexists; eexists; reflexivity. }
      destruct Hrest as [c [rest Hrest]].
      assert (Hfile : prompt_file (p1 ++ triple_quote ++ p2)%string
                      = (("system_prompt_insight_analysis = "
                          ++ triple_quote)
                         ++ p1 ++ triple_quote ++ String c rest)%string).
      { unfold prompt_file. rewrite <- Hrest.
        rewrite !append_associative. reflexivity. }
      rewrite Hfile. apply import_prompt_open_rest; try assumption.
      * rewrite <- Hrest. rewrite has_cr_append. rewrite Hcr2. reflexivity.
      * rewrite <- Hrest. unfold has_nul in *. rewrite string_exists_append.
        rewrite Hnul2. reflexivity.
      * rewrite <- Hrest. unfold has_brace in *.
        rewrite string_exists_append. rewrite Hbrace. reflexivity.
      * rewrite <- Hrest. rewrite lexer_run_append. rewrite Hrun.
        reflexivity.
    + assert (Hfile : prompt_file (p1 ++ String squote EmptyString)%string
                      = (("system_prompt_insight_analysis = "
                          ++ triple_quote)
                         ++ p1 ++ triple_quote
                         ++ String squote EmptyString)%string).
      { unfold prompt_file. rewrite !append_associative. reflexivity. }
      rewrite Hfile. apply import_prompt_open_rest; try assumption;
        reflexivity.
Qed.

Lemma saved_prompt_with_quotes_is_rejected_witness :
  import_prompt sample_decode_escapes (prompt_file "Summarise.")
  = Imported "Summarise."
  /\ import_prompt sample_decode_escapes
       (prompt_file ("Summarise." ++ triple_quote ++ " and be brief")%string)
     = Rejected
  /\ import_prompt sample_decode_escapes
       (prompt_file ("Summarise." ++ String squote EmptyString)%string)
     = Rejected.
Proof.
  apply (saved_prompt_with_quotes_is_rejected sample_decode_escapes
           "Summarise." " and be brief");
    reflexivity.
Defined.
